(** * tosijs-schema-form: the schema-to-DOM renderer and its path-based binder

    A shallow embedding of [src/src/schema-form.ts] (the component with its
    helpers [detectVariant], [renderField], [reindexArrayItems],
    [setValueByPath], [collectFormData] and [getData]) together with the
    two-pass variant detector of the blueprint copy of the same code.

    Conventions of the embedding.
    - JavaScript values are trees.  Arrays and plain objects are both
      property dictionaries ([VObj]), as in JavaScript itself, where an array
      is an object whose keys are canonical decimal indices; a flag records
      [Array.isArray].  A value carries its own properties; the names that
      every plain object inherits are listed for the [in] operator
      ([object_prototype_keys]), and reading or writing through an inherited
      member is outside the data model ([prop], [walk]).
    - JavaScript numbers are rationals plus [NaN]; the conversions between
      numbers and text ([String(n)], [Number(s)], [parseFloat(s)]) are
      builtins of the host and are taken as a parameter ([Builtins]).
    - A DOM element is a tag, a property dictionary and its children.  A
      property holds the value that the element factory was given; reading it
      back stringifies it.  The text of a control is the text last assigned
      to it; the assignments that a browser control keeps as they are, are
      characterised by [keeps_text].  Listeners are the functions [onAddClick],
      [onRemoveClick], [onRangeInput], [onNumberInput] below, applied to the
      nodes their closures capture.
    - The module-level [idCounter] is threaded explicitly. *)

From Stdlib Require Import List Bool Arith Lia ZArith QArith Ascii String.
From Stdlib Require Import DecimalString DecimalNat.
Import ListNotations.

Set Warnings "-register-all".

Close Scope Q_scope.
Open Scope nat_scope.
Open Scope list_scope.
Open Scope string_scope.

(** ** Numbers and values *)

Inductive number : Type :=
| NaN
| Num (q : Q).

Inductive jsvalue : Type :=
| VUndef
| VNull
| VBool (b : bool)
| VNum (n : number)
| VStr (s : string)
| VObj (isArray : bool) (props : list (string * jsvalue)).

(** The host's conversions between numbers and text. *)
Record Builtins : Type := {
  num_to_string : number -> string;   (* String(n) *)
  Number : string -> number;          (* Number(s) *)
  parseFloat : string -> number       (* parseFloat(s) *)
}.

Definition num_of_nat (n : nat) : number := Num (inject_Z (Z.of_nat n)).
Definition num_of_Z (z : Z) : number := Num (inject_Z z).

(** [Number.isInteger] *)
Definition Number_isInteger (n : number) : bool :=
  match n with
  | NaN => false
  | Num q => Pos.eqb (Qden (Qred q)) 1%positive
  end.

Definition isNaN (n : number) : bool :=
  match n with NaN => true | Num _ => false end.

(** [Math.max] and [Math.min]: NaN is contagious. *)
Definition Math_max (a b : number) : number :=
  match a, b with
  | Num x, Num y => if Qle_bool x y then Num y else Num x
  | _, _ => NaN
  end.

Definition Math_min (a b : number) : number :=
  match a, b with
  | Num x, Num y => if Qle_bool x y then Num x else Num y
  | _, _ => NaN
  end.

Definition num_sub (a b : number) : number :=
  match a, b with
  | Num x, Num y => Num (Qred (x - y)%Q)
  | _, _ => NaN
  end.

(** Division by a non-zero constant (the code only divides by 100). *)
Definition num_div (a b : number) : number :=
  match a, b with
  | Num x, Num y => if Qeq_bool y 0%Q then NaN else Num (Qred (x / y)%Q)
  | _, _ => NaN
  end.

(** A possibly absent number operand: [undefined] converts to NaN. *)
Definition to_number (o : option number) : number :=
  match o with Some n => n | None => NaN end.

Definition num_eqb (a b : number) : bool :=
  match a, b with
  | Num x, Num y => Qeq_bool x y
  | _, _ => false
  end.

(** ** Strings *)

(** Decimal text of a natural number, as template literals print an index. *)
Definition dec (n : nat) : string := NilEmpty.string_of_uint (Nat.to_uint n).

Definition is_digit (c : ascii) : bool :=
  let n := nat_of_ascii c in Nat.leb 48 n && Nat.leb n 57.

Fixpoint all_digits (s : string) : bool :=
  match s with
  | EmptyString => true
  | String c r => is_digit c && all_digits r
  end.

(** [/^\d+$/.test(s)] *)
Definition is_numeric (s : string) : bool :=
  match s with
  | EmptyString => false
  | _ => all_digits s
  end.

Definition nonempty (s : string) : bool :=
  match s with EmptyString => false | _ => true end.

Fixpoint join (sep : string) (l : list string) : string :=
  match l with
  | [] => ""
  | [x] => x
  | x :: r => x ++ sep ++ join sep r
  end.

(** ** Property dictionaries *)

Section Dict.
Context {A : Type}.

Fixpoint get (k : string) (d : list (string * A)) : option A :=
  match d with
  | [] => None
  | (k', v) :: r => if String.eqb k k' then Some v else get k r
  end.

(** Assignment [d[k] = v]: an existing key keeps its place. *)
Fixpoint set (k : string) (v : A) (d : list (string * A)) : list (string * A) :=
  match d with
  | [] => [(k, v)]
  | (k', v') :: r =>
      if String.eqb k k' then (k, v) :: r else (k', v') :: set k v r
  end.

Definition keys (d : list (string * A)) : list string := map fst d.

Definition has (k : string) (d : list (string * A)) : bool :=
  match get k d with Some _ => true | None => false end.
End Dict.

(** Length of an array: one more than its largest canonical index. *)
Definition index_of_key (k : string) : option nat :=
  match NilEmpty.uint_of_string k with
  | Some u => let n := Nat.of_uint u in
              if String.eqb (dec n) k then Some n else None
  | None => None
  end.

Definition array_length (props : list (string * jsvalue)) : nat :=
  fold_right (fun kv acc =>
                match index_of_key (fst kv) with
                | Some i => Nat.max (S i) acc
                | None => acc
                end) 0 props.

(** [value.forEach((item, index) => ...)] visits the present indices in
    ascending order. *)
Definition array_entries (props : list (string * jsvalue)) : list (nat * jsvalue) :=
  flat_map (fun i => match get (dec i) props with
                     | Some v => [(i, v)]
                     | None => []
                     end) (seq 0 (array_length props)).

(** The array literal [[v0, v1, ...]]. *)
Fixpoint arr_props (i : nat) (l : list jsvalue) : list (string * jsvalue) :=
  match l with
  | [] => []
  | v :: r => (dec i, v) :: arr_props (S i) r
  end.

Definition arr (l : list jsvalue) : jsvalue := VObj true (arr_props 0 l).
Definition obj (d : list (string * jsvalue)) : jsvalue := VObj false d.

(** The names that every plain object inherits from [Object.prototype]. *)
Definition object_prototype_keys : list string :=
  ["constructor"; "hasOwnProperty"; "isPrototypeOf"; "propertyIsEnumerable";
   "toLocaleString"; "toString"; "valueOf"; "__proto__"; "__defineGetter__";
   "__defineSetter__"; "__lookupGetter__"; "__lookupSetter__"].

Definition inherited (k : string) : bool :=
  existsb (String.eqb k) object_prototype_keys.

(** [k in o] for a plain object [o] with the own properties [d]. *)
Definition in_object (k : string) (d : list (string * jsvalue)) : bool :=
  has k d || inherited k.

(** [v[k]] for a value, as an own property: the value of the key, or
    [undefined].  This is what [v[k]] gives for every name that [v] does not
    inherit or have built in ([reads_own] below). *)
Definition prop (v : jsvalue) (k : string) : jsvalue :=
  match v with
  | VObj _ d => match get k d with Some x => x | None => VUndef end
  | _ => VUndef
  end.

Definition nullish (v : jsvalue) : bool :=
  match v with VUndef | VNull => true | _ => false end.

(** [a ?? b] *)
Definition coalesce (a b : jsvalue) : jsvalue := if nullish a then b else a.

(** Truthiness. *)
Definition truthy (v : jsvalue) : bool :=
  match v with
  | VUndef | VNull => false
  | VBool b => b
  | VNum NaN => false
  | VNum (Num q) => negb (Qeq_bool q 0%Q)
  | VStr s => nonempty s
  | VObj _ _ => true
  end.

(** [typeof v] *)
Definition typeof (v : jsvalue) : string :=
  match v with
  | VUndef => "undefined"
  | VNull => "object"
  | VBool _ => "boolean"
  | VNum _ => "number"
  | VStr _ => "string"
  | VObj _ _ => "object"
  end.

Definition Array_isArray (v : jsvalue) : bool :=
  match v with VObj true _ => true | _ => false end.

(** Strict equality [a === b].  Two objects are equal only when they are the
    same object; a schema literal and a data value never are, so the
    comparison of two containers is [false]. *)
Definition strict_eq (a b : jsvalue) : bool :=
  match a, b with
  | VUndef, VUndef => true
  | VNull, VNull => true
  | VBool x, VBool y => Bool.eqb x y
  | VNum x, VNum y => num_eqb x y
  | VStr x, VStr y => String.eqb x y
  | _, _ => false
  end.

Definition is_undef (v : jsvalue) : bool :=
  match v with VUndef => true | _ => false end.

Section WithBuiltins.
Variable B : Builtins.

(** [String(v)] *)
Fixpoint String_of (v : jsvalue) : string :=
  match v with
  | VUndef => "undefined"
  | VNull => "null"
  | VBool true => "true"
  | VBool false => "false"
  | VNum n => num_to_string B n
  | VStr s => s
  | VObj false _ => "[object Object]"
  | VObj true d =>
      join "," (map (fun i =>
                       (fix find (d : list (string * jsvalue)) : string :=
                          match d with
                          | [] => ""
                          | (k, x) :: r =>
                              if String.eqb (dec i) k
                              then (if nullish x then "" else String_of x)
                              else find r
                          end) d)
                    (seq 0 (array_length d)))
  end.
End WithBuiltins.

(** ** JSON Schema nodes (the supported subset) *)

(** [type?: string | string[]]; a type list is never empty. *)
Inductive type_decl : Type :=
| TypeStr (s : string)
| TypeArr (first : string) (more : list string).

Inductive schema : Type := Schema {
  type : option type_decl;
  properties : option (list (string * schema));
  items : option schema;
  required : option (list string);
  enum : option (list jsvalue);
  const : jsvalue;                      (* [VUndef] when absent *)
  anyOf : option (list schema);
  oneOf : option (list schema);
  minimum : option number;
  maximum : option number;
  minLength : option number;
  maxLength : option number;
  pattern : option string;
  minItems : option number;
  maxItems : option number;
  title : option string;
  description : option string;
  default : jsvalue;                    (* [VUndef] when absent *)
  format : option string
}.

(** [schema.required], for use where a parameter is named [required]. *)
Definition required_of (s : schema) : option (list string) := required s.

(** The schema [{}]. *)
Definition empty_schema : schema :=
  Schema None None None None None VUndef None None None None None None None
         None None None None VUndef None.

(** [Array.isArray(schema.type) ? schema.type[0] : schema.type] *)
Definition schemaType (s : schema) : option string :=
  match type s with
  | Some (TypeStr t) => Some t
  | Some (TypeArr t _) => Some t
  | None => None
  end.

(** Truthiness of [schema.type]: a list is truthy, the empty string is not. *)
Definition type_truthy (s : schema) : bool :=
  match type s with
  | Some (TypeStr t) => nonempty t
  | Some (TypeArr _ _) => true
  | None => false
  end.

(** [schema.type === t] *)
Definition type_is (s : schema) (t : string) : bool :=
  match type s with
  | Some (TypeStr t') => String.eqb t' t
  | _ => false
  end.

Definition opt_truthy (o : option string) : bool :=
  match o with Some s => nonempty s | None => false end.

(** *** Labels *)

Definition is_upper (c : ascii) : bool :=
  let n := nat_of_ascii c in Nat.leb 65 n && Nat.leb n 90.
Definition is_lower (c : ascii) : bool :=
  let n := nat_of_ascii c in Nat.leb 97 n && Nat.leb n 122.
(** [\w] *)
Definition is_word (c : ascii) : bool :=
  is_upper c || is_lower c || is_digit c || Ascii.eqb c "_"%char.
Definition is_space (c : ascii) : bool :=
  let n := nat_of_ascii c in Nat.eqb n 32 || (Nat.leb 9 n && Nat.leb n 13).
Definition to_upper (c : ascii) : ascii :=
  if is_lower c then ascii_of_nat (nat_of_ascii c - 32) else c.

(** [.replace(/([A-Z])/g, ' $1')] *)
Fixpoint space_before_upper (s : string) : string :=
  match s with
  | EmptyString => ""
  | String c r =>
      if is_upper c then String " " (String c (space_before_upper r))
      else String c (space_before_upper r)
  end.

(** [.replace(/[_-]/g, ' ')] *)
Fixpoint underscores_to_spaces (s : string) : string :=
  match s with
  | EmptyString => ""
  | String c r =>
      String (if Ascii.eqb c "_"%char || Ascii.eqb c "-"%char then " "%char else c)
             (underscores_to_spaces r)
  end.

(** [.replace(/^\w/, c => c.toUpperCase())] *)
Definition capitalize (s : string) : string :=
  match s with
  | EmptyString => ""
  | String c r => if is_word c then String (to_upper c) r else s
  end.

Fixpoint trim_start (s : string) : string :=
  match s with
  | EmptyString => ""
  | String c r => if is_space c then trim_start r else s
  end.

Fixpoint trim_end (s : string) : string :=
  match s with
  | EmptyString => ""
  | String c r =>
      match trim_end r with
      | EmptyString => if is_space c then "" else String c ""
      | r' => String c r'
      end
  end.

Definition trim (s : string) : string := trim_end (trim_start s).

Definition getLabel (key : string) (s : schema) : string :=
  if opt_truthy (title s) then match title s with Some t => t | None => "" end
  else trim (capitalize (underscores_to_spaces (space_before_upper key))).

(** [schema.anyOf || schema.oneOf || null] *)
Definition getUnionVariants (s : schema) : option (list schema) :=
  match anyOf s with
  | Some vs => Some vs
  | None => oneOf s
  end.

Definition is_type_key (k : string) : bool :=
  String.eqb k "type" || String.eqb k "kind" || String.eqb k "_type".

Section Introspection.
Variable B : Builtins.

Definition getVariantLabel (variant : schema) (index : nat) : string :=
  if opt_truthy (title variant) then
    match title variant with Some t => t | None => "" end
  else if negb (is_undef (const variant)) then String_of B (const variant)
  else if type_truthy variant then
    match schemaType variant with Some t => t | None => "" end
  else
    let fallback := "Option " ++ dec (index + 1) in
    match properties variant with
    | Some ps =>
        match find is_type_key (keys ps) with
        | Some typeKey =>
            match get typeKey ps with
            | Some p => if truthy (const p) then String_of B (const p)
                        else fallback
            | None => fallback
            end
        | None => fallback
        end
    | None => fallback
    end.
End Introspection.

(** *** The variant detector of [schema-form.ts] *)

(** The discriminator loop: some declared child has a [const] that the
    value's field equals.  A field that the value only inherits is a
    built-in member, which no schema literal equals, as [undefined] equals
    none that is defined. *)
Definition discriminator_hit (value : jsvalue) (ps : list (string * schema)) : bool :=
  existsb (fun kp =>
             negb (is_undef (const (snd kp)))
             && strict_eq (prop value (fst kp)) (const (snd kp))) ps.

(** [variantKeys.filter(k => k in value).length === variantKeys.length],
    which the detector evaluates for plain objects only. *)
Definition all_keys_present (value : jsvalue) (ps : list (string * schema)) : bool :=
  match value with
  | VObj false d =>
      Nat.eqb (List.length (filter (fun k => in_object k d) (keys ps)))
              (List.length (keys ps))
  | _ => false
  end.

(** The type/shape test of one variant. *)
Definition type_match (value : jsvalue) (variant : schema) : bool :=
  match schemaType variant with
  | Some variantType =>
      if nonempty variantType then
        let valueType := typeof value in
        (String.eqb variantType "string" && String.eqb valueType "string")
        || (String.eqb variantType "number" && String.eqb valueType "number")
        || (String.eqb variantType "integer" && String.eqb valueType "number"
            && match value with VNum n => Number_isInteger n | _ => false end)
        || (String.eqb variantType "boolean" && String.eqb valueType "boolean")
        || (String.eqb variantType "array" && Array_isArray value)
        || (String.eqb variantType "object" && String.eqb valueType "object"
            && negb (Array_isArray value)
            && match properties variant with
               | Some ps => discriminator_hit value ps || all_keys_present value ps
               | None => true
               end)
      else false
  | None => false
  end.

Definition const_match (value : jsvalue) (variant : schema) : bool :=
  negb (is_undef (const variant)) && strict_eq value (const variant).

(** The first index from [i] on whose variant passes [test]. *)
Fixpoint first_index (test : schema -> bool) (i : nat) (variants : list schema)
  : option nat :=
  match variants with
  | [] => None
  | v :: r => if test v then Some i else first_index test (S i) r
  end.

(** [detectVariant] of [schema-form.ts]: one loop; each variant is tried for
    a const match and then for a type match before the next one is looked at. *)
Definition detectVariant (value : jsvalue) (variants : list schema) : nat :=
  if nullish value then 0
  else match first_index (fun v => const_match value v || type_match value v)
                         0 variants with
       | Some i => i
       | None => 0
       end.

(** The same function in the blueprint copy: a first loop for const matches,
    then a second loop for type matches that skips const-only variants. *)
Module Blueprint.
Definition detectVariant (value : jsvalue) (variants : list schema) : nat :=
  if nullish value then 0
  else match first_index (const_match value) 0 variants with
       | Some i => i
       | None =>
           match first_index
                   (fun v => negb (negb (is_undef (const v)) && negb (type_truthy v))
                             && type_match value v)
                   0 variants with
           | Some i => i
           | None => 0
           end
       end.
End Blueprint.

(** *** Default values *)

Fixpoint getDefaultValue (s : schema) : jsvalue :=
  if negb (is_undef (default s)) then default s
  else
    match schemaType s with
    | Some t =>
        if String.eqb t "string" then VStr ""
        else if String.eqb t "number" || String.eqb t "integer" then
          match minimum s with Some m => VNum m | None => VNum (num_of_nat 0) end
        else if String.eqb t "boolean" then VBool false
        else if String.eqb t "array" then arr []
        else if String.eqb t "object" then
          match properties s with
          | Some ps =>
              obj ((fix build (ps : list (string * schema)) (acc : list (string * jsvalue)) :=
                      match ps with
                      | [] => acc
                      | (k, p) :: r => build r (set k (getDefaultValue p) acc)
                      end) ps [])
          | None => obj []
          end
        else VNull
    | None => VNull
    end.

(** ** Path utilities *)

(** Outcome of code that may throw: module code is strict, so assigning a
    property on a primitive raises a [TypeError], as does calling a method
    that the receiver does not have. *)
Inductive result (A : Type) : Type :=
| Ok (a : A)
| TypeError.
Arguments Ok {A} a.
Arguments TypeError {A}.

Definition bind {A C : Type} (r : result A) (f : A -> result C) : result C :=
  match r with
  | Ok a => f a
  | TypeError => TypeError
  end.

(** The digits that follow an opening bracket when they are closed by "]":
    the body of a match of [/\[(\d+)\]/] whose "[" has just been read. *)
Fixpoint bracket_body (s : string) : option string :=
  match s with
  | EmptyString => None
  | String c r =>
      if is_digit c then
        match r with
        | String c' _ =>
            if Ascii.eqb c' "]"%char then Some (String c "")
            else match bracket_body r with
                 | Some ds => Some (String c ds)
                 | None => None
                 end
        | EmptyString => None
        end
      else None
  end.

(** [path.replace(/\[(\d+)\]/g, '.$1')]: at every position that is not inside
    the previous match, a match is replaced by "." and its digits; [skip]
    counts the characters of the current match still to be passed over. *)
Fixpoint replace_from (skip : nat) (s : string) : string :=
  match s with
  | EmptyString => ""
  | String c r =>
      match skip with
      | S k => replace_from k r
      | O =>
          match (if Ascii.eqb c "["%char then bracket_body r else None) with
          | Some ds => "." ++ ds ++ replace_from (S (String.length ds)) r
          | None => String c (replace_from 0 r)
          end
      end
  end.

Definition replace_brackets (path : string) : string := replace_from 0 path.

(** [s.split('.')] *)
Fixpoint split_dot (s : string) : list string :=
  match s with
  | EmptyString => [""]
  | String c r =>
      if Ascii.eqb c "."%char then "" :: split_dot r
      else match split_dot r with
           | x :: xs => String c x :: xs
           | [] => [String c ""]
           end
  end.

(** [path.replace(/\[(\d+)\]/g, '.$1').split('.').filter(Boolean)] *)
Definition path_parts (path : string) : list string :=
  filter nonempty (split_dot (replace_brackets path)).

(** [current[part] = v] *)
Definition assign (current : jsvalue) (part : string) (v : jsvalue) : result jsvalue :=
  match current with
  | VObj a d => Ok (VObj a (set part v d))
  | _ => TypeError
  end.

(** The loop of [setValueByPath] and its final assignment.  The loop follows
    one reference chain from the root, so the mutation is a rebuild of the
    spine of the tree.  Segments are looked up as own properties: this is the
    loop for paths without the names of built-in members ([ordinary_key]
    below). *)
Fixpoint walk (current : jsvalue) (parts : list string) (v : jsvalue) : result jsvalue :=
  match parts with
  | [] => Ok current
  | [lastPart] => assign current lastPart v
  | part :: (nextPart :: _) as rest =>
      let isNextArray := is_numeric nextPart in
      match current with
      | VObj a d =>
          let child := match get part d with Some x => x | None => VUndef end in
          let child := if nullish child then VObj isNextArray [] else child in
          bind (walk child rest v) (fun child' => Ok (VObj a (set part child' d)))
      | _ => TypeError
      end
  end.

Definition setValueByPath (obj : jsvalue) (path : string) (v : jsvalue) : result jsvalue :=
  walk obj (path_parts path) v.

(** Reading along the same segments. *)
Definition read (root : jsvalue) (parts : list string) : jsvalue :=
  fold_left prop parts root.

Definition getValueByPath (root : jsvalue) (path : string) : jsvalue :=
  read root (path_parts path).

(** ** The DOM *)

Inductive node : Type :=
| Text (s : string)
| Elem (tag : string) (attrs : list (string * jsvalue)) (children : list node).

Definition tag_of (n : node) : string :=
  match n with Elem t _ _ => t | Text _ => "" end.
Definition attrs_of (n : node) : list (string * jsvalue) :=
  match n with Elem _ a _ => a | Text _ => [] end.
Definition children_of (n : node) : list node :=
  match n with Elem _ _ c => c | Text _ => [] end.

(** A property that the factory was given.  The code asks only for
    [data-path], [data-union] and [name]. *)
Definition hasAttribute (n : node) (k : string) : bool :=
  match get k (attrs_of n) with
  | Some _ => true
  | None => false
  end.

Definition setAttribute (n : node) (k : string) (v : jsvalue) : node :=
  match n with
  | Elem t a c => Elem t (set k v a) c
  | Text s => Text s
  end.

Definition has_class (n : node) (c : string) : bool :=
  match get "class" (attrs_of n) with
  | Some (VStr s) => existsb (String.eqb c) (filter nonempty
                       ((fix words (s : string) : list string :=
                           match s with
                           | EmptyString => [""]
                           | String ch r =>
                               if Ascii.eqb ch " "%char then "" :: words r
                               else match words r with
                                    | x :: xs => String ch x :: xs
                                    | [] => [String ch ""]
                                    end
                           end) s))
  | _ => false
  end.

(** All descendant nodes in document order ([querySelectorAll] order). *)
Fixpoint descendants (n : node) : list node :=
  match n with
  | Text _ => []
  | Elem _ _ cs =>
      (fix each (cs : list node) : list node :=
         match cs with
         | [] => []
         | c :: r => (c :: descendants c) ++ each r
         end)%list cs
  end.

(** [:scope > .schema-array-item] *)
Definition array_items (container : node) : list node :=
  filter (fun c => has_class c "schema-array-item") (children_of container).

Section Rendering.
Variable B : Builtins.

(** [getAttribute]: the text of a property.  A property given as
    [undefined] (an absent bound of a number input) reads "undefined". *)
Definition getAttribute (n : node) (k : string) : option string :=
  match get k (attrs_of n) with
  | Some v => Some (String_of B v)
  | None => None
  end.

(** [el.value] of a control: the text last assigned to it.  A select
    without an assigned value shows its first selected option, or else its
    first option. *)
Definition el_value (n : node) : string :=
  match get "value" (attrs_of n) with
  | Some v => String_of B v
  | None =>
      if String.eqb (tag_of n) "select" then
        let opts := filter (fun c => String.eqb (tag_of c) "option") (children_of n) in
        match find (fun o => match get "selected" (attrs_of o) with
                             | Some v => truthy v
                             | None => false
                             end) opts with
        | Some o => match get "value" (attrs_of o) with
                    | Some v => String_of B v
                    | None => ""
                    end
        | None =>
            match opts with
            | o :: _ => match get "value" (attrs_of o) with
                        | Some v => String_of B v
                        | None => ""
                        end
            | [] => ""
            end
        end
      else ""
  end.

(** [el.value = s] on an input: the assignment.  The text that the control
    then holds is [s] whenever its type keeps it ([keeps_text]). *)
Definition set_value (n : node) (s : string) : node :=
  setAttribute n "value" (VStr s).

(** [selectEl.value = s]: the option with that value becomes selected;
    when there is none the select shows nothing. *)
Definition select_assign (sel : node) (s : string) : node :=
  let opts := filter (fun c => String.eqb (tag_of c) "option") (children_of sel) in
  if existsb (fun o => match get "value" (attrs_of o) with
                       | Some v => String.eqb (String_of B v) s
                       | None => false
                       end) opts
  then setAttribute sel "value" (VStr s)
  else setAttribute sel "value" (VStr "").

(** [el.checked] *)
Definition el_checked (n : node) : bool :=
  match get "checked" (attrs_of n) with
  | Some v => truthy v
  | None => false
  end.

(** *** Building blocks shared by the branches of [renderField] *)

(** [required ? span({ class: 'required' }, ' *') : ''] *)
Definition required_mark (required : bool) : node :=
  if required then Elem "span" [("class", VStr "required")] [Text " *"]
  else Text "".

(** [schema.description ? div({ class: 'description' }, schema.description) : ''] *)
Definition description_line (s : schema) : node :=
  match description s with
  | Some d => if nonempty d
              then Elem "div" [("class", VStr "description")] [Text d]
              else Text ""
  | None => Text ""
  end.

Definition label_for (fieldId fieldLabel : string) (required : bool) : node :=
  Elem "label" [("for", VStr fieldId)] [Text fieldLabel; required_mark required].

Definition legend_of (fieldLabel : string) (required : bool) : node :=
  Elem "legend" [] [Text fieldLabel; required_mark required].

Definition opt_num (o : option number) : jsvalue :=
  match o with Some n => VNum n | None => VUndef end.

Definition includes (l : option (list string)) (k : string) : bool :=
  match l with
  | Some ks => existsb (String.eqb k) ks
  | None => false
  end.

(** Rendering threads the module-level [idCounter] and may throw. *)
Definition M (A : Type) : Type := nat -> result (A * nat).

Definition ret {A : Type} (a : A) : M A := fun n => Ok (a, n).
Definition throw {A : Type} : M A := fun _ => TypeError.
Definition mbind {A C : Type} (m : M A) (f : A -> M C) : M C :=
  fun n => match m n with
           | Ok (a, n') => f a n'
           | TypeError => TypeError
           end.

(** [uniqueId(prefix)]: [`${prefix}-${++idCounter}`] *)
Definition uniqueId (prefix : string) : M string :=
  fun n => Ok (prefix ++ "-" ++ dec (S n), S n).

(** The select of the enum branch and of the all-const union branch. *)
Definition choice_field (fieldId fieldLabel : string) (s : schema)
           (options : list node) (value : jsvalue) (path : string)
           (required : bool) : node :=
  let selectEl :=
    Elem "select"
         [("id", VStr fieldId); ("name", VStr path);
          ("required", VBool required); ("data-path", VStr path)]
         (Elem "option" [("value", VStr "")] [Text "-- Select --"] :: options) in
  let selectEl :=
    if nullish value then selectEl else select_assign selectEl (String_of B value) in
  Elem "div" [("class", VStr "schema-field")]
       [label_for fieldId fieldLabel required; description_line s; selectEl].

(** [renderStringField] *)
Definition formatToType (f : string) : option string :=
  if String.eqb f "email" then Some "email"
  else if String.eqb f "uri" then Some "url"
  else if String.eqb f "url" then Some "url"
  else if String.eqb f "date-time" then Some "datetime-local"
  else if String.eqb f "date" then Some "date"
  else if String.eqb f "time" then Some "time"
  else if String.eqb f "password" then Some "password"
  else None.

Definition num_truthy (o : option number) : bool :=
  match o with Some n => truthy (VNum n) | None => false end.

Definition num_gtb (a b : number) : bool :=
  match a, b with
  | Num x, Num y => negb (Qle_bool x y)
  | _, _ => false
  end.

Definition num_geb (a b : number) : bool :=
  match a, b with
  | Num x, Num y => Qle_bool y x
  | _, _ => false
  end.

Definition format_is (s : schema) (f : string) : bool :=
  match format s with Some f' => String.eqb f' f | None => false end.

(** [schema.format ? formatToType[schema.format] || 'text' : 'text'] *)
Definition inputType_of (s : schema) : string :=
  match format s with
  | Some f => if nonempty f
              then match formatToType f with
                   | Some t => if nonempty t then t else "text"
                   | None => "text"
                   end
              else "text"
  | None => "text"
  end.

(** The attribute object [inputAttrs] of [renderStringField]. *)
Definition string_inputAttrs (fieldId : string) (s : schema) (value : jsvalue)
           (path : string) (required : bool) : list (string * jsvalue) :=
  let shown := coalesce (coalesce value (default s)) (VStr "") in
  let inputAttrs :=
    [("id", VStr fieldId); ("name", VStr path); ("value", shown);
     ("required", VBool required); ("data-path", VStr path);
     ("data-type", VStr "string")] in
  let inputAttrs :=
    if num_truthy (minLength s) then set "minLength" (opt_num (minLength s)) inputAttrs
    else inputAttrs in
  let inputAttrs :=
    if num_truthy (maxLength s) then set "maxLength" (opt_num (maxLength s)) inputAttrs
    else inputAttrs in
  let inputAttrs :=
    match pattern s with
    | Some p => if nonempty p then set "pattern" (VStr p) inputAttrs else inputAttrs
    | None => inputAttrs
    end in
  let inputAttrs :=
    if format_is s "email" then set "placeholder" (VStr "email@example.com") inputAttrs
    else inputAttrs in
  if format_is s "url" || format_is s "uri"
  then set "placeholder" (VStr "https://") inputAttrs
  else inputAttrs.

(** The control of a string field: a textarea when [maxLength] exceeds 200. *)
Definition string_control (fieldId : string) (s : schema) (value : jsvalue)
           (path : string) (required : bool) : node :=
  let isTextarea :=
    match maxLength s with
    | Some m => truthy (VNum m) && num_gtb m (num_of_nat 200)
    | None => false
    end in
  let shown := coalesce (coalesce value (default s)) (VStr "") in
  let inputAttrs := string_inputAttrs fieldId s value path required in
  if isTextarea
  then Elem "textarea" (set "rows" (VNum (num_of_nat 4)) inputAttrs)
            [Text (String_of B shown)]
  else Elem "input" (("type", VStr (inputType_of s)) :: inputAttrs) [].

Definition renderStringField (fieldId fieldLabel : string) (s : schema)
           (value : jsvalue) (path : string) (required : bool) : node :=
  Elem "div" [("class", VStr "schema-field")]
       [label_for fieldId fieldLabel required; description_line s;
        string_control fieldId s value path required].

(** The [number]/[integer] case of [renderField]. *)
Definition hasRange (s : schema) : bool :=
  format_is s "range"
  || (match minimum s with Some _ => true | None => false end
      && match maximum s with Some _ => true | None => false end).

(** [value ?? schema.default ?? schema.minimum ?? 0] *)
Definition currentVal_of (s : schema) (value : jsvalue) : jsvalue :=
  coalesce (coalesce (coalesce value (default s)) (opt_num (minimum s)))
           (VNum (num_of_nat 0)).

(** The slider of a range field. *)
Definition rangeInput_of (fieldId schemaType : string) (s : schema)
           (value : jsvalue) (path : string) (required : bool) : node :=
  let isInt := String.eqb schemaType "integer" in
  let stepVal :=
    if isInt then num_of_nat 1
    else num_div (num_sub (to_number (maximum s)) (to_number (minimum s)))
                 (num_of_nat 100) in
  set_value
    (Elem "input"
          [("type", VStr "range"); ("id", VStr fieldId); ("name", VStr path);
           ("min", opt_num (minimum s)); ("max", opt_num (maximum s));
           ("step", VNum (if isInt then num_of_nat 1 else stepVal));
           ("required", VBool required); ("data-path", VStr path);
           ("data-type", VStr schemaType)] [])
    (String_of B (currentVal_of s value)).

(** The companion number input of a range field. *)
Definition numberInput_of (fieldId fieldLabel schemaType : string) (s : schema)
           (value : jsvalue) : node :=
  let isInt := String.eqb schemaType "integer" in
  set_value
    (Elem "input"
          [("type", VStr "number"); ("id", VStr (fieldId ++ "-number"));
           ("min", opt_num (minimum s)); ("max", opt_num (maximum s));
           ("step", if isInt then VNum (num_of_nat 1) else VStr "any");
           ("class", VStr "schema-range-number");
           ("aria-label", VStr (fieldLabel ++ " value"))] [])
    (String_of B (currentVal_of s value)).

(** The number input of a field without a range. *)
Definition plainNumberInput_of (fieldId schemaType : string) (s : schema)
           (value : jsvalue) (path : string) (required : bool) : node :=
  let isInt := String.eqb schemaType "integer" in
  Elem "input"
       [("type", VStr "number"); ("id", VStr fieldId); ("name", VStr path);
        ("value", coalesce (coalesce value (default s)) (VStr ""));
        ("min", opt_num (minimum s)); ("max", opt_num (maximum s));
        ("step", if isInt then VNum (num_of_nat 1) else VStr "any");
        ("required", VBool required); ("data-path", VStr path);
        ("data-type", VStr schemaType)] [].

Definition renderNumberField (fieldId fieldLabel schemaType : string)
           (s : schema) (value : jsvalue) (path : string) (required : bool) : node :=
  if hasRange s then
    Elem "div" [("class", VStr "schema-field schema-field-range")]
         [label_for fieldId fieldLabel required; description_line s;
          Elem "div" [("class", VStr "schema-range-container")]
               [rangeInput_of fieldId schemaType s value path required;
                numberInput_of fieldId fieldLabel schemaType s value]]
  else
    Elem "div" [("class", VStr "schema-field")]
         [label_for fieldId fieldLabel required; description_line s;
          plainNumberInput_of fieldId schemaType s value path required].

Definition renderBooleanField (fieldId fieldLabel : string) (s : schema)
           (value : jsvalue) (path : string) (required : bool) : node :=
  Elem "div" [("class", VStr "schema-field schema-field-boolean")]
       [Elem "label" []
             [Elem "input"
                   [("type", VStr "checkbox"); ("id", VStr fieldId);
                    ("name", VStr path);
                    ("checked", coalesce (coalesce value (default s)) (VBool false));
                    ("data-path", VStr path); ("data-type", VStr "boolean")] [];
              Text " "; Text fieldLabel; required_mark required];
        description_line s].

Definition renderTextFallback (fieldId fieldLabel : string) (s : schema)
           (value : jsvalue) (path : string) (required : bool) : node :=
  Elem "div" [("class", VStr "schema-field")]
       [label_for fieldId fieldLabel required; description_line s;
        Elem "input"
             [("type", VStr "text"); ("id", VStr fieldId); ("name", VStr path);
              ("value", coalesce (coalesce value (default s)) (VStr ""));
              ("required", VBool required); ("data-path", VStr path)] []].
End Rendering.

(** ** The field renderer *)

Section Renderer.
Variable B : Builtins.

(** [renderField] with its schema fixed: key, value, path, required. *)
Definition renderer : Type := string -> jsvalue -> string -> bool -> M node.

Fixpoint mapi_from {A C : Type} (f : nat -> A -> C) (i : nat) (l : list A) : list C :=
  match l with
  | [] => []
  | x :: r => f i x :: mapi_from f (S i) r
  end.

(** One [renderField] call per declared child, in declaration order. *)
Fixpoint render_props (rs : list (string * renderer)) (value_of : string -> jsvalue)
         (path : string) (requiredFields : option (list string)) : M (list node) :=
  match rs with
  | [] => ret []
  | (propKey, r) :: rest =>
      mbind (r propKey (value_of propKey) (path ++ "." ++ propKey)
               (includes requiredFields propKey))
            (fun x => mbind (render_props rest value_of path requiredFields)
                            (fun xs => ret (x :: xs)))
  end.

(** A union variant with the renderers of its own field and of its children. *)
Record variant_r : Type := {
  vr_schema : schema;
  vr_field : renderer;
  vr_props : option (list (string * renderer))
}.

(** The union branch of [renderField] when not every variant is a const. *)
Definition renderUnionField (fieldId fieldLabel key : string) (s : schema)
           (variants : list variant_r) (value : jsvalue) (path : string)
           (required : bool) : M node :=
  let currentVariantIndex := detectVariant value (map vr_schema variants) in
  match nth_error variants currentVariantIndex with
  | None => throw
  | Some currentVariant =>
      let variantSelector :=
        Elem "select"
             [("id", VStr fieldId); ("class", VStr "schema-union-selector");
              ("data-path", VStr path); ("data-union", VStr "true")]
             (mapi_from
                (fun i v =>
                   Elem "option"
                        (if Nat.eqb i currentVariantIndex
                         then [("value", VStr (dec i)); ("selected", VBool true)]
                         else [("value", VStr (dec i))])
                        [Text (getVariantLabel B (vr_schema v) i)])
                0 variants) in
      let content :=
        match type_is (vr_schema currentVariant) "object", vr_props currentVariant with
        | true, Some props =>
            render_props props
                         (fun propKey => if nullish value then VUndef
                                         else prop value propKey)
                         path (required_of (vr_schema currentVariant))
        | _, _ =>
            mbind (vr_field currentVariant key value path required)
                  (fun x => ret [x])
        end in
      mbind content (fun fields =>
        ret (Elem "fieldset" [("class", VStr "schema-union"); ("data-path", VStr path)]
                  [legend_of fieldLabel required; description_line s;
                   Elem "div" [("class", VStr "schema-union-selector-container")]
                        [variantSelector];
                   Elem "div" [("class", VStr "schema-union-content");
                               ("data-variant", VNum (num_of_nat currentVariantIndex))]
                        fields]))
  end.

(** [renderObjectField] *)
Definition renderObjectField (key : string) (s : schema)
           (props : option (list (string * renderer))) (value : jsvalue)
           (path : string) (required : bool) : M node :=
  let fieldLabel := getLabel key s in
  match props with
  | None =>
      ret (Elem "div" [("class", VStr "schema-field")]
                [Text ("Object without properties: " ++ key)])
  | Some rs =>
      mbind (render_props rs (prop value) path (required_of s))
            (fun fields =>
               ret (Elem "fieldset"
                         [("class", VStr "schema-object"); ("data-path", VStr path)]
                         (legend_of fieldLabel required :: description_line s :: fields)))
  end.

(** [renderArrayItem], given the item's field renderer and label. *)
Definition renderArrayItem (field : renderer) (itemLabel : string)
           (value : jsvalue) (path : string) (index : nat)
           (variantIndex : option nat) : M node :=
  mbind (field itemLabel value path false) (fun itemContent =>
    let removeButton :=
      Elem "button"
           [("type", VStr "button"); ("class", VStr "schema-array-remove");
            ("aria-label", VStr "Remove item")] [Text "×"] in
    let attrs :=
      [("class", VStr "schema-array-item"); ("data-index", VNum (num_of_nat index))] in
    let attrs :=
      match variantIndex with
      | Some vi => set "data-variant" (VNum (num_of_nat vi)) attrs
      | None => attrs
      end in
    ret (Elem "div" attrs [removeButton; itemContent])).

(** The item at [index] of an array field: for a union item schema the
    variant is detected per item. *)
Definition render_item (itemField : renderer)
           (itemVariants : option (list (schema * renderer)))
           (path : string) (item : jsvalue) (index : nat) : M node :=
  let itemPath := path ++ "[" ++ dec index ++ "]" in
  match itemVariants with
  | Some vs =>
      let variantIndex := detectVariant item (map fst vs) in
      match nth_error vs variantIndex with
      | Some (v, field) =>
          renderArrayItem field (getVariantLabel B v variantIndex)
                          item itemPath index (Some variantIndex)
      | None => throw
      end
  | None =>
      renderArrayItem itemField ("Item " ++ dec (index + 1)) item itemPath index None
  end.

Fixpoint render_items (itemField : renderer)
         (itemVariants : option (list (schema * renderer)))
         (path : string) (entries : list (nat * jsvalue)) : M (list node) :=
  match entries with
  | [] => ret []
  | (index, item) :: rest =>
      mbind (render_item itemField itemVariants path item index)
            (fun x => mbind (render_items itemField itemVariants path rest)
                            (fun xs => ret (x :: xs)))
  end.

(** [value || []] followed by [value.forEach]: a truthy value that is not
    an array has no [forEach]. *)
Definition forEach_entries (value : jsvalue) : result (list (nat * jsvalue)) :=
  if truthy value then
    match value with
    | VObj true d => Ok (array_entries d)
    | _ => TypeError
    end
  else Ok [].

(** The add affordance of an array field: a variant picker and a button for
    a union item schema, a single button otherwise. *)
Definition add_controls (itemVariants : option (list (schema * renderer)))
           (path : string) : node :=
  match itemVariants with
  | Some vs =>
      Elem "div" [("class", VStr "schema-array-add-controls")]
           [Elem "select" [("class", VStr "schema-array-variant-select")]
                 (mapi_from
                    (fun i v => Elem "option" [("value", VStr (dec i))]
                                     [Text (getVariantLabel B (fst v) i)])
                    0 vs);
            Elem "button" [("type", VStr "button");
                           ("class", VStr "schema-array-add")]
                 [Text "+ Add"]]
  | None =>
      Elem "button" [("type", VStr "button"); ("class", VStr "schema-array-add");
                     ("data-path", VStr path)]
           [Text "+ Add Item"]
  end.

(** The optional line reporting [minItems] and [maxItems]. *)
Definition array_constraints (s : schema) : node :=
  match minItems s, maxItems s with
  | None, None => Text ""
  | mn, mx =>
      Elem "div" [("class", VStr "array-constraints")]
           [Text (match mn with
                  | Some n => "Min: " ++ num_to_string B n
                  | None => ""
                  end);
            Text (match mn, mx with Some _, Some _ => " | " | _, _ => "" end);
            Text (match mx with
                  | Some n => "Max: " ++ num_to_string B n
                  | None => ""
                  end)]
  end.

(** [renderArrayField] *)
Definition renderArrayField (key : string) (s : schema) (itemField : renderer)
           (itemVariants : option (list (schema * renderer))) (value : jsvalue)
           (path : string) (required : bool) : M node :=
  let fieldLabel := getLabel key s in
  match forEach_entries value with
  | TypeError => throw
  | Ok entries =>
      mbind (render_items itemField itemVariants path entries) (fun rendered =>
        let arrayContainer :=
          Elem "div" [("class", VStr "schema-array-items"); ("data-path", VStr path)]
               rendered in
        ret (Elem "fieldset" [("class", VStr "schema-array"); ("data-path", VStr path)]
                  [legend_of fieldLabel required; description_line s;
                   arrayContainer; add_controls itemVariants path;
                   array_constraints s]))
  end.

(** The item schema used when [schema.items] is absent: [{ type: 'string' }]. *)
Definition string_schema : schema :=
  Schema (Some (TypeStr "string")) None None None None VUndef None None None None
         None None None None None None None VUndef None.

Definition default_item_field : renderer :=
  fun key value path required =>
    mbind (uniqueId path) (fun fieldId =>
      ret (renderStringField B fieldId (getLabel key string_schema) string_schema
                             value path required)).

(** [renderField] *)
Fixpoint renderField (s : schema) : renderer :=
  fun key value path required =>
    mbind (uniqueId path) (fun fieldId =>
      let fieldLabel := getLabel key s in
      let props_of (ps : list (string * schema)) : list (string * renderer) :=
      map (fun kp => (fst kp, renderField (snd kp))) ps in
    let variants_of (vs : list schema) : list variant_r :=
      map (fun v => {| vr_schema := v; vr_field := renderField v;
                       vr_props := match properties v with
                                   | Some ps => Some (props_of ps)
                                   | None => None
                                   end |}) vs in
    let item_variants_of (vs : list schema) : list (schema * renderer) :=
      map (fun v => (v, renderField v)) vs in
    let union variants :=
        if forallb (fun v => negb (is_undef (const v))) variants then
          ret (choice_field B fieldId fieldLabel s
                 (map (fun v =>
                         Elem "option" [("value", VStr (String_of B (const v)))]
                              [Text (if opt_truthy (title v)
                                     then match title v with Some t => t | None => "" end
                                     else String_of B (const v))])
                      variants)
                 value path required)
        else renderUnionField fieldId fieldLabel key s (variants_of variants)
                              value path required in
      match anyOf s, oneOf s with
      | Some variants, _ => union variants
      | None, Some variants => union variants
      | None, None =>
          match enum s with
          | Some vs =>
              ret (choice_field B fieldId fieldLabel s
                     (map (fun v => Elem "option" [("value", VStr (String_of B v))]
                                         [Text (String_of B v)]) vs)
                     value path required)
          | None =>
              match schemaType s with
              | Some t =>
                  if String.eqb t "string" then
                    ret (renderStringField B fieldId fieldLabel s value path required)
                  else if String.eqb t "number" || String.eqb t "integer" then
                    ret (renderNumberField B fieldId fieldLabel t s value path required)
                  else if String.eqb t "boolean" then
                    ret (renderBooleanField fieldId fieldLabel s value path required)
                  else if String.eqb t "object" then
                    renderObjectField key s
                      (match properties s with
                       | Some ps => Some (props_of ps)
                       | None => None
                       end)
                      (if truthy value then value else obj []) path required
                  else if String.eqb t "array" then
                    match items s with
                    | Some it =>
                        renderArrayField key s (renderField it)
                          (match anyOf it, oneOf it with
                           | Some vs, _ => Some (item_variants_of vs)
                           | None, Some vs => Some (item_variants_of vs)
                           | None, None => None
                           end)
                          value path required
                    | None =>
                        renderArrayField key s default_item_field None
                                         value path required
                    end
                  else ret (renderTextFallback fieldId fieldLabel s value path required)
              | None =>
                  ret (renderTextFallback fieldId fieldLabel s value path required)
              end
          end
      end).
End Renderer.

(** ** Re-indexing array items *)

Fixpoint string_drop (n : nat) (s : string) : string :=
  match n, s with
  | O, _ => s
  | S k, String _ r => string_drop k r
  | S _, EmptyString => ""
  end.

(** [currentPath.replace(/\[\d+\]/, `[${index}]`)]: the pattern is not global,
    so only the first bracketed index of the path is replaced. *)
Fixpoint replace_first_index (index : string) (s : string) : string :=
  match s with
  | EmptyString => ""
  | String c r =>
      match (if Ascii.eqb c "["%char then bracket_body r else None) with
      | Some ds => "[" ++ index ++ "]" ++ string_drop (S (String.length ds)) r
      | None => String c (replace_first_index index r)
      end
  end.

Fixpoint update_nth {A : Type} (k : nat) (f : A -> A) (l : list A) : list A :=
  match k, l with
  | _, [] => []
  | O, x :: r => f x :: r
  | S k', x :: r => x :: update_nth k' f r
  end.

Section Binder.
Variable B : Builtins.

(** The body of the inner [forEach] of [reindexArrayItems], for one element. *)
Definition repath (index : nat) (el : node) : node :=
  if hasAttribute el "data-path" then
    let currentPath :=
      match getAttribute B el "data-path" with
      | Some p => p
      | None => ""
      end in
    let newPath := replace_first_index (dec index) currentPath in
    let el := setAttribute el "data-path" (VStr newPath) in
    if hasAttribute el "name" then setAttribute el "name" (VStr newPath) else el
  else el.

(** [item.querySelectorAll('[data-path]').forEach(...)]: every descendant
    of the item, not the item itself. *)
Fixpoint repath_descendants (index : nat) (n : node) : node :=
  match n with
  | Text s => Text s
  | Elem t a cs =>
      Elem t a (map (fun c => repath index (repath_descendants index c)) cs)
  end.

Definition reindex_item (index : nat) (item : node) : node :=
  repath_descendants index (setAttribute item "data-index" (VStr (dec index))).

Fixpoint reindex_children (index : nat) (cs : list node) : list node :=
  match cs with
  | [] => []
  | c :: r =>
      if has_class c "schema-array-item"
      then reindex_item index c :: reindex_children (S index) r
      else c :: reindex_children index r
  end.

(** [reindexArrayItems] *)
Definition reindexArrayItems (container : node) : node :=
  match container with
  | Text s => Text s
  | Elem t a cs => Elem t a (reindex_children 0 cs)
  end.

(** *** The listeners of an array field *)

Fixpoint remove_at {A : Type} (k : nat) (l : list A) : list A :=
  match k, l with
  | _, [] => []
  | O, _ :: r => r
  | S k', x :: r => x :: remove_at k' r
  end.

(** The remove button of the child at position [k] of [container]:
    [item.remove(); reindexArrayItems(container)] and a bubbling
    [schema-change] event. *)
Definition onRemoveClick (container : node) (k : nat) : node * list string :=
  match container with
  | Text s => (Text s, [])
  | Elem t a cs =>
      (reindexArrayItems (Elem t a (remove_at k cs)), ["schema-change"])
  end.

Definition append_child (n : node) (c : node) : node :=
  match n with
  | Text s => Text s
  | Elem t a cs => Elem t a (cs ++ [c])%list
  end.

(** [schema.maxItems !== undefined && currentCount >= schema.maxItems] *)
Definition at_capacity (s : schema) (currentCount : nat) : bool :=
  match maxItems s with
  | Some m => num_geb (num_of_nat currentCount) m
  | None => false
  end.

(** [schema.items || { type: 'string' }] *)
Definition itemSchema_of (s : schema) : schema :=
  match items s with Some it => it | None => string_schema end.

(** The item that the add control builds: from the default of the item
    schema, or of the selected variant when the item schema is a union
    ([selected] is [parseInt(variantSelect.value, 10)]), at index
    [currentCount]. *)
Definition new_array_item (s : schema) (path : string) (currentCount : nat)
           (selected : nat) : M node :=
  let itemSchema := itemSchema_of s in
  let itemPath := path ++ "[" ++ dec currentCount ++ "]" in
  match getUnionVariants itemSchema with
  | Some itemVariants =>
      match nth_error itemVariants selected with
      | Some selectedVariant =>
          renderArrayItem (renderField B selectedVariant)
                          (getVariantLabel B selectedVariant selected)
                          (getDefaultValue selectedVariant)
                          itemPath currentCount (Some selected)
      | None => throw
      end
  | None =>
      renderArrayItem (renderField B itemSchema)
                      ("Item " ++ dec (currentCount + 1))
                      (getDefaultValue itemSchema) itemPath currentCount None
  end.

(** The add control of an array field whose captured schema, path and
    container are [s], [path] and [container]: the click listener, with
    the events it dispatches. *)
Definition onAddClick (s : schema) (path : string) (container : node)
           (selected : nat) : M (node * list string) :=
  let currentCount := List.length (array_items container) in
  if at_capacity s currentCount then ret (container, [])
  else
    mbind (new_array_item s path currentCount selected) (fun newItem =>
      ret (reindexArrayItems (append_child container newItem), ["schema-change"])).

(** *** The listeners of a range field *)

(** [numberInput.value = rangeInput.value] *)
Definition onRangeInput (rangeInput numberInput : node) : node * node :=
  (rangeInput, set_value numberInput (el_value B rangeInput)).

(** The [input] listener of the companion number input. *)
Definition onNumberInput (s : schema) (rangeInput numberInput : node) : node * node :=
  let val := parseFloat B (el_value B numberInput) in
  if negb (isNaN val) then
    let val := match minimum s with Some m => Math_max val m | None => val end in
    let val := match maximum s with Some m => Math_min val m | None => val end in
    (set_value rangeInput (String_of B (VNum val)), numberInput)
  else (rangeInput, numberInput).

(** A user edit of a control's text. *)
Definition user_types (el : node) (text : string) : node := set_value el text.

(** ** The data collector *)

Definition is_control (n : node) : bool :=
  (String.eqb (tag_of n) "input" || String.eqb (tag_of n) "select"
   || String.eqb (tag_of n) "textarea")
  && hasAttribute n "data-path" && negb (hasAttribute n "data-union").

(** [form.querySelectorAll('input[data-path]:not([data-union]), ...')] *)
Definition bound_controls (form : node) : list node :=
  filter is_control (descendants form).

Definition is_checkbox (el : node) : bool :=
  String.eqb (tag_of el) "input"
  && match getAttribute B el "type" with
     | Some t => String.eqb t "checkbox"
     | None => false
     end.

(** The value a control contributes. *)
Definition control_value (el : node) : jsvalue :=
  let dataType := getAttribute B el "data-type" in
  if is_checkbox el then VBool (el_checked el)
  else
    match dataType with
    | Some t =>
        if String.eqb t "number" || String.eqb t "integer" then
          if String.eqb (el_value B el) "" then VUndef
          else VNum (Number B (el_value B el))
        else if String.eqb t "boolean" then
          VBool (String.eqb (el_value B el) "true")
        else VStr (el_value B el)
    | None => VStr (el_value B el)
    end.

(** The body of the [forEach] of [collectFormData]. *)
Definition collect_one (data : jsvalue) (el : node) : result jsvalue :=
  let path := match getAttribute B el "data-path" with
              | Some p => p
              | None => ""
              end in
  if negb (nonempty path) then Ok data
  else setValueByPath data path (control_value el).

Fixpoint collect_all (data : jsvalue) (els : list node) : result jsvalue :=
  match els with
  | [] => Ok data
  | el :: r => bind (collect_one data el) (fun data' => collect_all data' r)
  end.

(** [collectFormData] *)
Definition collectFormData (form : node) : result jsvalue :=
  collect_all (obj []) (bound_controls form).

(** ** The component *)

(** Objects handed in by the host or handed out by [getData] live in a
    heap; a reference is an index into it. *)
Definition ref : Type := nat.

Record SchemaForm : Type := {
  _schema : schema;
  _data : ref;
  content : list node;        (* the children of the component element *)
  renderQueued : bool;
  idCounter : nat;
  heap : list jsvalue
}.

Definition deref (h : list jsvalue) (r : ref) : jsvalue := nth r h VUndef.

(** A freshly created component: [_schema = {}], [_data = {}]. *)
Definition new_form : SchemaForm :=
  {| _schema := empty_schema; _data := 0; content := []; renderQueued := false;
     idCounter := 0; heap := [obj []] |}.

(** [set schema(s)] *)
Definition set_schema (s : schema) (c : SchemaForm) : SchemaForm :=
  {| _schema := s; _data := _data c; content := content c; renderQueued := true;
     idCounter := idCounter c; heap := heap c |}.

(** The host creates an object and assigns it: [form.data = d]. *)
Definition set_data (d : jsvalue) (c : SchemaForm) : SchemaForm :=
  {| _schema := _schema c; _data := List.length (heap c); content := content c;
     renderQueued := true; idCounter := idCounter c; heap := (heap c ++ [d])%list |}.

(** The fields of the root: one per declared child, its path the child's
    name ([this.data?.[key]] is the child's value). *)
Fixpoint render_root_props (requiredFields : option (list string)) (data : jsvalue)
         (ps : list (string * schema)) : M (list node) :=
  match ps with
  | [] => ret []
  | (key, propSchema) :: r =>
      mbind (renderField B propSchema key
               (if nullish data then VUndef else prop data key)
               key (includes requiredFields key))
            (fun x => mbind (render_root_props requiredFields data r)
                            (fun xs => ret (x :: xs)))
  end.

(** [render()] *)
Definition render_content (s : schema) (data : jsvalue) : M (list node) :=
  if negb (type_truthy s)
     && negb (match properties s with Some _ => true | None => false end)
  then ret [Elem "div" [("class", VStr "schema-form-empty")] [Text "No schema provided"]]
  else
    let fields :=
      match properties s with
      | Some ps => render_root_props (required s) data ps
      | None =>
          mbind (renderField B s "data" data "data" false) (fun x => ret [x])
      end in
    mbind fields (fun fields =>
      ret [Elem "form" [("class", VStr "schema-form")] fields]).

(** The queued render runs; when it throws the previous content is gone
    ([this.textContent = ''] came first). *)
Definition flush_render (c : SchemaForm) : SchemaForm :=
  if renderQueued c then
    match render_content (_schema c) (deref (heap c) (_data c)) (idCounter c) with
    | Ok (nodes, n) =>
        {| _schema := _schema c; _data := _data c; content := nodes;
           renderQueued := false; idCounter := n; heap := heap c |}
    | TypeError =>
        {| _schema := _schema c; _data := _data c; content := [];
           renderQueued := false; idCounter := idCounter c; heap := heap c |}
    end
  else c.

(** [this.querySelector('form')] *)
Definition query_form (c : SchemaForm) : option node :=
  find (fun n => String.eqb (tag_of n) "form")
       (flat_map (fun n => n :: descendants n) (content c)).

(** [getData()]: the returned reference and the state afterwards. *)
Definition getData (c : SchemaForm) : result (ref * SchemaForm) :=
  match query_form c with
  | None => Ok (_data c, c)
  | Some formEl =>
      bind (collectFormData formEl) (fun data =>
        Ok (List.length (heap c),
            {| _schema := _schema c; _data := _data c; content := content c;
               renderQueued := renderQueued c; idCounter := idCounter c;
               heap := (heap c ++ [data])%list |}))
  end.

(** The host mutates an object it holds: [r.key = v]. *)
Definition host_assign (r : ref) (key : string) (v : jsvalue) (c : SchemaForm)
  : SchemaForm :=
  {| _schema := _schema c; _data := _data c; content := content c;
     renderQueued := renderQueued c; idCounter := idCounter c;
     heap := update_nth r (fun x => match assign x key v with
                                    | Ok x' => x'
                                    | TypeError => x
                                    end) (heap c) |}.
End Binder.

(** ** A host for the examples: decimal integers

    [String], [Number] and [parseFloat] on the integers written in plain
    decimal notation, which is all that the concrete examples use. *)

Definition int_text (z : Z) : string := NilZero.string_of_int (Z.to_int z).

Definition text_int (s : string) : option Z :=
  match NilZero.int_of_string s with
  | Some d => if String.eqb (int_text (Z.of_int d)) s then Some (Z.of_int d) else None
  | None => None
  end.

Definition DecimalHost : Builtins :=
  {| num_to_string := fun n =>
       match n with
       | NaN => "NaN"
       | Num q => match Qred q with
                  | Qmake z 1 => int_text z
                  | Qmake z d => int_text z ++ "/" ++ int_text (Zpos d)
                  end
       end;
     Number := fun s =>
       match s with
       | EmptyString => num_of_Z 0
       | _ => match text_int s with Some z => num_of_Z z | None => NaN end
       end;
     parseFloat := fun s =>
       match text_int s with Some z => num_of_Z z | None => NaN end |}.

(** ** Schema literals for the examples *)

Definition typed (t : string) : schema :=
  Schema (Some (TypeStr t)) None None None None VUndef None None None None
         None None None None None None None VUndef None.

Definition object_of (ps : list (string * schema)) : schema :=
  Schema (Some (TypeStr "object")) (Some ps) None None None VUndef None None None None
         None None None None None None None VUndef None.

Definition array_of (it : schema) : schema :=
  Schema (Some (TypeStr "array")) None (Some it) None None VUndef None None None None
         None None None None None None None VUndef None.

Definition const_of (t : option type_decl) (c : jsvalue) : schema :=
  Schema t None None None None c None None None None
         None None None None None None None VUndef None.

Definition any_of (vs : list schema) : schema :=
  Schema None None None None None VUndef (Some vs) None None None
         None None None None None None None VUndef None.

Definition with_bounds (s : schema) (lo hi : option number) : schema :=
  Schema (type s) (properties s) (items s) (required s) (enum s) (const s)
         (anyOf s) (oneOf s) lo hi (minLength s) (maxLength s) (pattern s)
         (minItems s) (maxItems s) (title s) (description s) (default s) (format s).

Definition with_maxItems (s : schema) (m : number) : schema :=
  Schema (type s) (properties s) (items s) (required s) (enum s) (const s)
         (anyOf s) (oneOf s) (minimum s) (maximum s) (minLength s) (maxLength s)
         (pattern s) (minItems s) (Some m) (title s) (description s) (default s)
         (format s).

Definition with_enum (s : schema) (vs : list jsvalue) : schema :=
  Schema (type s) (properties s) (items s) (required s) (Some vs) (const s)
         (anyOf s) (oneOf s) (minimum s) (maximum s) (minLength s) (maxLength s)
         (pattern s) (minItems s) (maxItems s) (title s) (description s) (default s)
         (format s).

Definition with_title (s : schema) (t : string) : schema :=
  Schema (type s) (properties s) (items s) (required s) (enum s) (const s)
         (anyOf s) (oneOf s) (minimum s) (maximum s) (minLength s) (maxLength s)
         (pattern s) (minItems s) (maxItems s) (Some t) (description s) (default s)
         (format s).

(** A component with schema [s], data [d], rendered. *)
Definition mounted (B : Builtins) (s : schema) (d : jsvalue) : SchemaForm :=
  flush_render B (set_data d (set_schema s new_form)).

(** The value that [getData()] hands out. *)
Definition getData_value (B : Builtins) (c : SchemaForm) : result jsvalue :=
  bind (getData B c) (fun rc => Ok (deref (heap (snd rc)) (fst rc))).

(** The discriminator example of the test suite: Product / Service. *)
Definition product_variant : schema :=
  with_title (object_of [("type", const_of (Some (TypeStr "string")) (VStr "product"));
                         ("name", typed "string"); ("price", typed "number")])
             "Product".

Definition service_variant : schema :=
  with_title (object_of [("type", const_of (Some (TypeStr "string")) (VStr "service"));
                         ("name", typed "string"); ("hourlyRate", typed "number")])
             "Service".

Definition consulting : jsvalue :=
  obj [("type", VStr "service"); ("name", VStr "Consulting");
       ("hourlyRate", VNum (num_of_Z 150))].

Definition tagged (tag : string) : schema :=
  object_of [("type", const_of (Some (TypeStr "string")) (VStr tag));
             ("name", typed "string")].

(** ** Acting on a node inside the document *)

(** The node reached by following child positions [p] is replaced by its
    image under [f]. *)
Fixpoint apply_at (p : list nat) (f : node -> node) (n : node) : node :=
  match p with
  | [] => f n
  | k :: p' =>
      match n with
      | Elem t a cs => Elem t a (update_nth k (apply_at p' f) cs)
      | Text s => Text s
      end
  end.

Fixpoint node_at (p : list nat) (n : node) : option node :=
  match p with
  | [] => Some n
  | k :: p' =>
      match nth_error (children_of n) k with
      | Some c => node_at p' c
      | None => None
      end
  end.

(** The same inside a mounted component, from its form element. *)
Definition in_form (p : list nat) (f : node -> node) (c : SchemaForm) : SchemaForm :=
  {| _schema := _schema c; _data := _data c;
     content := map (apply_at p f) (content c);
     renderQueued := renderQueued c; idCounter := idCounter c; heap := heap c |}.

(** The input elements below a node, in document order. *)
Definition inputs_of (n : node) : list node :=
  filter (fun c => String.eqb (tag_of c) "input") (descendants n).

(** A number brought within the declared bounds of a schema, lower bound
    first, as the number listener does. *)
Definition clamp (s : schema) (v : number) : number :=
  let v := match minimum s with Some m => Math_max v m | None => v end in
  match maximum s with Some m => Math_min v m | None => v end.

(** Schemas and data of the examples. *)
Definition list_schema : schema := object_of [("list", array_of (typed "string"))].
Definition abcd : jsvalue :=
  obj [("list", arr [VStr "A"; VStr "B"; VStr "C"; VStr "D"])].

Definition grid_schema : schema :=
  object_of [("m", array_of (array_of (typed "string")))].
Definition grid : jsvalue :=
  obj [("m", arr [arr [VStr "a"; VStr "b"]; arr [VStr "c"; VStr "d"]])].

Definition age_schema : schema :=
  with_bounds (typed "integer") (Some (num_of_Z 0)) (Some (num_of_Z 120)).
Definition amount_schema : schema :=
  with_bounds (typed "number") (Some (num_of_Z 0)) None.

Definition fixed_kind_schema : schema :=
  object_of [("kind", const_of (Some (TypeStr "string")) (VStr "fixed"))].

(** ** Well-formed paths and data *)

Fixpoint has_char (c : ascii) (s : string) : bool :=
  match s with
  | EmptyString => false
  | String x r => Ascii.eqb x c || has_char c r
  end.

(** A property name that survives the path encoding: not empty, free of "."
    and "[", and not a run of digits. *)
Definition safe_key (k : string) : bool :=
  nonempty k && negb (has_char "."%char k) && negb (has_char "["%char k)
  && negb (all_digits k).

(** The walk of [setValueByPath] meets no primitive: every value that exists
    on the way is [null], [undefined] or a container. *)
Fixpoint clear_path (current : jsvalue) (parts : list string) : bool :=
  match parts with
  | [] => true
  | part :: rest =>
      match current with
      | VObj _ d =>
          match rest with
          | [] => true
          | _ :: _ =>
              match get part d with
              | Some child => if nullish child then true else clear_path child rest
              | None => true
              end
          end
      | _ => false
      end
  end.

Definition is_container (v : jsvalue) : bool :=
  match v with VObj _ _ => true | _ => false end.

(** ** Conforming data and deep equality *)

(** The same number. *)
Definition num_same (a b : number) : bool :=
  match a, b with
  | NaN, NaN => true
  | Num x, Num y => Z.eqb (Qnum x) (Qnum y) && Pos.eqb (Qden x) (Qden y)
  | _, _ => false
  end.

Fixpoint nodupb (l : list string) : bool :=
  match l with
  | [] => true
  | x :: r => negb (existsb (String.eqb x) r) && nodupb r
  end.

Definition nonnil {A : Type} (l : list A) : bool :=
  match l with [] => false | _ => true end.

(** Deep equality of two values: objects and arrays are compared as
    dictionaries, whatever the order in which their keys were written. *)
Fixpoint deep_equal (a b : jsvalue) : bool :=
  match a, b with
  | VUndef, VUndef => true
  | VNull, VNull => true
  | VBool x, VBool y => Bool.eqb x y
  | VNum NaN, VNum NaN => true
  | VNum x, VNum y => num_eqb x y
  | VStr x, VStr y => String.eqb x y
  | VObj ia da, VObj ib db =>
      Bool.eqb ia ib && Nat.eqb (List.length da) (List.length db)
      && nodupb (keys da)
      && (fix each (da : list (string * jsvalue)) : bool :=
            match da with
            | [] => true
            | (k, x) :: r =>
                match get k db with
                | Some y => deep_equal x y
                | None => false
                end && each r
            end) da
  | _, _ => false
  end.

(** The elements of an array without holes, from index [i] on, pass [ok]. *)
Fixpoint items_conform (ok : jsvalue -> bool) (i : nat) (d : list (string * jsvalue))
  : bool :=
  match d with
  | [] => true
  | (k, v) :: r => String.eqb k (dec i) && ok v && items_conform ok (S i) r
  end.

Section Conformance.
Variable B : Builtins.

(** Data that a union-free schema node describes and that the form can hold:
    - an enum node: a string that is the text of one of the enum values;
    - [string]: a string; [boolean]: a boolean;
    - [number]/[integer]: a number that the host prints to a non-empty text
      and reads back as the same number;
    - [object]: at least one declared child, the declared names distinct and
      safe for the path encoding, and the data an object with exactly the
      declared keys, each child conforming;
    - [array]: a non-empty array without holes whose elements conform to the
      item schema (strings when [items] is absent). *)
Fixpoint conforms (s : schema) (D : jsvalue) : bool :=
  match anyOf s, oneOf s with
  | None, None =>
      match enum s with
      | Some vs =>
          match D with
          | VStr str => existsb (fun v => String.eqb (String_of B v) str) vs
          | _ => false
          end
      | None =>
          match schemaType s with
          | Some t =>
              if String.eqb t "string" then
                match D with VStr _ => true | _ => false end
              else if String.eqb t "number" || String.eqb t "integer" then
                match D with
                | VNum n => num_same (Number B (num_to_string B n)) n
                            && nonempty (num_to_string B n)
                | _ => false
                end
              else if String.eqb t "boolean" then
                match D with VBool _ => true | _ => false end
              else if String.eqb t "object" then
                match properties s, D with
                | Some ps, VObj false d =>
                    nonnil ps && Nat.eqb (List.length d) (List.length ps)
                    && nodupb (keys ps)
                    && forallb (fun kp =>
                                  safe_key (fst kp)
                                  && match get (fst kp) d with
                                     | Some v => conforms (snd kp) v
                                     | None => false
                                     end) ps
                | _, _ => false
                end
              else if String.eqb t "array" then
                match D with
                | VObj true d =>
                    nonnil d
                    && items_conform
                         (fun v => match items s with
                                   | Some it => conforms it v
                                   | None => match v with VStr _ => true | _ => false end
                                   end) 0 d
                | _ => false
                end
              else false
          | None => false
          end
      end
  | _, _ => false
  end.

(** The root: a schema with declared children and a data object with exactly
    those keys. *)
Definition conforms_root (s : schema) (D : jsvalue) : bool :=
  match properties s, D with
  | Some ps, VObj false d =>
      nonnil ps && Nat.eqb (List.length d) (List.length ps) && nodupb (keys ps)
      && forallb (fun kp =>
                    safe_key (fst kp)
                    && match get (fst kp) d with
                       | Some v => conforms (snd kp) v
                       | None => false
                       end) ps
  | _, _ => false
  end.
End Conformance.

(** The data with the keys of every object in the order of the schema: what
    the collector assembles. *)
Fixpoint canon (s : schema) (D : jsvalue) : jsvalue :=
  match enum s with
  | Some _ => D
  | None =>
      match schemaType s with
      | Some t =>
          if String.eqb t "object" then
            match properties s with
            | Some ps => VObj false (map (fun kp => (fst kp, canon (snd kp) (prop D (fst kp)))) ps)
            | None => D
            end
          else if String.eqb t "array" then
            match D, items s with
            | VObj true d, Some it => VObj true (map (fun kv => (fst kv, canon it (snd kv))) d)
            | _, _ => D
            end
          else D
      | None => D
      end
  end.

Definition canon_root (s : schema) (D : jsvalue) : jsvalue :=
  match properties s with
  | Some ps => VObj false (map (fun kp => (fst kp, canon (snd kp) (prop D (fst kp)))) ps)
  | None => D
  end.

(** The bound controls at or below a node, in document order. *)
Definition controls_in (n : node) : list node :=
  filter is_control (n :: descendants n).

(** [el.dataset.path || ''] *)
Definition data_path (B : Builtins) (el : node) : string :=
  match getAttribute B el "data-path" with
  | Some p => p
  | None => ""
  end.

(** The path writes that the collector performs for a list of controls. *)
Definition writes (B : Builtins) (els : list node) : list (list string * jsvalue) :=
  map (fun el => (path_parts (data_path B el), control_value B el)) els.

(** The leaves of a value with their relative paths, in order. *)
Fixpoint flatten (v : jsvalue) : list (list string * jsvalue) :=
  match v with
  | VObj _ d =>
      flat_map (fun kx => map (fun w => (fst kx :: fst w, snd w)) (flatten (snd kx))) d
  | _ => [([], v)]
  end.

(** A sequence of path writes. *)
Fixpoint run (data : jsvalue) (ws : list (list string * jsvalue)) : result jsvalue :=
  match ws with
  | [] => Ok data
  | w :: r => bind (walk data (fst w) (snd w)) (fun data' => run data' r)
  end.

(** A value whose containers are not empty, have distinct keys, and are
    arrays exactly when their keys are numeric. *)
Fixpoint well_formed (v : jsvalue) : bool :=
  match v with
  | VObj a d =>
      nonnil d && nodupb (keys d)
      && forallb (fun kx => Bool.eqb (is_numeric (fst kx)) a && well_formed (snd kx)) d
  | _ => true
  end.

(** ** The const branch of the blueprint copy of [renderField] *)

Module BlueprintConst.
Section WithHost.
Variable B : Builtins.

Definition constType (c : jsvalue) : string :=
  match c with
  | VNum n => if Number_isInteger n then "integer" else "number"
  | _ => typeof c
  end.

(** [if (schema.const !== undefined) { ... }] *)
Definition renderConstField (fieldId fieldLabel : string) (s : schema)
           (path : string) (required : bool) : node :=
  Elem "div" [("class", VStr "schema-field schema-field-const")]
       [label_for fieldId fieldLabel required; description_line s;
        Elem "input"
             [("type", VStr "hidden"); ("id", VStr fieldId); ("name", VStr path);
              ("value", VStr (String_of B (const s))); ("data-path", VStr path);
              ("data-type", VStr (constType (const s))); ("data-const", VStr "true")] [];
        Elem "span" [("class", VStr "schema-const-value")]
             [Text (String_of B (const s))]].
End WithHost.
End BlueprintConst.

(** A field renderer, given the data [D], produces controls whose writes are
    [ws], each below the path of the field. *)
Definition field_writes (B : Builtins) (r : renderer) (D : jsvalue)
           (ws : list (list string * jsvalue)) : Prop :=
  forall key P required n,
    P <> "" ->
    exists node n',
      r key D P required n = Ok (node, n')
      /\ Forall (fun el => data_path B el <> "") (controls_in node)
      /\ writes B (controls_in node)
         = map (fun w => ((path_parts P ++ fst w)%list, snd w)) ws.

(** ** Auxiliary notions of the proofs *)

(** A string that cannot continue a bracketed index: empty, or starting with
    a character that is neither a digit nor "]". *)
Definition breaks_index (s : string) : Prop :=
  match s with
  | EmptyString => True
  | String c _ => is_digit c = false /\ Ascii.eqb c "]"%char = false
  end.

(** The write [w] moved below the key [k]. *)
Definition under (k : string) (w : list string * jsvalue) : list string * jsvalue :=
  (k :: fst w, snd w).

(** A customer record with a nested object and an array of objects. *)
Definition customer_schema : schema :=
  object_of [("name", typed "string"); ("age", typed "integer");
             ("active", typed "boolean");
             ("address", object_of [("city", typed "string"); ("zip", typed "string")]);
             ("orders", array_of (object_of [("item", typed "string");
                                             ("count", typed "number")]))].

Definition customer : jsvalue :=
  obj [("name", VStr "Ada"); ("age", VNum (num_of_Z 36)); ("active", VBool true);
       ("address", obj [("city", VStr "London"); ("zip", VStr "N1")]);
       ("orders", arr [obj [("item", VStr "pen"); ("count", VNum (num_of_Z 2))];
                       obj [("item", VStr "ink"); ("count", VNum (num_of_Z 1))]])].

(** ** Auxiliary notions for the further properties *)

(** Every character of [s] passes [p]. *)
Fixpoint all_chars (p : ascii -> bool) (s : string) : bool :=
  match s with
  | EmptyString => true
  | String c r => p c && all_chars p r
  end.

(** A letter or a digit. *)
Definition is_alnum (c : ascii) : bool := is_upper c || is_lower c || is_digit c.

(** The test that [detectVariant] applies to each variant in turn. *)
Definition variant_matches (value : jsvalue) (v : schema) : bool :=
  const_match value v || type_match value v.

(** A renderer that takes at least one fresh id whenever it returns. *)
Definition counter_grows (r : renderer) : Prop :=
  forall key value path required n node n',
    r key value path required n = Ok (node, n') -> n < n'.

(** The text that the renderer appends to the path of a field for the
    segments of a descendant: [[i]] for an array index, [.key] for a
    property. *)
Fixpoint enc (parts : list string) : string :=
  match parts with
  | [] => ""
  | p :: r => (if is_numeric p then "[" ++ p ++ "]" else "." ++ p) ++ enc r
  end.

(** The bindings of a list of controls: the text of their [data-path] and the
    value they contribute. *)
Definition raw_writes (B : Builtins) (els : list node) : list (string * jsvalue) :=
  map (fun el => (data_path B el, control_value B el)) els.

(** A field renderer, given the data [D], produces controls bound to the
    paths [P ++ enc parts] for the leaves [ws] of the data. *)
Definition raw_field_writes (B : Builtins) (r : renderer) (D : jsvalue)
           (ws : list (list string * jsvalue)) : Prop :=
  forall key P required n,
    exists node n',
      r key D P required n = Ok (node, n')
      /\ raw_writes B (controls_in node)
         = map (fun w => (P ++ enc (fst w), snd w)) ws.

(** What [reindexArrayItems] does to a descendant of an item: its own
    descendants first, then the element itself. *)
Definition repath_all (B : Builtins) (index : nat) (n : node) : node :=
  repath B index (repath_descendants B index n).

(** What a select reads of an option. *)
Definition opt_view (c : node) : string * option jsvalue * option jsvalue :=
  (tag_of c, get "selected" (attrs_of c), get "value" (attrs_of c)).

(** An array item rendered for the element [x] at index [i] of the array at
    path [P]: its controls are bound below [P[i]]. *)
Definition item_bound (B : Builtins) (P : string) (canon_item : jsvalue -> jsvalue)
           (item : node) (ix : nat * jsvalue) : Prop :=
  tag_of item = "div"
  /\ has_class item "schema-array-item" = true
  /\ raw_writes B (controls_in item)
     = map (fun w => ((P ++ "[" ++ dec (fst ix) ++ "]") ++ enc (fst w), snd w))
           (flatten (canon_item (snd ix))).

(** A click on the add control of the array field whose items container is
    the node at position [p] of the form.  The listener was created by
    [renderArrayField] with the field's schema [sa] and path; it runs with
    the id counter of the page, and its container takes the place of the
    old one. *)
Definition click_add (B : Builtins) (sa : schema) (path : string) (p : list nat)
           (selected : nat) (c : SchemaForm) : result SchemaForm :=
  match content c with
  | [form] =>
      match node_at p form with
      | Some container =>
          match onAddClick B sa path container selected (idCounter c) with
          | Ok ((container', _), n') =>
              Ok {| _schema := _schema c; _data := _data c;
                    content := [apply_at p (fun _ => container') form];
                    renderQueued := renderQueued c; idCounter := n'; heap := heap c |}
          | TypeError => TypeError
          end
      | None => Ok c
      end
  | _ => Ok c
  end.

(** ** Built-in members *)

(** The names that arrays, strings, numbers and booleans have built in or
    inherit, beside those of [Object.prototype]. *)
Definition array_member_keys : list string :=
  ["length"; "at"; "concat"; "copyWithin"; "entries"; "every"; "fill"; "filter";
   "find"; "findIndex"; "findLast"; "findLastIndex"; "flat"; "flatMap"; "forEach";
   "group"; "groupToMap"; "includes"; "indexOf"; "join"; "keys"; "lastIndexOf";
   "map"; "pop"; "push"; "reduce"; "reduceRight"; "reverse"; "shift"; "slice";
   "some"; "sort"; "splice"; "toReversed"; "toSorted"; "toSpliced"; "unshift";
   "values"; "with"].

Definition string_member_keys : list string :=
  ["length"; "at"; "anchor"; "big"; "blink"; "bold"; "charAt"; "charCodeAt";
   "codePointAt"; "concat"; "endsWith"; "fixed"; "fontcolor"; "fontsize";
   "includes"; "indexOf"; "isWellFormed"; "italics"; "lastIndexOf"; "link";
   "localeCompare"; "match"; "matchAll"; "normalize"; "padEnd"; "padStart";
   "repeat"; "replace"; "replaceAll"; "search"; "slice"; "small"; "split";
   "strike"; "sub"; "substr"; "substring"; "sup"; "startsWith";
   "toLocaleLowerCase"; "toLocaleUpperCase"; "toLowerCase"; "toUpperCase";
   "toWellFormed"; "trim"; "trimEnd"; "trimLeft"; "trimRight"; "trimStart"].

Definition number_member_keys : list string :=
  ["toExponential"; "toFixed"; "toPrecision"].

(** A name that no value of the data model has built in or inherits. *)
Definition ordinary_key (k : string) : bool :=
  negb (existsb (String.eqb k)
                (object_prototype_keys ++ array_member_keys ++ string_member_keys
                 ++ number_member_keys)%list).

(** [v[k]] (and [v?.[k]]) is the own property [k] of [v], or [undefined]:
    the name is an own key, or [v] has no member of that name. *)
Definition reads_own (v : jsvalue) (k : string) : bool :=
  match v with
  | VUndef | VNull => true
  | VObj false d => has k d || negb (inherited k)
  | VObj true d => has k d || ordinary_key k
  | VStr _ => ordinary_key k && negb (is_numeric k)
  | VBool _ | VNum _ => ordinary_key k
  end.

(** No property name that the schema declares, at any depth, is the name of
    a member that plain objects inherit. *)
Fixpoint plain_names (s : schema) : bool :=
  match properties s with
  | Some ps => forallb (fun kp => negb (inherited (fst kp)) && plain_names (snd kp)) ps
  | None => true
  end
  && match items s with
     | Some it => plain_names it
     | None => true
     end.

(** ** The text that a control keeps

    Assigning a text to a control of a browser stores the text after the
    value sanitization of the control's type.  The following tests say, for
    the controls that the renderer builds, when the stored text is the
    assigned one. *)

Definition is_line_break (c : ascii) : bool :=
  let n := nat_of_ascii c in Nat.eqb n 10 || Nat.eqb n 13.

(** A visible ASCII character: neither a control character, nor a space, nor
    part of a character beyond ASCII. *)
Definition is_visible (c : ascii) : bool :=
  let n := nat_of_ascii c in Nat.leb 33 n && Nat.leb n 126.

Fixpoint any_char (p : ascii -> bool) (s : string) : bool :=
  match s with
  | EmptyString => false
  | String c r => p c || any_char p r
  end.

Fixpoint last_char (s : string) : option ascii :=
  match s with
  | EmptyString => None
  | String c EmptyString => Some c
  | String _ r => last_char r
  end.

(** The text may start or end with white space: its first or its last
    character is not a visible ASCII character. *)
Definition untrimmed (s : string) : bool :=
  match s with
  | EmptyString => false
  | String c _ =>
      negb (is_visible c)
      || match last_char s with Some l => negb (is_visible l) | None => false end
  end.

(** The leading digits of a text and what follows them. *)
Fixpoint span_digits (s : string) : string * string :=
  match s with
  | EmptyString => ("", "")
  | String c r =>
      if is_digit c then let (ds, rest) := span_digits r in (String c ds, rest)
      else ("", s)
  end.

(** An optional exponent: "e", an optional sign, one or two digits. *)
Definition exponent_ok (s : string) : bool :=
  match s with
  | EmptyString => true
  | String c r =>
      Ascii.eqb c "e"%char
      && let r' := match r with
                   | String sg r0 =>
                       if Ascii.eqb sg "-"%char || Ascii.eqb sg "+"%char then r0 else r
                   | EmptyString => r
                   end in
         let (ds, rest) := span_digits r' in
         nonempty ds && Nat.leb (String.length ds) 2 && negb (nonempty rest)
  end.

(** The text of a number as [String(n)] writes it, which is a valid
    floating-point number of HTML: an optional "-", digits, an optional
    fraction, and an optional exponent of at most two digits; at most 24
    characters. *)
Definition number_text (s : string) : bool :=
  Nat.leb (String.length s) 24
  && let s1 := match s with
               | String c r => if Ascii.eqb c "-"%char then r else s
               | EmptyString => s
               end in
     let (int, r1) := span_digits s1 in
     nonempty int
     && match r1 with
        | String c r2 =>
            if Ascii.eqb c "."%char then
              let (frac, r3) := span_digits r2 in nonempty frac && exponent_ok r3
            else exponent_ok r1
        | EmptyString => true
        end.

Fixpoint digits_value (acc : Z) (s : string) : Z :=
  match s with
  | EmptyString => acc
  | String c r => digits_value (10 * acc + Z.of_nat (nat_of_ascii c - 48))%Z r
  end.

(** The integer that a text denotes in its shortest decimal notation (no
    sign for zero, no leading zero, at most 15 digits). *)
Definition canonical_int (s : string) : option Z :=
  let (neg, ds) := match s with
                   | String c r => if Ascii.eqb c "-"%char then (true, r) else (false, s)
                   | EmptyString => (false, s)
                   end in
  if is_numeric ds && Nat.leb (String.length ds) 15
     && match ds with
        | String c r => negb (Ascii.eqb c "0"%char) || (negb (nonempty r) && negb neg)
        | EmptyString => false
        end
  then Some (if neg then (- digits_value 0 ds)%Z else digits_value 0 ds)
  else None.

(** The kinds of control: the type of an input, "textarea", "select". *)
Definition kept_by (kind : string) (text : string) : bool :=
  if String.eqb kind "text" || String.eqb kind "search" || String.eqb kind "tel"
     || String.eqb kind "password"
  then negb (any_char is_line_break text)
  else if String.eqb kind "email" || String.eqb kind "url"
  then negb (any_char is_line_break text) && negb (untrimmed text)
  else if String.eqb kind "textarea"
  then negb (any_char (fun c => Nat.eqb (nat_of_ascii c) 13) text)
  else if String.eqb kind "date" || String.eqb kind "time"
          || String.eqb kind "datetime-local"
  then negb (nonempty text)
  else if String.eqb kind "number"
  then negb (nonempty text) || number_text text
  else String.eqb kind "hidden" || String.eqb kind "checkbox"
       || String.eqb kind "select".

(** [maxLength > 200]: the string field is a textarea. *)
Definition string_control_kind (s : schema) : string :=
  if match maxLength s with
     | Some m => truthy (VNum m) && num_gtb m (num_of_nat 200)
     | None => false
     end
  then "textarea" else inputType_of s.

Section Keeping.
Variable B : Builtins.

Definition control_kind (el : node) : string :=
  if String.eqb (tag_of el) "input" then
    match getAttribute B el "type" with
    | Some t => t
    | None => "text"
    end
  else tag_of el.

(** A slider keeps an integer within its integer bounds that lies on one of
    its steps, counted from the lower bound. *)
Definition range_keeps (el : node) : bool :=
  match getAttribute B el "min", getAttribute B el "max", getAttribute B el "step" with
  | Some lo, Some hi, Some st =>
      match canonical_int lo, canonical_int hi, canonical_int st,
            canonical_int (el_value B el) with
      | Some lo, Some hi, Some st, Some v =>
          (Z.leb lo v && Z.leb v hi && Z.ltb 0 st
           && Z.eqb ((v - lo) mod st) 0)%Z
      | _, _, _, _ => false
      end
  | _, _, _ => false
  end.

(** The control holds the text that it was last assigned. *)
Definition keeps_text (el : node) : bool :=
  if String.eqb (control_kind el) "range" then range_keeps el
  else kept_by (control_kind el) (el_value B el).

(** Every bound control of the component keeps its text. *)
Definition form_keeps (c : SchemaForm) : bool :=
  forallb (fun n => forallb keeps_text (controls_in n)) (content c).
End Keeping.

(** ** The item that the add control appends *)


(** * Properties *)

(** ** Variant detection *)

Lemma detectVariant_nullish (value : jsvalue) (variants : list schema) :
  nullish value = true -> detectVariant value variants = 0.
Proof. intros H. unfold detectVariant. now rewrite H. Qed.

Lemma first_index_bounds (test : schema -> bool) (variants : list schema) :
  forall i j, first_index test i variants = Some j ->
              i <= j < i + List.length variants.
Proof.
  induction variants as [|v r IH]; intros i j H; simpl in H.
  - discriminate.
  - destruct (test v).
    + injection H as <-. simpl. lia.
    + apply IH in H. simpl. lia.
Qed.

Lemma first_index_none (test : schema -> bool) (variants : list schema) (i : nat) :
  forallb (fun v => negb (test v)) variants = true ->
  first_index test i variants = None.
Proof.
  revert i. induction variants as [|v r IH]; intros i H; simpl in *.
  - reflexivity.
  - apply andb_prop in H as [Hv Hr]. apply negb_true_iff in Hv. rewrite Hv.
    now apply IH.
Qed.

Lemma first_index_app (test : schema -> bool) (earlier : list schema) (v : schema)
      (rest : list schema) (i : nat) :
  forallb (fun e => negb (test e)) earlier = true ->
  test v = true ->
  first_index test i (earlier ++ v :: rest)%list = Some (i + List.length earlier).
Proof.
  revert i. induction earlier as [|e r IH]; intros i He Hv; simpl in *.
  - rewrite Hv. f_equal. lia.
  - apply andb_prop in He as [He Hr]. apply negb_true_iff in He. rewrite He.
    rewrite IH by assumption. f_equal. lia.
Qed.

(** The detected index always names a candidate (when there is one). *)
Lemma detectVariant_in_range (value : jsvalue) (variants : list schema) :
  variants <> [] -> detectVariant value variants < List.length variants.
Proof.
  intros Hne. unfold detectVariant.
  assert (0 < List.length variants) by (destruct variants; [congruence | simpl; lia]).
  destruct (nullish value); [assumption|].
  destruct (first_index _ 0 variants) eqn:E; [|assumption].
  apply first_index_bounds in E. lia.
Qed.

(** No candidate matches: index 0. *)
Lemma detectVariant_no_match (value : jsvalue) (variants : list schema) :
  forallb (fun v => negb (const_match value v || type_match value v)) variants = true ->
  detectVariant value variants = 0.
Proof.
  intros H. unfold detectVariant. destruct (nullish value); [reflexivity|].
  now rewrite (first_index_none _ _ 0 H).
Qed.

(** The blueprint copy does run the const pass first: a variant whose const
    equals the value wins over every type match, wherever it stands. *)
Lemma blueprint_const_pass_first (value : jsvalue) (earlier : list schema)
      (v : schema) (rest : list schema) :
  nullish value = false ->
  forallb (fun e => negb (const_match value e)) earlier = true ->
  const_match value v = true ->
  Blueprint.detectVariant value (earlier ++ v :: rest)%list = List.length earlier.
Proof.
  intros Hn He Hv. unfold Blueprint.detectVariant. rewrite Hn.
  now rewrite (first_index_app (const_match value) earlier v rest 0 He Hv).
Qed.

(** The discriminator example of the test suite: Product / Service. *)
Lemma detectVariant_service_example :
  detectVariant consulting [product_variant; service_variant] = 1
  /\ Blueprint.detectVariant consulting [product_variant; service_variant] = 1.
Proof. split; reflexivity. Qed.

(** C2 (code defect).  The claim: a variant whose literal const strictly
    equals the value wins whatever its position, even when an earlier variant
    matches the value by type.  [detectVariant] of [schema-form.ts] runs a
    single loop, so for the value "a" and the candidates
    [{type:'string'}, {const:'a'}] it answers 0 although candidate 1 has the
    equal const; the blueprint copy of the function answers 1. *)
Theorem C2_const_match_loses_to_earlier_type_match :
  let variants := [typed "string"; const_of None (VStr "a")] in
  const_match (VStr "a") (const_of None (VStr "a")) = true
  /\ detectVariant (VStr "a") variants = 0
  /\ Blueprint.detectVariant (VStr "a") variants = 1.
Proof. repeat split; reflexivity. Qed.

(** C10.  An object variant is not eliminated by a discriminator mismatch:
    whenever the value is a plain object in which every declared child name
    of the variant is a key ([k in value]: an own key, or a name that every
    object inherits), and no earlier candidate matches, the variant is
    selected, whatever its discriminator consts say and whatever candidates
    follow it (a later candidate whose discriminator does match included). *)
Theorem C10_discriminator_mismatch_keeps_variant
        (d : list (string * jsvalue)) (variant : schema)
        (ps : list (string * schema)) (earlier rest : list schema) :
  schemaType variant = Some "object" ->
  properties variant = Some ps ->
  discriminator_hit (VObj false d) ps = false ->
  forallb (fun k => in_object k d) (keys ps) = true ->
  forallb (fun e => negb (const_match (VObj false d) e || type_match (VObj false d) e))
          earlier = true ->
  detectVariant (VObj false d) (earlier ++ variant :: rest)%list = List.length earlier.
Proof.
  intros Ht Hp _ Hk He. unfold detectVariant. simpl nullish. cbv iota.
  rewrite (first_index_app _ earlier variant rest 0 He); [reflexivity|].
  apply orb_true_iff. right. unfold type_match. rewrite Ht, Hp. simpl.
  apply orb_true_iff. right. unfold all_keys_present.
  apply Nat.eqb_eq. f_equal.
  clear -Hk. induction (keys ps) as [|k r IH]; simpl in *; [reflexivity|].
  apply andb_prop in Hk as [Hk Hr]. rewrite Hk. f_equal. now apply IH.
Qed.

(** A variant tagged "product" with children [type] and [name] is chosen for
    a value tagged "service", although the next variant carries the matching
    tag. *)
Lemma C10_witness :
  discriminator_hit (obj [("type", VStr "service"); ("name", VStr "n")])
                    [("type", const_of (Some (TypeStr "string")) (VStr "product"));
                     ("name", typed "string")] = false
  /\ discriminator_hit (obj [("type", VStr "service"); ("name", VStr "n")])
                       [("type", const_of (Some (TypeStr "string")) (VStr "service"));
                        ("name", typed "string")] = true
  /\ detectVariant (obj [("type", VStr "service"); ("name", VStr "n")])
                   ([] ++ tagged "product" :: [tagged "service"])%list = 0.
Proof.
  split; [reflexivity|]. split; [reflexivity|].
  apply (C10_discriminator_mismatch_keeps_variant
           [("type", VStr "service"); ("name", VStr "n")] (tagged "product")
           [("type", const_of (Some (TypeStr "string")) (VStr "product"));
            ("name", typed "string")] [] [tagged "service"]);
    reflexivity.
Defined.

(** ** Dictionaries *)

Lemma get_set_same {A : Type} (k : string) (v : A) (d : list (string * A)) :
  get k (set k v d) = Some v.
Proof.
  induction d as [|[k' v'] r IH]; simpl.
  - now rewrite String.eqb_refl.
  - destruct (String.eqb k k') eqn:E; simpl.
    + now rewrite String.eqb_refl.
    + now rewrite E.
Qed.

Lemma get_set_other {A : Type} (k k' : string) (v : A) (d : list (string * A)) :
  k <> k' -> get k (set k' v d) = get k d.
Proof.
  intros Hne. induction d as [|[k2 v2] r IH]; simpl.
  - apply String.eqb_neq in Hne. now rewrite Hne.
  - destruct (String.eqb k' k2) eqn:E; simpl.
    + apply String.eqb_eq in E. subst k2.
      apply String.eqb_neq in Hne. now rewrite Hne.
    + now rewrite IH.
Qed.

(** ** Array re-indexing *)

(** The test-suite scenario on a top-level array: after removing index 1 of
    [A, B, C, D] the collector sees [A, C, D], and an edit of what is now
    index 1 changes that element only. *)
Lemma reindex_top_level_example :
  let c0 := mounted DecimalHost list_schema abcd in
  let c1 := in_form [0; 2] (fun n => fst (onRemoveClick DecimalHost n 1)) c0 in
  let c2 := in_form [0; 2; 1; 1; 2] (fun n => user_types n "X") c1 in
  getData_value DecimalHost c1
  = Ok (obj [("list", arr [VStr "A"; VStr "C"; VStr "D"])])
  /\ getData_value DecimalHost c2
     = Ok (obj [("list", arr [VStr "A"; VStr "X"; VStr "D"])]).
Proof. split; vm_compute; reflexivity. Qed.

(** C3 (code defect).  The claim: after a removal every descendant path has
    the array-index segment of its item rewritten to the item's new index,
    also for paths with more than one index segment.  [reindexArrayItems]
    replaces the first bracketed index of each path, which for an array
    nested in an array item is the index of the outer item.  For the data
    [[a, b], [c, d]] under [m], removing [m[1][0]] leaves "d" bound to
    [m[0][1]] instead of [m[1][0]]; the collector then returns [[a, d]]
    where [[a, b], [d]] is on screen. *)
Theorem C3_nested_removal_rewrites_outer_index :
  let c0 := mounted DecimalHost grid_schema grid in
  let c1 := in_form [0; 2; 1; 1; 2] (fun n => fst (onRemoveClick DecimalHost n 0)) c0 in
  getData_value DecimalHost c0 = Ok grid
  /\ map (fun el => getAttribute DecimalHost el "data-path")
         (flat_map bound_controls (content c0))
     = [Some "m[0][0]"; Some "m[0][1]"; Some "m[1][0]"; Some "m[1][1]"]
  /\ map (fun el => (getAttribute DecimalHost el "data-path",
                     getAttribute DecimalHost el "name", el_value DecimalHost el))
         (flat_map bound_controls (content c1))
     = [(Some "m[0][0]", Some "m[0][0]", "a"); (Some "m[0][1]", Some "m[0][1]", "b");
        (Some "m[0][1]", Some "m[0][1]", "d")]
  /\ getData_value DecimalHost c1 = Ok (obj [("m", arr [arr [VStr "a"; VStr "d"]])]).
Proof. repeat split; vm_compute; reflexivity. Qed.

(** ** The data collector *)

(** An empty numeric control writes [undefined] under its key. *)
Lemma collect_empty_number_example :
  collectFormData DecimalHost
    (Elem "form" []
          [Elem "input" [("type", VStr "number"); ("value", VStr "");
                         ("data-path", VStr "age"); ("data-type", VStr "integer")] []])
  = Ok (obj [("age", VUndef)]).
Proof. reflexivity. Qed.

(** C4 (as stated, refuted).  A numeric control holding "42" is no checkbox,
    is not empty and is not boolean-typed, yet it does not contribute its raw
    text: it contributes the number 42. *)
Lemma C4_numeric_text_is_parsed :
  let el := Elem "input" [("type", VStr "number"); ("value", VStr "42");
                          ("data-path", VStr "quantity");
                          ("data-type", VStr "integer")] [] in
  is_checkbox DecimalHost el = false
  /\ el_value DecimalHost el = "42"
  /\ getAttribute DecimalHost el "data-type" = Some "integer"
  /\ control_value DecimalHost el = VNum (num_of_Z 42)
  /\ control_value DecimalHost el <> VStr (el_value DecimalHost el).
Proof. repeat split; try reflexivity. discriminate. Qed.

(** C4 (amended).  What a visited control contributes: a checkbox its checked
    state; a numeric-typed control the value [undefined] when its text is
    empty (the key is written, holding undefined; never 0, null or "") and
    the parsed number otherwise; a boolean-typed control that is not a
    checkbox the comparison of its text with "true"; any other control its
    raw text.  The contribution is written at the control's path. *)
Theorem C4_control_contribution (B : Builtins) (el : node) (t : option string) :
  getAttribute B el "data-type" = t ->
  (is_checkbox B el = true -> control_value B el = VBool (el_checked el))
  /\ (is_checkbox B el = false ->
      (t = Some "number" \/ t = Some "integer") ->
      (el_value B el = "" -> control_value B el = VUndef)
      /\ (el_value B el <> "" ->
          control_value B el = VNum (Number B (el_value B el))))
  /\ (is_checkbox B el = false -> t = Some "boolean" ->
      control_value B el = VBool (String.eqb (el_value B el) "true"))
  /\ (is_checkbox B el = false ->
      t <> Some "number" -> t <> Some "integer" -> t <> Some "boolean" ->
      control_value B el = VStr (el_value B el))
  /\ (forall data path,
        getAttribute B el "data-path" = Some path -> path <> "" ->
        collect_one B data el = setValueByPath data path (control_value B el))
  /\ (forall a d key,
        getAttribute B el "data-path" = Some key -> path_parts key = [key] ->
        control_value B el = VUndef ->
        collect_one B (VObj a d) el = Ok (VObj a (set key VUndef d))).
Proof.
  intros Ht.
  split; [|split; [|split; [|split; [|split]]]].
  - intros Hc. unfold control_value. now rewrite Hc.
  - intros Hc Hor. unfold control_value. rewrite Ht, Hc.
    split; intros Hv.
    + destruct Hor as [-> | ->]; simpl; now rewrite Hv.
    + apply String.eqb_neq in Hv.
      destruct Hor as [-> | ->]; simpl; now rewrite Hv.
  - intros Hc ->. unfold control_value. now rewrite Ht, Hc.
  - intros Hc H1 H2 H3. unfold control_value. rewrite Ht, Hc.
    destruct t as [t|]; [|reflexivity].
    assert (E1 : String.eqb t "number" = false)
      by (apply String.eqb_neq; congruence).
    assert (E2 : String.eqb t "integer" = false)
      by (apply String.eqb_neq; congruence).
    assert (E3 : String.eqb t "boolean" = false)
      by (apply String.eqb_neq; congruence).
    now rewrite E1, E2, E3.
  - intros data path Hp Hne. unfold collect_one. rewrite Hp.
    destruct path; [congruence | reflexivity].
  - intros a d key Hp Hparts Hv. unfold collect_one. rewrite Hp.
    destruct key as [|c r]; [discriminate Hparts|]. simpl negb. cbv iota.
    unfold setValueByPath. rewrite Hparts, Hv. reflexivity.
Qed.

Lemma C4_witness :
  let el := Elem "input" [("type", VStr "number"); ("value", VStr "");
                          ("data-path", VStr "age"); ("data-type", VStr "integer")] [] in
  control_value DecimalHost el = VUndef
  /\ collect_one DecimalHost (obj []) el = Ok (obj [("age", VUndef)]).
Proof.
  intros el.
  pose proof (C4_control_contribution DecimalHost el (Some "integer") eq_refl)
    as (_ & Hnum & _ & _ & _ & Hwrite).
  split.
  - apply Hnum; [reflexivity | right; reflexivity | reflexivity].
  - apply (Hwrite false [] "age"); [reflexivity | reflexivity |].
    apply Hnum; [reflexivity | right; reflexivity | reflexivity].
Defined.

(** ** Constants *)

(** C5 (code defect).  The claim: a schema node with a literal const renders a
    disabled or hidden input fixed to that value, and the constant is in the
    collected data whatever the user does.  [renderField] of
    [schema-form.ts] has no const branch: [{type:'string', const:'fixed'}]
    becomes an ordinary text input showing the bound data, so without data
    the collector returns "" under the key, and with other data that data.
    (The blueprint copy renders a hidden input holding the const.) *)
Theorem C5_const_renders_as_plain_text_input :
  let shown (d : jsvalue) :=
    map (fun el => (getAttribute DecimalHost el "type",
                    hasAttribute el "disabled", el_value DecimalHost el))
        (flat_map bound_controls (content (mounted DecimalHost fixed_kind_schema d))) in
  shown (obj []) = [(Some "text", false, "")]
  /\ getData_value DecimalHost (mounted DecimalHost fixed_kind_schema (obj []))
     = Ok (obj [("kind", VStr "")])
  /\ getData_value DecimalHost
       (mounted DecimalHost fixed_kind_schema (obj [("kind", VStr "other")]))
     = Ok (obj [("kind", VStr "other")]).
Proof. repeat split; vm_compute; reflexivity. Qed.

(** ** The array-item list manager *)

Lemma has_class_setAttribute (n : node) (k : string) (v : jsvalue) (c : string) :
  k <> "class" -> has_class (setAttribute n k v) c = has_class n c.
Proof.
  intros Hk. destruct n as [s|t a cs]; [reflexivity|].
  unfold has_class. simpl attrs_of.
  rewrite get_set_other by congruence. reflexivity.
Qed.

Lemma has_class_repath_descendants (B : Builtins) (i : nat) (n : node) (c : string) :
  has_class (repath_descendants B i n) c = has_class n c.
Proof. destruct n; reflexivity. Qed.

Lemma has_class_reindex_item (B : Builtins) (i : nat) (n : node) (c : string) :
  has_class (reindex_item B i n) c = has_class n c.
Proof.
  unfold reindex_item. rewrite has_class_repath_descendants.
  apply has_class_setAttribute. discriminate.
Qed.

(** After re-indexing, the items of a container are the former items in
    document order, the one at position [j] re-indexed to [j]. *)
Lemma items_of_reindex_children (B : Builtins) (cs : list node) :
  forall i,
    filter (fun c => has_class c "schema-array-item") (reindex_children B i cs)
    = mapi_from (reindex_item B) i
                (filter (fun c => has_class c "schema-array-item") cs).
Proof.
  induction cs as [|c r IH]; intros i; simpl; [reflexivity|].
  destruct (has_class c "schema-array-item") eqn:E; simpl.
  - rewrite has_class_reindex_item, E. simpl. now rewrite IH.
  - rewrite E. apply IH.
Qed.

Lemma array_items_reindexArrayItems (B : Builtins) (container : node) :
  array_items (reindexArrayItems B container)
  = mapi_from (reindex_item B) 0 (array_items container).
Proof.
  destruct container as [s|t a cs]; [reflexivity|].
  unfold array_items. simpl. apply items_of_reindex_children.
Qed.

Lemma mapi_from_length {A C : Type} (f : nat -> A -> C) (l : list A) :
  forall i, List.length (mapi_from f i l) = List.length l.
Proof. induction l; intros i; simpl; [reflexivity | now rewrite IHl]. Qed.

Lemma mapi_from_nth_error {A C : Type} (f : nat -> A -> C) (l : list A) :
  forall i j x, nth_error l j = Some x ->
                nth_error (mapi_from f i l) j = Some (f (i + j) x).
Proof.
  induction l as [|y r IH]; intros i j x H.
  - destruct j; discriminate.
  - destruct j; simpl in *.
    + injection H as ->. now rewrite Nat.add_0_r.
    + rewrite (IH (S i) j x H). f_equal. f_equal. lia.
Qed.

(** The index attribute of a re-indexed item is its position. *)
Lemma data_index_reindex_item (B : Builtins) (i : nat) (t : string)
      (a : list (string * jsvalue)) (cs : list node) :
  get "data-index" (attrs_of (reindex_item B i (Elem t a cs))) = Some (VStr (dec i)).
Proof. unfold reindex_item. simpl. apply get_set_same. Qed.

(** Every rendered array item carries the item class. *)
Lemma renderArrayItem_is_item (field : renderer) (itemLabel : string)
      (value : jsvalue) (path : string) (index : nat) (variantIndex : option nat)
      (n n' : nat) (item : node) :
  renderArrayItem field itemLabel value path index variantIndex n = Ok (item, n') ->
  has_class item "schema-array-item" = true.
Proof.
  unfold renderArrayItem, mbind, ret. intros H.
  destruct (field itemLabel value path false n) as [[x k]|]; [|discriminate].
  injection H as <- _. destruct variantIndex; reflexivity.
Qed.

Lemma new_array_item_is_item (B : Builtins) (s : schema) (path : string)
      (count selected n n' : nat) (item : node) :
  new_array_item B s path count selected n = Ok (item, n') ->
  has_class item "schema-array-item" = true.
Proof.
  unfold new_array_item. intros H.
  destruct (getUnionVariants (itemSchema_of s)) as [vs|].
  - destruct (nth_error vs selected); [|discriminate].
    eapply renderArrayItem_is_item; eassumption.
  - eapply renderArrayItem_is_item; eassumption.
Qed.

(** Below the bound the new item lands at the next index with the default text. *)
Lemma add_below_maxItems_example :
  let s := with_maxItems (array_of (typed "string")) (num_of_Z 2) in
  let one := Elem "div" [("class", VStr "schema-array-items")]
                  [Elem "div" [("class", VStr "schema-array-item")] []] in
  match onAddClick DecimalHost s "tags" one 0 7 with
  | Ok ((container, events), n) =>
      map (fun it => get "data-index" (attrs_of it)) (array_items container)
      = [Some (VStr "0"); Some (VStr "1")]
      /\ map (fun el => (getAttribute DecimalHost el "data-path", el_value DecimalHost el))
             (bound_controls container) = [(Some "tags[1]", "")]
      /\ events = ["schema-change"] /\ n = 8
  | TypeError => False
  end.
Proof. vm_compute. repeat split; reflexivity. Qed.

(** ** Numeric fields *)

Lemma el_value_set_value (B : Builtins) (el : node) (text : string) :
  (exists t a cs, el = Elem t a cs) -> el_value B (set_value el text) = text.
Proof.
  intros (t & a & cs & ->). unfold el_value, set_value. simpl.
  now rewrite get_set_same.
Qed.

(** C8 (as stated, refuted).  An integer field with bounds 0 and 120: after
    the user types 500 into the number input, that input still reads 500
    (it is not clamped into the bounds), and it is the range slider that
    receives the clamped value 120. *)
Lemma C8_number_input_is_not_clamped :
  match flat_map inputs_of
                 (content (mounted DecimalHost (object_of [("age", age_schema)])
                                   (obj [("age", VNum (num_of_Z 30))]))) with
  | [rangeInput; numberInput] =>
      let (rangeInput', numberInput') :=
        onNumberInput DecimalHost age_schema rangeInput (user_types numberInput "500") in
      el_value DecimalHost numberInput' = "500"
      /\ el_value DecimalHost rangeInput' = "120"
      /\ getAttribute DecimalHost rangeInput "type" = Some "range"
      /\ getAttribute DecimalHost numberInput "type" = Some "number"
  | _ => False
  end.
Proof. vm_compute. repeat split; reflexivity. Qed.

(** C8 (amended).  A [number] or [integer] node (no union, no enum) with both
    bounds declared, or with format "range", renders a range slider bound to
    the path and a companion number input that is not bound.  Both are
    assigned the current value, and each shows it when it keeps that text
    (the slider: an integer within its integer bounds and on a step; the
    number input: the text of a number).  An edit of the number input to the
    text of a number leaves that text as typed and, when it parses to a
    number, assigns that number clamped into the declared bounds to the
    slider; a slider position is copied to the number input as it is.  The
    slider is given the declared bounds as [min] and [max] and, for
    [integer], the step 1.  Without a range the node renders a single bound
    number input that is given the declared bounds and the step 1 for
    [integer], "any" for [number]. *)
Theorem C8_numeric_field (B : Builtins) (s : schema) (t key : string)
        (value : jsvalue) (path : string) (required : bool) (n : nat) :
  anyOf s = None -> oneOf s = None -> enum s = None ->
  schemaType s = Some t -> (t = "number" \/ t = "integer") ->
  let currentVal := currentVal_of s value in
  let step := if String.eqb t "integer" then VNum (num_of_nat 1) else VStr "any" in
  exists field,
    renderField B s key value path required n = Ok (field, S n)
    /\ (hasRange s = true ->
        exists rangeInput numberInput,
          inputs_of field = [rangeInput; numberInput]
          /\ bound_controls field = [rangeInput]
          /\ get "type" (attrs_of rangeInput) = Some (VStr "range")
          /\ get "min" (attrs_of rangeInput) = Some (opt_num (minimum s))
          /\ get "max" (attrs_of rangeInput) = Some (opt_num (maximum s))
          /\ (t = "integer" ->
              get "step" (attrs_of rangeInput) = Some (VNum (num_of_nat 1)))
          /\ get "data-path" (attrs_of rangeInput) = Some (VStr path)
          /\ get "data-type" (attrs_of rangeInput) = Some (VStr t)
          /\ get "type" (attrs_of numberInput) = Some (VStr "number")
          /\ get "step" (attrs_of numberInput) = Some step
          /\ (keeps_text B rangeInput = true ->
              el_value B rangeInput = String_of B currentVal)
          /\ (keeps_text B numberInput = true ->
              el_value B numberInput = String_of B currentVal)
          /\ (forall text,
                kept_by "number" text = true ->
                let edited := user_types numberInput text in
                el_value B edited = text
                /\ (isNaN (parseFloat B text) = false ->
                    onNumberInput B s rangeInput edited
                    = (set_value rangeInput
                                 (String_of B (VNum (clamp s (parseFloat B text)))),
                       edited))
                /\ (isNaN (parseFloat B text) = true ->
                    onNumberInput B s rangeInput edited = (rangeInput, edited)))
          /\ (forall text,
                let moved := user_types rangeInput text in
                keeps_text B moved = true ->
                onRangeInput B moved numberInput = (moved, set_value numberInput text)))
    /\ (hasRange s = false ->
        exists input,
          inputs_of field = [input]
          /\ bound_controls field = [input]
          /\ get "type" (attrs_of input) = Some (VStr "number")
          /\ get "step" (attrs_of input) = Some step
          /\ get "min" (attrs_of input) = Some (opt_num (minimum s))
          /\ get "max" (attrs_of input) = Some (opt_num (maximum s))
          /\ get "data-path" (attrs_of input) = Some (VStr path)
          /\ get "data-type" (attrs_of input) = Some (VStr t)).
Proof.
  intros Ha Ho He Ht Hty currentVal step.
  assert (Hrender :
            renderField B s key value path required n
            = Ok (renderNumberField B (path ++ "-" ++ dec (S n)) (getLabel key s) t s
                                    value path required, S n)).
  { destruct s; simpl in Ha, Ho, He. subst.
    unfold renderField, mbind, uniqueId. 
    cbn [anyOf oneOf enum]. rewrite Ht.
    destruct Hty as [-> | ->]; reflexivity. }
  eexists. split; [exact Hrender|].
  unfold renderNumberField. split.
  - intros Hr. rewrite Hr.
    exists (rangeInput_of B (path ++ "-" ++ dec (S n)) t s value path required),
           (numberInput_of B (path ++ "-" ++ dec (S n)) (getLabel key s) t s value).
    split; [|split].
    { unfold inputs_of. destruct required; unfold description_line;
        destruct (description s) as [dd|]; [destruct (nonempty dd)| |destruct (nonempty dd)|];
        reflexivity. }
    { unfold bound_controls. destruct required; unfold description_line;
        destruct (description s) as [dd|]; [destruct (nonempty dd)| |destruct (nonempty dd)|];
        reflexivity. }
    assert (Hedit : forall text,
               el_value B (user_types
                             (numberInput_of B (path ++ "-" ++ dec (S n))
                                             (getLabel key s) t s value) text) = text).
    { intros text. apply el_value_set_value. unfold numberInput_of, set_value.
      simpl. eauto. }
    repeat (split; [reflexivity|]).
    split; [intros ->; reflexivity|].
    repeat (split; [reflexivity|]).
    split.
    + intros text _. split; [apply Hedit|].
      split; intros Hn; unfold onNumberInput; rewrite Hedit, Hn; reflexivity.
    + intros text. reflexivity.
  - intros Hr. rewrite Hr.
    exists (plainNumberInput_of (path ++ "-" ++ dec (S n)) t s value path required).
    split; [|split].
    { unfold inputs_of. destruct required; unfold description_line;
        destruct (description s) as [dd|]; [destruct (nonempty dd)| |destruct (nonempty dd)|];
        reflexivity. }
    { unfold bound_controls. destruct required; unfold description_line;
        destruct (description s) as [dd|]; [destruct (nonempty dd)| |destruct (nonempty dd)|];
        reflexivity. }
    repeat split; reflexivity.
Qed.

Lemma C8_witness :
  exists field rangeInput numberInput,
    renderField DecimalHost age_schema "age" (VNum (num_of_Z 30)) "age" false 0
    = Ok (field, 1)
    /\ inputs_of field = [rangeInput; numberInput]
    /\ getAttribute DecimalHost rangeInput "type" = Some "range"
    /\ getAttribute DecimalHost rangeInput "min" = Some "0"
    /\ getAttribute DecimalHost rangeInput "max" = Some "120"
    /\ getAttribute DecimalHost rangeInput "step" = Some "1"
    /\ el_value DecimalHost rangeInput = "30"
    /\ el_value DecimalHost numberInput = "30".
Proof.
  destruct (C8_numeric_field DecimalHost age_schema "integer" "age"
              (VNum (num_of_Z 30)) "age" false 0
              eq_refl eq_refl eq_refl eq_refl (or_intror eq_refl))
    as (field & Hfield & Hrange & _).
  destruct (Hrange eq_refl)
    as (r & nb & Hin & _ & Hty & Hmin & Hmax & Hstep & _ & _ & _ & _ & Hv & Hw & _).
  exists field, r, nb.
  split; [exact Hfield|]. split; [exact Hin|].
  vm_compute in Hfield. injection Hfield as <-.
  vm_compute in Hin. injection Hin as <- <-.
  unfold getAttribute. rewrite Hty, Hmin, Hmax, (Hstep eq_refl).
  rewrite (Hv eq_refl), (Hw eq_refl).
  repeat split; reflexivity.
Defined.

(** The rendering of the test suite's fields: an integer with bounds 0 and
    120 is a slider with [min="0" max="120" step="1"] next to a number input;
    a number with a minimum only is one number input with [min="0"] and
    [step="any"], whose [max], given as [undefined], reads "undefined". *)
Lemma range_rendering_example :
  map (fun el => (getAttribute DecimalHost el "type", getAttribute DecimalHost el "min",
                  getAttribute DecimalHost el "max", getAttribute DecimalHost el "step"))
      (flat_map inputs_of
                (content (mounted DecimalHost
                                  (object_of [("age", age_schema); ("amount", amount_schema)])
                                  (obj []))))
  = [(Some "range", Some "0", Some "120", Some "1");
     (Some "number", Some "0", Some "120", Some "1");
     (Some "number", Some "0", Some "undefined", Some "any")].
Proof. vm_compute. reflexivity. Qed.

(** ** The component's read accessor *)

Lemma deref_app_old (h : list jsvalue) (x : jsvalue) (r : ref) :
  r < List.length h -> deref (h ++ [x])%list r = deref h r.
Proof. intros H. unfold deref. now rewrite app_nth1. Qed.

Lemma deref_app_new (h : list jsvalue) (x : jsvalue) :
  deref (h ++ [x])%list (List.length h) = x.
Proof. unfold deref. rewrite app_nth2 by lia. now rewrite Nat.sub_diag. Qed.

Lemma host_assign_frame (r r' : ref) (key : string) (v : jsvalue) (c : SchemaForm) :
  r' <> r -> deref (heap (host_assign r key v c)) r' = deref (heap c) r'.
Proof.
  intros Hne. unfold host_assign, deref. simpl.
  revert r r' Hne. induction (heap c) as [|x h IH]; intros r r' Hne.
  - destruct r; reflexivity.
  - destruct r, r'; simpl; try reflexivity; try congruence.
    apply IH. congruence.
Qed.

Lemma host_assign_length (r : ref) (key : string) (v : jsvalue) (c : SchemaForm) :
  List.length (heap (host_assign r key v c)) = List.length (heap c).
Proof.
  unfold host_assign. simpl. revert r.
  induction (heap c) as [|x h IH]; intros r; [destruct r; reflexivity|].
  destruct r; simpl; [reflexivity | now rewrite IH].
Qed.

(** C9 (as stated, refuted).  A component without a rendered form (here: no
    schema was assigned, so it shows the empty-state placeholder) hands out
    the bound data object itself: the reference returned by [getData()] is
    [_data], and an assignment through it changes the component's data. *)
Lemma C9_getData_returns_bound_data_without_form :
  let c := mounted DecimalHost empty_schema (obj [("name", VStr "Jane")]) in
  query_form c = None
  /\ getData DecimalHost c = Ok (_data c, c)
  /\ deref (heap c) (_data c) = obj [("name", VStr "Jane")]
  /\ deref (heap (host_assign (_data c) "name" (VStr "changed") c)) (_data c)
     = obj [("name", VStr "changed")].
Proof. repeat split; reflexivity. Qed.

(** C9 (amended).  [getData()] never changes the schema, the data reference,
    the rendered content or the id counter.  While a form is rendered it
    returns a reference to a freshly assembled object, different from the
    bound data and from every object that existed before, whose value is what
    the collector reads from the form; a second call assembles another object
    with the same value, and an assignment through a returned reference
    changes neither the bound data nor what a later call returns.  While no
    form is rendered it returns the bound data reference itself. *)
Theorem C9_getData_is_a_read (B : Builtins) (c : SchemaForm) :
  _data c < List.length (heap c) ->
  (forall formEl data,
      query_form c = Some formEl ->
      collectFormData B formEl = Ok data ->
      exists c' c'',
        let fresh := List.length (heap c) in
        getData B c = Ok (fresh, c')
        /\ fresh <> _data c
        /\ _schema c' = _schema c /\ _data c' = _data c /\ content c' = content c
        /\ renderQueued c' = renderQueued c /\ idCounter c' = idCounter c
        /\ (forall r, r < List.length (heap c) -> deref (heap c') r = deref (heap c) r)
        /\ deref (heap c') fresh = data
        /\ getData B c' = Ok (S fresh, c'')
        /\ deref (heap c'') (S fresh) = data
        /\ (forall key v,
              let m := host_assign fresh key v c' in
              deref (heap m) (_data m) = deref (heap c) (_data c)
              /\ content m = content c
              /\ exists m', getData B m = Ok (S fresh, m')
                            /\ deref (heap m') (S fresh) = data))
  /\ (query_form c = None -> getData B c = Ok (_data c, c)).
Proof.
  intros Hvalid. split.
  - intros formEl data Hq Hc.
    set (c' := {| _schema := _schema c; _data := _data c; content := content c;
                  renderQueued := renderQueued c; idCounter := idCounter c;
                  heap := (heap c ++ [data])%list |}).
    assert (Hq' : query_form c' = Some formEl) by exact Hq.
    set (c'' := {| _schema := _schema c'; _data := _data c'; content := content c';
                   renderQueued := renderQueued c'; idCounter := idCounter c';
                   heap := (heap c' ++ [data])%list |}).
    assert (Hlen : List.length (heap c') = S (List.length (heap c))).
    { unfold c'. simpl. rewrite length_app. simpl. lia. }
    exists c', c''. cbv zeta.
    split; [unfold getData; rewrite Hq, Hc; reflexivity|].
    split; [lia|].
    repeat (split; [reflexivity|]).
    split; [intros r Hr; apply deref_app_old; exact Hr|].
    split; [apply deref_app_new|].
    split; [unfold getData; rewrite Hq', Hc, <- Hlen; reflexivity|].
    split.
    { unfold c''. simpl heap. rewrite <- Hlen. apply deref_app_new. }
    intros key v.
    set (m := host_assign (List.length (heap c)) key v c').
    assert (Hqm : query_form m = Some formEl) by exact Hq.
    split; [|split; [reflexivity|]].
    + unfold m. rewrite host_assign_frame by (simpl; lia).
      simpl. apply deref_app_old. exact Hvalid.
    + eexists. split.
      * unfold getData. rewrite Hqm, Hc.
        replace (S (List.length (heap c))) with (List.length (heap m))
          by (unfold m; now rewrite host_assign_length).
        reflexivity.
      * simpl heap. 
        replace (S (List.length (heap c))) with (List.length (heap m))
          by (unfold m; now rewrite host_assign_length).
        apply deref_app_new.
  - intros Hq. unfold getData. now rewrite Hq.
Qed.

Lemma C9_witness :
  let c := mounted DecimalHost list_schema abcd in
  exists c',
    getData DecimalHost c = Ok (2, c')
    /\ _data c = 1
    /\ deref (heap c') 2 = abcd
    /\ deref (heap c') (_data c') = deref (heap c) (_data c).
Proof.
  intros c.
  assert (Hvalid : _data c < List.length (heap c)) by (vm_compute; lia).
  destruct (C9_getData_is_a_read DecimalHost c Hvalid) as [Hform _].
  destruct (query_form c) as [formEl|] eqn:Hq; [|vm_compute in Hq; discriminate].
  assert (Hc : collectFormData DecimalHost formEl = Ok abcd).
  { vm_compute in Hq. injection Hq as <-. vm_compute. reflexivity. }
  destruct (Hform formEl abcd eq_refl Hc)
    as (c' & c'' & Hget & _ & _ & Hd & _ & _ & _ & Hold & Hnew & _).
  exists c'. split; [exact Hget|]. split; [reflexivity|].
  split; [exact Hnew|].
  rewrite Hd. apply Hold. exact Hvalid.
Defined.

(** ** Strings and path segments *)

Lemma sapp_assoc (a b c : string) : (a ++ b) ++ c = a ++ (b ++ c).
Proof. induction a; simpl; [reflexivity | now rewrite IHa]. Qed.

Lemma sapp_nil_r (a : string) : a ++ "" = a.
Proof. induction a; simpl; [reflexivity | now rewrite IHa]. Qed.

Lemma slength_app (a b : string) :
  String.length (a ++ b) = String.length a + String.length b.
Proof. induction a; simpl; [reflexivity | now rewrite IHa]. Qed.

Lemma bracket_body_app (a s : string) :
  breaks_index s -> bracket_body (a ++ s) = bracket_body a.
Proof.
  intros Hs. induction a as [|x r IH].
  - simpl. destruct s as [|c s']; [reflexivity|]. simpl. destruct Hs as [Hd _].
    now rewrite Hd.
  - simpl. destruct (is_digit x); [|reflexivity].
    destruct r as [|y r'].
    + simpl. destruct s as [|c s']; [reflexivity|]. destruct Hs as [Hd Hb].
      rewrite Hb. simpl. now rewrite Hd.
    + simpl in *. destruct (Ascii.eqb y "]"%char); [reflexivity|].
      now rewrite IH.
Qed.

Lemma bracket_body_spec (a ds : string) :
  bracket_body a = Some ds ->
  exists rest, a = ds ++ "]" ++ rest /\ all_digits ds = true /\ ds <> "".
Proof.
  revert ds. induction a as [|x r IH]; intros ds H; simpl in H; [discriminate|].
  destruct (is_digit x) eqn:Hx; [|discriminate].
  destruct r as [|y r']; [discriminate|].
  destruct (Ascii.eqb y "]"%char) eqn:Hy.
  - injection H as <-. apply Ascii.eqb_eq in Hy. subst y.
    exists r'. simpl. rewrite Hx. split; [reflexivity|]. split; [reflexivity | discriminate].
  - destruct (bracket_body (String y r')) as [ds'|] eqn:E; [|discriminate].
    injection H as <-. destruct (IH ds' eq_refl) as (rest & Hr & Hd & Hne).
    exists rest. rewrite Hr. simpl. rewrite Hx, Hd.
    split; [reflexivity|]. split; [reflexivity | discriminate].
Qed.

Lemma bracket_body_length (a ds : string) :
  bracket_body a = Some ds -> S (String.length ds) <= String.length a.
Proof.
  intros H. apply bracket_body_spec in H as (rest & -> & _ & _).
  rewrite slength_app. simpl. lia.
Qed.

Lemma bracket_body_digits (ds q : string) :
  all_digits ds = true -> ds <> "" -> bracket_body (ds ++ "]" ++ q) = Some ds.
Proof.
  induction ds as [|x r IH]; intros Hd Hne; [congruence|].
  simpl in Hd. apply andb_prop in Hd as [Hx Hr]. simpl. rewrite Hx.
  destruct r as [|y r'].
  - reflexivity.
  - simpl. assert (Hy : Ascii.eqb y "]"%char = false).
    { simpl in Hr. apply andb_prop in Hr as [Hy _].
      destruct (Ascii.eqb y "]"%char) eqn:E; [|reflexivity].
      apply Ascii.eqb_eq in E. subst y. discriminate Hy. }
    rewrite Hy. simpl in IH. rewrite IH; [reflexivity | exact Hr | discriminate].
Qed.

(** The replacement works on a prefix and on what follows it separately
    when what follows cannot continue a bracketed index. *)
Lemma replace_from_app (a s : string) :
  breaks_index s ->
  forall k, k <= String.length a ->
            replace_from k (a ++ s) = replace_from k a ++ replace_from 0 s.
Proof.
  intros Hs. induction a as [|x r IH]; intros k Hk.
  - simpl in Hk. assert (k = 0) by lia. subst k. reflexivity.
  - simpl. destruct k as [|k'].
    + destruct (Ascii.eqb x "["%char).
      * rewrite (bracket_body_app r s Hs).
        destruct (bracket_body r) as [ds|] eqn:E.
        -- rewrite IH by (apply bracket_body_length; exact E).
           simpl. f_equal. now rewrite sapp_assoc.
        -- simpl. now rewrite IH by lia.
      * simpl. now rewrite IH by lia.
    + apply IH. simpl in Hk. lia.
Qed.

Lemma replace_from_skip (a r : string) :
  replace_from (String.length a) (a ++ r) = replace_from 0 r.
Proof. induction a; simpl; [reflexivity | exact IHa]. Qed.

Lemma replace_no_bracket (k : string) :
  has_char "["%char k = false -> replace_from 0 k = k.
Proof.
  induction k as [|x r IH]; intros H; [reflexivity|].
  simpl in H. apply orb_false_iff in H as [Hx Hr]. simpl. rewrite Hx.
  now rewrite IH.
Qed.

Lemma replace_from_open (r : string) :
  replace_from 0 (String "["%char r)
  = match bracket_body r with
    | Some ds => "." ++ ds ++ replace_from (S (String.length ds)) r
    | None => String "["%char (replace_from 0 r)
    end.
Proof. reflexivity. Qed.

Lemma replace_index (ds q : string) :
  all_digits ds = true -> ds <> "" ->
  replace_from 0 ("[" ++ ds ++ "]" ++ q) = "." ++ ds ++ replace_from 0 q.
Proof.
  intros Hd Hne. change ("[" ++ ds ++ "]" ++ q) with (String "["%char (ds ++ "]" ++ q)).
  rewrite replace_from_open, (bracket_body_digits ds q Hd Hne).
  f_equal. f_equal.
  replace (S (String.length ds)) with (String.length (ds ++ "]"))
    by (rewrite slength_app; simpl; lia).
  rewrite <- (replace_from_skip (ds ++ "]") q). now rewrite sapp_assoc.
Qed.

Lemma split_dot_nonnil (s : string) : split_dot s <> [].
Proof.
  induction s as [|x r IH]; simpl; [discriminate|].
  destruct (Ascii.eqb x "."%char); [discriminate|].
  destruct (split_dot r); [congruence | discriminate].
Qed.

Lemma split_dot_app (a b : string) :
  split_dot (a ++ "." ++ b) = (split_dot a ++ split_dot b)%list.
Proof.
  induction a as [|x r IH]; [reflexivity|].
  simpl. destruct (Ascii.eqb x "."%char).
  - simpl in IH. now rewrite IH.
  - simpl in IH. rewrite IH. pose proof (split_dot_nonnil r) as Hne.
    destruct (split_dot r); [congruence | reflexivity].
Qed.

Lemma split_dot_no_dot (k : string) :
  has_char "."%char k = false -> split_dot k = [k].
Proof.
  induction k as [|x r IH]; intros H; [reflexivity|].
  simpl in H. apply orb_false_iff in H as [Hx Hr]. simpl. rewrite Hx.
  now rewrite IH.
Qed.

Lemma breaks_index_dot (s : string) : breaks_index ("." ++ s).
Proof. split; reflexivity. Qed.

Lemma breaks_index_bracket (s : string) : breaks_index ("[" ++ s).
Proof. split; reflexivity. Qed.

(** *** Decimal indices *)

Lemma string_of_uint_digits (d : Decimal.uint) :
  all_digits (NilEmpty.string_of_uint d) = true.
Proof. induction d; simpl; auto. Qed.

Lemma to_uint_nonnil (n : nat) : Nat.to_uint n <> Decimal.Nil.
Proof.
  intros H. pose proof (DecimalNat.Unsigned.of_to n) as E. rewrite H in E.
  simpl in E. subst n. discriminate H.
Qed.

Lemma dec_digits (n : nat) : all_digits (dec n) = true.
Proof. apply string_of_uint_digits. Qed.

Lemma dec_nonempty (n : nat) : dec n <> "".
Proof.
  unfold dec. pose proof (to_uint_nonnil n) as H.
  destruct (Nat.to_uint n); [congruence | discriminate ..].
Qed.

Lemma dec_numeric (n : nat) : is_numeric (dec n) = true.
Proof.
  unfold is_numeric. pose proof (dec_nonempty n). pose proof (dec_digits n).
  destruct (dec n); [congruence | assumption].
Qed.

Lemma dec_inj (i j : nat) : dec i = dec j -> i = j.
Proof.
  unfold dec. intros H. apply DecimalNat.Unsigned.to_uint_inj.
  assert (E : Some (Nat.to_uint i) = Some (Nat.to_uint j))
    by (rewrite <- !NilEmpty.usu; now rewrite H).
  now injection E.
Qed.

Lemma index_of_key_dec (i : nat) : index_of_key (dec i) = Some i.
Proof.
  unfold index_of_key. unfold dec at 1. rewrite NilEmpty.usu.
  rewrite DecimalNat.Unsigned.of_to. now rewrite String.eqb_refl.
Qed.

Lemma digits_no_char (c : ascii) (s : string) :
  is_digit c = false -> all_digits s = true -> has_char c s = false.
Proof.
  intros Hc. induction s as [|x r IH]; intros H; [reflexivity|].
  simpl in *. apply andb_prop in H as [Hx Hr]. rewrite (IH Hr).
  destruct (Ascii.eqb x c) eqn:E; [|reflexivity].
  apply Ascii.eqb_eq in E. subst x. congruence.
Qed.

(** *** The segments of a path that grows by one step *)

Lemma nonempty_true (s : string) : s <> "" -> nonempty s = true.
Proof. destruct s; [congruence | reflexivity]. Qed.

Lemma path_parts_key (k : string) :
  k <> "" -> has_char "."%char k = false -> has_char "["%char k = false ->
  path_parts k = [k].
Proof.
  intros Hne Hd Hb. unfold path_parts, replace_brackets.
  rewrite replace_no_bracket by assumption.
  rewrite split_dot_no_dot by assumption. simpl. now rewrite nonempty_true.
Qed.

Lemma path_parts_app_key (p k : string) :
  k <> "" -> has_char "."%char k = false -> has_char "["%char k = false ->
  path_parts (p ++ "." ++ k) = (path_parts p ++ [k])%list.
Proof.
  intros Hne Hd Hb. unfold path_parts, replace_brackets.
  rewrite (replace_from_app p ("." ++ k) (breaks_index_dot k) 0) by lia.
  change (replace_from 0 ("." ++ k)) with ("." ++ replace_from 0 k).
  rewrite (replace_no_bracket k) by assumption.
  rewrite split_dot_app, filter_app, (split_dot_no_dot k) by assumption.
  simpl. now rewrite nonempty_true.
Qed.

Lemma path_parts_app_index (p : string) (i : nat) :
  path_parts (p ++ "[" ++ dec i ++ "]") = (path_parts p ++ [dec i])%list.
Proof.
  unfold path_parts, replace_brackets.
  rewrite (replace_from_app p ("[" ++ dec i ++ "]") (breaks_index_bracket _) 0) by lia.
  pose proof (replace_index (dec i) "" (dec_digits i) (dec_nonempty i)) as E.
  change (replace_from 0 "") with "" in E. rewrite sapp_nil_r in E.
  change ("[" ++ dec i ++ "]" ++ "") with ("[" ++ dec i ++ "]") in E. rewrite E.
  rewrite split_dot_app, filter_app, ?sapp_nil_r.
  rewrite (split_dot_no_dot (dec i))
    by (apply digits_no_char; [reflexivity | apply dec_digits]).
  simpl. now rewrite (nonempty_true _ (dec_nonempty i)).
Qed.

(** Bracketed integer segments are read as plain numeric segments. *)
Lemma path_parts_bracket_normalised (p ds q : string) :
  all_digits ds = true -> ds <> "" ->
  path_parts (p ++ "[" ++ ds ++ "]" ++ q) = path_parts (p ++ "." ++ ds ++ q).
Proof.
  intros Hd Hne. unfold path_parts, replace_brackets.
  rewrite (replace_from_app p ("[" ++ ds ++ "]" ++ q) (breaks_index_bracket _) 0) by lia.
  rewrite (replace_from_app p ("." ++ ds ++ q) (breaks_index_dot _) 0) by lia.
  rewrite (replace_index ds q Hd Hne).
  change (replace_from 0 ("." ++ ds ++ q)) with ("." ++ replace_from 0 (ds ++ q)).
  f_equal. f_equal. f_equal. f_equal.
  clear Hne. induction ds as [|x r IH]; [reflexivity|].
  simpl in Hd. apply andb_prop in Hd as [Hx Hr]. simpl.
  assert (Hb : Ascii.eqb x "["%char = false).
  { destruct (Ascii.eqb x "["%char) eqn:E; [|reflexivity].
    apply Ascii.eqb_eq in E. subst x. discriminate Hx. }
  rewrite Hb. f_equal. now apply IH.
Qed.

(** Empty components are dropped and no segment contains a separator. *)
Lemma split_dot_no_dots (s : string) :
  Forall (fun p => has_char "."%char p = false) (split_dot s).
Proof.
  induction s as [|x r IH]; simpl.
  - constructor; [reflexivity | constructor].
  - destruct (Ascii.eqb x "."%char) eqn:E.
    + constructor; [reflexivity | exact IH].
    + destruct (split_dot r) as [|y ys]; [repeat constructor; simpl; now rewrite E|].
      inversion IH; subst. constructor; [|assumption].
      simpl. now rewrite E.
Qed.

Lemma path_parts_segments (path : string) :
  Forall (fun p => p <> "" /\ has_char "."%char p = false) (path_parts path).
Proof.
  unfold path_parts. apply Forall_forall. intros p Hin.
  apply filter_In in Hin as [Hin Hne].
  split; [destruct p; [discriminate | discriminate]|].
  pose proof (split_dot_no_dots (replace_brackets path)) as H.
  rewrite Forall_forall in H. now apply H.
Qed.

(** ** Writing by path *)

Lemma read_cons (root : jsvalue) (k : string) (l : list string) :
  read root (k :: l) = read (prop root k) l.
Proof. reflexivity. Qed.

Lemma read_app (root : jsvalue) (l1 l2 : list string) :
  read root (l1 ++ l2)%list = read (read root l1) l2.
Proof. unfold read. apply fold_left_app. Qed.

Lemma read_undef (l : list string) : read VUndef l = VUndef.
Proof. induction l; [reflexivity | exact IHl]. Qed.

Lemma read_nullish (x : jsvalue) (k : string) (l : list string) :
  nullish x = true -> read x (k :: l) = VUndef.
Proof. intros H. rewrite read_cons. destruct x; try discriminate; apply read_undef. Qed.

Lemma read_fresh (a : bool) (k : string) (l : list string) :
  read (VObj a []) (k :: l) = VUndef.
Proof. rewrite read_cons. apply read_undef. Qed.

Lemma prop_set_same (a : bool) (d : list (string * jsvalue)) (k : string) (x : jsvalue) :
  prop (VObj a (set k x d)) k = x.
Proof. simpl. now rewrite get_set_same. Qed.

Lemma prop_set_other (a : bool) (d : list (string * jsvalue)) (k k' : string)
      (x : jsvalue) :
  k <> k' -> prop (VObj a (set k' x d)) k = prop (VObj a d) k.
Proof. intros H. simpl. now rewrite get_set_other. Qed.

(** One step of the loop, for a path with at least two segments left. *)
Lemma walk_step (a : bool) (d : list (string * jsvalue)) (part next : string)
      (rest : list string) (v : jsvalue) :
  walk (VObj a d) (part :: next :: rest) v
  = bind (walk (if nullish (prop (VObj a d) part)
                then VObj (is_numeric next) []
                else prop (VObj a d) part)
               (next :: rest) v)
         (fun child' => Ok (VObj a (set part child' d))).
Proof. reflexivity. Qed.

Lemma walk_primitive (x : jsvalue) (part : string) (rest : list string) (v : jsvalue) :
  is_container x = false -> walk x (part :: rest) v = TypeError.
Proof. intros H. destruct x; try discriminate; destruct rest; reflexivity. Qed.

(** The walk returns the container it started from, rebuilt. *)
Lemma walk_keeps_kind (parts : list string) (v : jsvalue) :
  forall a d r, walk (VObj a d) parts v = Ok r -> exists d', r = VObj a d'.
Proof.
  destruct parts as [|part rest]; intros a d r H.
  - injection H as <-. eauto.
  - destruct rest as [|next rest'].
    + injection H as <-. eauto.
    + rewrite walk_step in H.
      destruct (walk _ (next :: rest') v); [|discriminate].
      injection H as <-. eauto.
Qed.

Lemma clear_path_step (a : bool) (d : list (string * jsvalue)) (part next : string)
      (rest : list string) :
  clear_path (VObj a d) (part :: next :: rest)
  = clear_path (if nullish (prop (VObj a d) part)
                then VObj (is_numeric next) []
                else prop (VObj a d) part) (next :: rest).
Proof.
  simpl. destruct (get part d) as [child|]; simpl.
  - destruct (nullish child); [|reflexivity]. now destruct rest.
  - now destruct rest.
Qed.

Lemma walk_succeeds (parts : list string) (v : jsvalue) :
  forall root, parts <> [] -> clear_path root parts = true ->
               exists root', walk root parts v = Ok root' /\ read root' parts = v.
Proof.
  induction parts as [|part rest IH]; intros root Hne Hc; [congruence|].
  destruct root as [| | | | |a d]; try discriminate.
  destruct rest as [|next rest'].
  - eexists. split; [reflexivity|]. rewrite read_cons. now rewrite prop_set_same.
  - rewrite clear_path_step in Hc. rewrite walk_step.
    destruct (IH _ ltac:(discriminate) Hc) as (child' & Hw & Hr).
    rewrite Hw. eexists. split; [reflexivity|].
    rewrite read_cons, prop_set_same. exact Hr.
Qed.

Lemma walk_fails (parts : list string) (v : jsvalue) :
  forall root, parts <> [] -> clear_path root parts = false ->
               walk root parts v = TypeError.
Proof.
  induction parts as [|part rest IH]; intros root Hne Hc; [congruence|].
  destruct root as [| | | | |a d]; try reflexivity;
    try (destruct rest; reflexivity).
  destruct rest as [|next rest'].
  - discriminate.
  - rewrite clear_path_step in Hc. rewrite walk_step.
    now rewrite (IH _ ltac:(discriminate) Hc).
Qed.

(** A missing intermediate container is created as a list exactly when the
    segment after it is numeric. *)
Lemma walk_creates (pre : list string) (part next : string) (post : list string)
      (v : jsvalue) :
  forall root root',
    walk root (pre ++ part :: next :: post)%list v = Ok root' ->
    nullish (read root (pre ++ [part])%list) = true ->
    exists d, read root' (pre ++ [part])%list = VObj (is_numeric next) d.
Proof.
  induction pre as [|p0 pre' IH]; intros root root' Hw Hn.
  - cbn [List.app] in *. destruct root as [| | | | |a d]; try discriminate.
    rewrite walk_step in Hw. change (read (VObj a d) [part]) with (prop (VObj a d) part) in Hn.
    rewrite Hn in Hw.
    destruct (walk (VObj (is_numeric next) []) (next :: post) v) as [child'|] eqn:E;
      [|discriminate].
    injection Hw as <-. apply walk_keeps_kind in E as [d' ->].
    exists d'. change (read ?r [part]) with (prop r part). apply prop_set_same.
  - cbn [List.app] in Hw.
    destruct root as [| | | | |a d];
      try (rewrite walk_primitive in Hw by reflexivity; discriminate).
    destruct (pre' ++ part :: next :: post)%list as [|q0 qs] eqn:Eq;
      [destruct pre'; discriminate|].
    rewrite walk_step in Hw.
    destruct (walk _ (q0 :: qs) v) as [child'|] eqn:E; [|discriminate].
    injection Hw as <-.
    cbn [List.app]. rewrite read_cons, prop_set_same.
    apply (IH _ _ E).
    cbn [List.app] in Hn. rewrite read_cons in Hn.
    destruct (nullish (prop (VObj a d) p0)) eqn:En; [|exact Hn].
    destruct (pre' ++ [part])%list eqn:Ep; [destruct pre'; discriminate|].
    now rewrite read_fresh.
Qed.

(** Locations that branch off the written path keep their value. *)
Lemma walk_frame (pre : list string) (b : string) (rest : list string) (v : jsvalue) :
  forall root root' a q,
    walk root (pre ++ b :: rest)%list v = Ok root' -> a <> b ->
    read root' (pre ++ a :: q)%list = read root (pre ++ a :: q)%list.
Proof.
  induction pre as [|p0 pre' IH]; intros root root' a q Hw Hab.
  - cbn [List.app] in *. destruct root as [| | | | |ar d];
      try (rewrite walk_primitive in Hw by reflexivity; discriminate).
    rewrite !read_cons. f_equal.
    destruct rest as [|next rest'].
    + injection Hw as <-. now apply prop_set_other.
    + rewrite walk_step in Hw.
      destruct (walk _ (next :: rest') v); [|discriminate].
      injection Hw as <-. now apply prop_set_other.
  - cbn [List.app] in Hw.
    destruct root as [| | | | |ar d];
      try (rewrite walk_primitive in Hw by reflexivity; discriminate).
    destruct (pre' ++ b :: rest)%list as [|q0 qs] eqn:Eq; [destruct pre'; discriminate|].
    rewrite walk_step in Hw.
    destruct (walk _ (q0 :: qs) v) as [child'|] eqn:E; [|discriminate].
    injection Hw as <-.
    cbn [List.app]. rewrite !read_cons, prop_set_same.
    rewrite (IH _ _ a q E Hab).
    destruct (nullish (prop (VObj ar d) p0)) eqn:En; [|reflexivity].
    destruct (pre' ++ a :: q)%list eqn:Ep; [destruct pre'; discriminate|].
    rewrite read_fresh. symmetry. now apply read_nullish.
Qed.

(** C7 (as stated, refuted).  With the root [{a: "x"}] the path "a.b" leads
    through the string "x"; the write throws and nothing is assigned at the
    final segment. *)
Lemma C7_write_through_primitive_throws :
  path_parts "a.b" = ["a"; "b"]
  /\ setValueByPath (obj [("a", VStr "x")]) "a.b" (VNum (num_of_Z 1)) = TypeError.
Proof. split; reflexivity. Qed.

(** C7 (amended).  The path is split into segments: bracketed integers count
    as plain numeric segments, empty components are dropped, no segment
    contains a separator.  A path without segments leaves the root as it
    is.  Otherwise, for a path none of whose segments is the name of a
    built-in member (as [constructor], [toString] or [length] are), and
    provided every value that exists on the way is null, undefined or a
    container, the write succeeds: reading the result along the path gives
    the value, every missing intermediate container has been created as a
    list exactly when the next segment is numeric and as a map otherwise, and
    every location that branches off the path at an ordinary name is
    unchanged.  When a primitive is in the way of such a path the write
    throws. *)
Theorem C7_setValueByPath (root : jsvalue) (path : string) (v : jsvalue) :
  let parts := path_parts path in
  Forall (fun p => p <> "" /\ has_char "."%char p = false) parts
  /\ (forall p ds q, all_digits ds = true -> ds <> "" ->
        path_parts (p ++ "[" ++ ds ++ "]" ++ q) = path_parts (p ++ "." ++ ds ++ q))
  /\ (parts = [] -> setValueByPath root path v = Ok root)
  /\ (parts <> [] -> forallb ordinary_key parts = true ->
      clear_path root parts = true ->
      exists root',
        setValueByPath root path v = Ok root'
        /\ getValueByPath root' path = v
        /\ (forall pre part next post,
              parts = (pre ++ part :: next :: post)%list ->
              nullish (read root (pre ++ [part])%list) = true ->
              exists d, read root' (pre ++ [part])%list = VObj (is_numeric next) d)
        /\ (forall pre a b rest q,
              parts = (pre ++ b :: rest)%list -> a <> b -> ordinary_key a = true ->
              read root' (pre ++ a :: q)%list = read root (pre ++ a :: q)%list))
  /\ (parts <> [] -> forallb ordinary_key parts = true ->
      clear_path root parts = false ->
      setValueByPath root path v = TypeError).
Proof.
  intros parts.
  split; [apply path_parts_segments|].
  split; [intros p ds q; apply path_parts_bracket_normalised|].
  split; [|split].
  - intros Hp. unfold setValueByPath. fold parts. now rewrite Hp.
  - intros Hne _ Hc. unfold setValueByPath, getValueByPath. fold parts.
    destruct (walk_succeeds parts v root Hne Hc) as (root' & Hw & Hr).
    exists root'. split; [exact Hw|]. split; [exact Hr|]. split.
    + intros pre part next post Hp Hn. rewrite Hp in Hw.
      eapply walk_creates; eassumption.
    + intros pre a b rest q Hp Hab _. rewrite Hp in Hw.
      eapply walk_frame; eassumption.
  - intros Hne _ Hc. unfold setValueByPath. fold parts. now apply walk_fails.
Qed.

Lemma C7_witness :
  exists root',
    setValueByPath (obj [("x", VStr "kept")]) ".a.b[2].c" (VStr "v") = Ok root'
    /\ getValueByPath root' ".a.b[2].c" = VStr "v"
    /\ (exists d, read root' ["a"; "b"] = VObj true d)
    /\ (exists d, read root' ["a"; "b"; "2"] = VObj false d)
    /\ read root' ["x"] = VStr "kept".
Proof.
  destruct (C7_setValueByPath (obj [("x", VStr "kept")]) ".a.b[2].c" (VStr "v"))
    as (_ & _ & _ & Hok & _).
  destruct (Hok ltac:(discriminate) eq_refl eq_refl)
    as (root' & Hset & Hget & Hkind & Hframe).
  exists root'. split; [exact Hset|]. split; [exact Hget|]. split; [|split].
  - apply (Hkind ["a"] "b" "2" ["c"]); reflexivity.
  - apply (Hkind ["a"; "b"] "2" "c" []); reflexivity.
  - apply (Hframe [] "x" "a" ["b"; "2"; "c"] []);
      [reflexivity | discriminate | reflexivity].
Defined.

(** ** Rebuilding a value from its leaves *)

Lemma jsvalue_induction (P : jsvalue -> Prop) :
  P VUndef -> P VNull -> (forall b, P (VBool b)) -> (forall n, P (VNum n)) ->
  (forall s, P (VStr s)) ->
  (forall a d, Forall (fun kx => P (snd kx)) d -> P (VObj a d)) ->
  forall v, P v.
Proof.
  intros Hu Hn Hb Hnum Hs Ho.
  fix IH 1.
  intros [| | b | n | s | a d];
    [exact Hu | exact Hn | apply Hb | apply Hnum | apply Hs |].
  apply Ho. induction d as [|[k x] r IHr]; constructor; [apply IH | exact IHr].
Qed.

Lemma set_absent {A : Type} (k : string) (x : A) (d : list (string * A)) :
  get k d = None -> set k x d = (d ++ [(k, x)])%list.
Proof.
  induction d as [|[k' v] r IH]; intros H; simpl in *; [reflexivity|].
  destruct (String.eqb k k'); [discriminate|]. now rewrite IH.
Qed.

Lemma set_set {A : Type} (k : string) (x y : A) (d : list (string * A)) :
  set k y (set k x d) = set k y d.
Proof.
  induction d as [|[k' v] r IH]; simpl.
  - now rewrite String.eqb_refl.
  - destruct (String.eqb k k') eqn:E; simpl.
    + now rewrite String.eqb_refl.
    + now rewrite E, IH.
Qed.

Lemma set_same {A : Type} (k : string) (x : A) (d : list (string * A)) :
  get k d = Some x -> set k x d = d.
Proof.
  induction d as [|[k' v] r IH]; intros H; simpl in *; [discriminate|].
  destruct (String.eqb k k') eqn:E.
  - injection H as ->. apply String.eqb_eq in E. now subst.
  - now rewrite IH.
Qed.

Lemma get_app_none {A : Type} (k : string) (d1 d2 : list (string * A)) :
  get k (d1 ++ d2)%list = None <-> get k d1 = None /\ get k d2 = None.
Proof.
  induction d1 as [|[k' v] r IH]; simpl.
  - tauto.
  - destruct (String.eqb k k'); [|exact IH]. split; [discriminate | intros [H _]; discriminate].
Qed.

Lemma get_none_existsb {A : Type} (k : string) (d : list (string * A)) :
  existsb (String.eqb k) (keys d) = false -> get k d = None.
Proof.
  induction d as [|[k' v] r IH]; simpl; [reflexivity|].
  intros H. apply orb_false_iff in H as [H1 H2]. rewrite H1. now apply IH.
Qed.

Lemma bind_assoc {A C E : Type} (r : result A) (f : A -> result C) (g : C -> result E) :
  bind (bind r f) g = bind r (fun a => bind (f a) g).
Proof. destruct r; reflexivity. Qed.

Lemma run_app (ws1 ws2 : list (list string * jsvalue)) :
  forall data, run data (ws1 ++ ws2)%list = bind (run data ws1) (fun d' => run d' ws2).
Proof.
  induction ws1 as [|w r IH]; intros data; simpl; [reflexivity|].
  destruct (walk data (fst w) (snd w)); simpl; [apply IH | reflexivity].
Qed.

(** Writes below the key [k] of a container act on the child at [k]. *)
Lemma run_under_existing (k : string) (ws : list (list string * jsvalue)) :
  Forall (fun w => fst w <> []) ws ->
  forall a d child,
    get k d = Some child -> nullish child = false ->
    run (VObj a d) (map (under k) ws)
    = bind (run child ws) (fun c' => Ok (VObj a (set k c' d))).
Proof.
  induction 1 as [|[p v] r Hp Hr IH]; intros a d child Hg Hn.
  - simpl. now rewrite set_same.
  - simpl in Hp. destruct p as [|p1 prest]; [congruence|].
    cbn [map run under fst snd]. rewrite walk_step.
    cbn [prop]. rewrite Hg, Hn.
    destruct child as [| | | | |ca cd];
      try (rewrite walk_primitive by reflexivity; reflexivity).
    destruct (walk (VObj ca cd) (p1 :: prest) v) as [c1|] eqn:E; [|reflexivity].
    cbn [bind]. apply walk_keeps_kind in E as [cd' ->].
    rewrite (IH a (set k (VObj ca cd') d) (VObj ca cd')
                (get_set_same _ _ _) eq_refl).
    destruct (run (VObj ca cd') r); [|reflexivity]. cbn [bind].
    now rewrite set_set.
Qed.

(** The first write below a key that holds nothing creates the container. *)
Lemma run_under_fresh (k p1 : string) (prest : list string) (v : jsvalue)
      (ws : list (list string * jsvalue)) :
  Forall (fun w => fst w <> []) ws ->
  forall a d,
    get k d = None ->
    run (VObj a d) (map (under k) ((p1 :: prest, v) :: ws))
    = bind (run (VObj (is_numeric p1) []) ((p1 :: prest, v) :: ws))
           (fun c' => Ok (VObj a (set k c' d))).
Proof.
  intros Hws a d Hg. cbn [map run under fst snd]. rewrite walk_step.
  cbn [prop]. rewrite Hg. cbn [nullish].
  destruct (walk (VObj (is_numeric p1) []) (p1 :: prest) v) as [c1|] eqn:E;
    [|reflexivity].
  cbn [bind]. apply walk_keeps_kind in E as [cd' ->].
  rewrite (run_under_existing k ws Hws a (set k (VObj (is_numeric p1) cd') d)
                              (VObj (is_numeric p1) cd') (get_set_same _ _ _) eq_refl).
  destruct (run (VObj (is_numeric p1) cd') ws); [|reflexivity]. cbn [bind].
  now rewrite set_set.
Qed.

Lemma flatten_container_paths (a : bool) (d : list (string * jsvalue)) :
  Forall (fun w => fst w <> []) (flatten (VObj a d)).
Proof.
  cbn [flatten]. apply Forall_forall. intros w Hin.
  apply in_flat_map in Hin as ([k x] & _ & Hin).
  apply in_map_iff in Hin as (w' & <- & _). discriminate.
Qed.

Lemma flatten_nonnil (v : jsvalue) : well_formed v = true -> flatten v <> [].
Proof.
  induction v as [| | | | |a d IH] using jsvalue_induction; try discriminate.
  intros Hw. cbn [well_formed] in Hw.
  apply andb_prop in Hw as [Hw Hall]. apply andb_prop in Hw as [Hnn _].
  destruct d as [|[k x] r]; [discriminate|].
  cbn [forallb] in Hall. apply andb_prop in Hall as [Hx _].
  apply andb_prop in Hx as [_ Hx].
  inversion IH as [|? ? IHx _]; subst. cbn [snd] in IHx.
  cbn [flatten flat_map fst snd]. specialize (IHx Hx).
  destruct (flatten x); [congruence | discriminate].
Qed.

(** Writing the leaves of a well-formed value below a key that holds nothing
    yields the value under that key. *)
Lemma run_flatten (x : jsvalue) :
  well_formed x = true ->
  forall a d k, get k d = None ->
                run (VObj a d) (map (under k) (flatten x))
                = Ok (VObj a (d ++ [(k, x)])%list).
Proof.
  induction x as [| | | | |fl props IH] using jsvalue_induction;
    intros Hw a d k Hg;
    try (cbn [flatten map run under fst snd walk assign bind];
         now rewrite set_absent).
  pose proof (flatten_nonnil _ Hw) as Hne.
  pose proof (flatten_container_paths fl props) as Hpaths.
  cbn [well_formed] in Hw.
  apply andb_prop in Hw as [Hw Hall]. apply andb_prop in Hw as [Hnn Hnd].
  assert (Hinner : forall rest acc,
             Forall (fun kx => forall a d k, well_formed (snd kx) = true ->
                                             get k d = None ->
                                             run (VObj a d) (map (under k) (flatten (snd kx)))
                                             = Ok (VObj a (d ++ [(k, snd kx)])%list)) rest ->
             forallb (fun kx => Bool.eqb (is_numeric (fst kx)) fl && well_formed (snd kx))
                     rest = true ->
             nodupb (keys rest) = true ->
             (forall k, In k (keys rest) -> get k acc = None) ->
             run (VObj fl acc) (flatten (VObj fl rest)) = Ok (VObj fl (acc ++ rest)%list)).
  { induction rest as [|[ki xi] r IHr]; intros acc HF Hwf Hndr Hdis.
    - cbn. now rewrite app_nil_r.
    - cbn [flatten flat_map fst snd]. rewrite run_app.
      inversion HF as [|? ? Hxi HFr]; subst. cbn [snd] in Hxi.
      cbn [forallb fst snd] in Hwf. apply andb_prop in Hwf as [Hki Hwfr].
      apply andb_prop in Hki as [_ Hwxi].
      cbn [keys map fst nodupb] in Hndr. apply andb_prop in Hndr as [Hfresh Hndr].
      fold (under ki).
      rewrite (Hxi fl acc ki Hwxi (Hdis ki (or_introl eq_refl))). cbn [bind].
      change (flat_map _ r) with (flatten (VObj fl r)).
      rewrite (IHr (acc ++ [(ki, xi)])%list HFr Hwfr Hndr).
      + now rewrite <- app_assoc.
      + intros k' Hin. apply get_app_none. split.
        * apply Hdis. right. exact Hin.
        * cbn [get]. destruct (String.eqb k' ki) eqn:E; [|reflexivity].
          apply String.eqb_eq in E. subst k'.
          apply negb_true_iff in Hfresh.
          exfalso. clear -Hfresh Hin. unfold keys in *.
          induction (map fst r) as [|y ys IHy]; [contradiction|].
          cbn in Hfresh. apply orb_false_iff in Hfresh as [H1 H2].
          destruct Hin as [-> | Hin]; [now rewrite String.eqb_refl in H1 | auto]. }
  assert (HF : Forall (fun kx => forall a d k, well_formed (snd kx) = true ->
                                               get k d = None ->
                                               run (VObj a d) (map (under k) (flatten (snd kx)))
                                               = Ok (VObj a (d ++ [(k, snd kx)])%list)) props).
  { eapply Forall_impl; [|exact IH]. intros kx H Hwx a0 d0 k0. now apply H. }
  specialize (Hinner props [] HF Hall Hnd (fun _ _ => eq_refl)).
  destruct props as [|[k1 x1] r]; [discriminate|].
  destruct (flatten (VObj fl ((k1, x1) :: r))) as [|[p v] ws] eqn:Efl; [congruence|].
  assert (Hhead : exists prest, p = k1 :: prest).
  { cbn [flatten flat_map fst snd] in Efl.
    cbn [forallb fst snd] in Hall. apply andb_prop in Hall as [Hx1 _].
    apply andb_prop in Hx1 as [_ Hx1].
    pose proof (flatten_nonnil x1 Hx1) as Hn1.
    destruct (flatten x1) as [|w1 ws1]; [congruence|].
    cbn in Efl. injection Efl as <- _ _. eauto. }
  destruct Hhead as [prest ->].
  inversion Hpaths as [|? ? _ Hws]; subst.
  rewrite (run_under_fresh k k1 prest v ws Hws a d Hg).
  assert (Hkind : is_numeric k1 = fl).
  { cbn [forallb fst snd] in Hall. apply andb_prop in Hall as [Hx1 _].
    apply andb_prop in Hx1 as [Hk _]. now apply Bool.eqb_prop in Hk. }
  rewrite Hkind, Hinner. cbn [bind app]. now rewrite set_absent.
Qed.

(** ** From controls to path writes *)

Lemma collect_all_run (B : Builtins) (els : list node) :
  Forall (fun el => data_path B el <> "") els ->
  forall data, collect_all B data els = run data (writes B els).
Proof.
  induction 1 as [|el r Hel Hr IH]; intros data; [reflexivity|].
  cbn [collect_all writes map run fst snd].
  assert (E : collect_one B data el
              = walk data (path_parts (data_path B el)) (control_value B el)).
  { unfold collect_one. fold (data_path B el).
    destruct (data_path B el); [congruence | reflexivity]. }
  rewrite E. destruct (walk data _ _); [apply IH | reflexivity].
Qed.

Lemma descendants_elem (t : string) (a : list (string * jsvalue)) (cs : list node) :
  descendants (Elem t a cs) = flat_map (fun c => c :: descendants c) cs.
Proof.
  cbn [descendants]. induction cs as [|c r IH]; [reflexivity|].
  cbn [flat_map]. now rewrite <- IH.
Qed.

Lemma filter_flat_map {A C : Type} (p : C -> bool) (f : A -> list C) (l : list A) :
  filter p (flat_map f l) = flat_map (fun x => filter p (f x)) l.
Proof.
  induction l as [|x r IH]; [reflexivity|].
  cbn [flat_map]. now rewrite filter_app, IH.
Qed.

Lemma controls_in_elem (t : string) (a : list (string * jsvalue)) (cs : list node) :
  controls_in (Elem t a cs)
  = ((if is_control (Elem t a cs) then [Elem t a cs] else [])
       ++ flat_map controls_in cs)%list.
Proof.
  unfold controls_in at 1. cbn [filter]. rewrite descendants_elem, filter_flat_map.
  destruct (is_control (Elem t a cs)); reflexivity.
Qed.

Lemma controls_in_text (s : string) : controls_in (Text s) = [].
Proof. reflexivity. Qed.

Lemma controls_in_required_mark (required : bool) :
  controls_in (required_mark required) = [].
Proof. destruct required; reflexivity. Qed.

Lemma controls_in_label (fieldId fieldLabel : string) (required : bool) :
  controls_in (label_for fieldId fieldLabel required) = [].
Proof. destruct required; reflexivity. Qed.

Lemma controls_in_legend (fieldLabel : string) (required : bool) :
  controls_in (legend_of fieldLabel required) = [].
Proof. destruct required; reflexivity. Qed.

Lemma controls_in_description (s : schema) : controls_in (description_line s) = [].
Proof.
  unfold description_line. destruct (description s) as [d|]; [|reflexivity].
  destruct (nonempty d); reflexivity.
Qed.

(** A field that wraps one control between its label and description. *)
Lemma controls_in_leaf_field (cls fieldId fieldLabel : string) (s : schema)
      (required : bool) (ctl : node) :
  controls_in (Elem "div" [("class", VStr cls)]
                    [label_for fieldId fieldLabel required; description_line s; ctl])
  = controls_in ctl.
Proof.
  rewrite controls_in_elem. cbn [flat_map].
  rewrite controls_in_label, controls_in_description, app_nil_r. reflexivity.
Qed.

Lemma num_same_eq (a b : number) : num_same a b = true -> a = b.
Proof.
  destruct a as [|[xn xd]], b as [|[yn yd]]; try discriminate; [reflexivity|].
  cbn. intros H. apply andb_prop in H as [H1 H2].
  apply Z.eqb_eq in H1. apply Pos.eqb_eq in H2. now subst.
Qed.

(** ** Unfolding the renderer on a node without a union *)

Lemma renderField_plain (B : Builtins) (s : schema) (key : string) (value : jsvalue)
      (path : string) (required : bool) (n : nat) :
  anyOf s = None -> oneOf s = None ->
  renderField B s key value path required n
  = let fieldId := path ++ "-" ++ dec (S n) in
    let fieldLabel := getLabel key s in
    match enum s with
    | Some vs =>
        Ok (choice_field B fieldId fieldLabel s
              (map (fun v => Elem "option" [("value", VStr (String_of B v))]
                                  [Text (String_of B v)]) vs)
              value path required, S n)
    | None =>
        match schemaType s with
        | Some t =>
            if String.eqb t "string" then
              Ok (renderStringField B fieldId fieldLabel s value path required, S n)
            else if String.eqb t "number" || String.eqb t "integer" then
              Ok (renderNumberField B fieldId fieldLabel t s value path required, S n)
            else if String.eqb t "boolean" then
              Ok (renderBooleanField fieldId fieldLabel s value path required, S n)
            else if String.eqb t "object" then
              renderObjectField key s
                (match properties s with
                 | Some ps => Some (map (fun kp => (fst kp, renderField B (snd kp))) ps)
                 | None => None
                 end)
                (if truthy value then value else obj []) path required (S n)
            else if String.eqb t "array" then
              match items s with
              | Some it =>
                  renderArrayField B key s (renderField B it)
                    (match anyOf it, oneOf it with
                     | Some vs, _ => Some (map (fun v => (v, renderField B v)) vs)
                     | None, Some vs => Some (map (fun v => (v, renderField B v)) vs)
                     | None, None => None
                     end)
                    value path required (S n)
              | None =>
                  renderArrayField B key s (default_item_field B) None
                                   value path required (S n)
              end
            else Ok (renderTextFallback fieldId fieldLabel s value path required, S n)
        | None => Ok (renderTextFallback fieldId fieldLabel s value path required, S n)
        end
    end.
Proof.
  intros Ha Ho. destruct s. cbn in Ha, Ho. subst.
  cbn [renderField mbind uniqueId anyOf oneOf enum]. cbv zeta.
  destruct enum0; [reflexivity|].
  destruct (schemaType _) as [t|]; [|reflexivity].
  repeat (match goal with |- context [if ?b then _ else _] => destruct b end;
          try reflexivity).
  all: cbn [items]; destruct items0; reflexivity.
Qed.

(** ** The controls of the leaf fields *)

Lemma single_control (B : Builtins) (node ctl : node) (P : string) (D : jsvalue) :
  controls_in node = [ctl] -> data_path B ctl = P -> control_value B ctl = D ->
  P <> "" ->
  Forall (fun el => data_path B el <> "") (controls_in node)
  /\ writes B (controls_in node)
     = map (fun w => ((path_parts P ++ fst w)%list, snd w)) [([], D)].
Proof.
  intros Hc Hp Hv Hne. rewrite Hc. split.
  - constructor; [congruence | constructor].
  - cbn. now rewrite Hp, Hv, app_nil_r.
Qed.

Lemma get_string_inputAttrs (fieldId : string) (s : schema) (value : jsvalue)
      (path : string) (required : bool) (k : string) :
  k <> "minLength" -> k <> "maxLength" -> k <> "pattern" -> k <> "placeholder" ->
  get k (string_inputAttrs fieldId s value path required)
  = get k [("id", VStr fieldId); ("name", VStr path);
           ("value", coalesce (coalesce value (default s)) (VStr ""));
           ("required", VBool required); ("data-path", VStr path);
           ("data-type", VStr "string")].
Proof.
  intros H1 H2 H3 H4. unfold string_inputAttrs.
  repeat match goal with
         | |- context [if ?b then _ else _] => destruct b
         | |- context [match pattern s with _ => _ end] => destruct (pattern s)
         end;
    rewrite ?get_set_other by assumption; reflexivity.
Qed.

Lemma inputType_not_checkbox (s : schema) :
  String.eqb (inputType_of s) "checkbox" = false.
Proof.
  unfold inputType_of, formatToType.
  destruct (format s) as [f|]; [|reflexivity].
  destruct (nonempty f); [|reflexivity].
  repeat match goal with
         | |- context [if String.eqb f ?x then _ else _] => destruct (String.eqb f x)
         end; reflexivity.
Qed.

Lemma string_control_facts (B : Builtins) (fieldId : string) (s : schema)
      (str path : string) (required : bool) :
  let ctl := string_control B fieldId s (VStr str) path required in
  controls_in ctl = [ctl] /\ data_path B ctl = path
  /\ control_value B ctl = VStr str.
Proof.
  intros ctl. unfold ctl, string_control.
  pose proof (get_string_inputAttrs fieldId s (VStr str) path required) as G.
  destruct (match maxLength s with
            | Some m => truthy (VNum m) && num_gtb m (num_of_nat 200)
            | None => false
            end).
  - (* textarea *)
    assert (Gr : forall k, k <> "minLength" -> k <> "maxLength" -> k <> "pattern" ->
                           k <> "placeholder" -> k <> "rows" ->
                           get k (set "rows" (VNum (num_of_nat 4))
                                      (string_inputAttrs fieldId s (VStr str) path required))
                           = get k [("id", VStr fieldId); ("name", VStr path);
                                    ("value", VStr str);
                                    ("required", VBool required); ("data-path", VStr path);
                                    ("data-type", VStr "string")]).
    { intros k H1 H2 H3 H4 H5. rewrite get_set_other by assumption. now apply G. }
    split; [|split].
    + rewrite controls_in_elem. cbn [flat_map]. rewrite controls_in_text.
      unfold is_control, hasAttribute. cbn [tag_of attrs_of].
      rewrite !Gr by discriminate. reflexivity.
    + unfold data_path, getAttribute. cbn [attrs_of].
      rewrite Gr by discriminate. reflexivity.
    + unfold control_value, is_checkbox, getAttribute, el_value. cbn [tag_of attrs_of].
      rewrite !Gr by discriminate. reflexivity.
  - (* input *)
    split; [|split].
    + rewrite controls_in_elem. cbn [flat_map].
      unfold is_control, hasAttribute.
      cbn [tag_of attrs_of get String.eqb Ascii.eqb Bool.eqb andb].
      rewrite !G by discriminate. reflexivity.
    + unfold data_path, getAttribute.
      cbn [attrs_of get String.eqb Ascii.eqb Bool.eqb andb].
      rewrite G by discriminate. reflexivity.
    + unfold control_value, is_checkbox, getAttribute, el_value.
      cbn [tag_of attrs_of get String.eqb Ascii.eqb Bool.eqb andb is_undef String_of].
      rewrite !G by discriminate.
      cbn [get String.eqb Ascii.eqb Bool.eqb andb is_undef String_of orb coalesce nullish].
      rewrite inputType_not_checkbox. reflexivity.
Qed.

Lemma number_field_facts (B : Builtins) (fieldId fieldLabel t : string) (s : schema)
      (n : number) (path : string) (required : bool) :
  t = "number" \/ t = "integer" ->
  num_same (Number B (num_to_string B n)) n = true ->
  nonempty (num_to_string B n) = true ->
  exists ctl,
    controls_in (renderNumberField B fieldId fieldLabel t s (VNum n) path required) = [ctl]
    /\ data_path B ctl = path /\ control_value B ctl = VNum n.
Proof.
  intros Ht Hsame Hne. apply num_same_eq in Hsame.
  assert (Hempty : String.eqb (num_to_string B n) "" = false)
    by (destruct (num_to_string B n); [discriminate | reflexivity]).
  unfold renderNumberField. destruct (hasRange s).
  - exists (rangeInput_of B fieldId t s (VNum n) path required).
    split; [|split].
    + rewrite controls_in_leaf_field.
      rewrite controls_in_elem. cbn [flat_map]. reflexivity.
    + reflexivity.
    + unfold control_value, is_checkbox, rangeInput_of, set_value, getAttribute, el_value.
      cbn [setAttribute tag_of attrs_of set get String.eqb Ascii.eqb Bool.eqb is_undef
                        String_of andb currentVal_of coalesce nullish].
      destruct Ht as [-> | ->]; cbn [String.eqb Ascii.eqb Bool.eqb orb];
        rewrite Hempty, Hsame; reflexivity.
  - exists (plainNumberInput_of fieldId t s (VNum n) path required).
    split; [|split].
    + rewrite controls_in_leaf_field. reflexivity.
    + reflexivity.
    + unfold control_value, is_checkbox, plainNumberInput_of, getAttribute, el_value.
      cbn [tag_of attrs_of set get String.eqb Ascii.eqb Bool.eqb is_undef
                  String_of andb coalesce nullish].
      destruct Ht as [-> | ->]; cbn [String.eqb Ascii.eqb Bool.eqb orb];
        rewrite Hempty, Hsame; reflexivity.
Qed.

Lemma boolean_field_facts (B : Builtins) (fieldId fieldLabel : string) (s : schema)
      (b : bool) (path : string) (required : bool) :
  exists ctl,
    controls_in (renderBooleanField fieldId fieldLabel s (VBool b) path required) = [ctl]
    /\ data_path B ctl = path /\ control_value B ctl = VBool b.
Proof.
  eexists. split; [|split].
  - unfold renderBooleanField. rewrite controls_in_elem. cbn [flat_map].
    rewrite controls_in_description, controls_in_elem. cbn [flat_map].
    rewrite controls_in_required_mark. reflexivity.
  - reflexivity.
  - destruct b; reflexivity.
Qed.

Lemma option_controls (B : Builtins) (vs : list jsvalue) :
  flat_map controls_in
           (map (fun v => Elem "option" [("value", VStr (String_of B v))]
                               [Text (String_of B v)]) vs) = [].
Proof. induction vs as [|v r IH]; [reflexivity | exact IH]. Qed.

Lemma choice_field_facts (B : Builtins) (fieldId fieldLabel : string) (s : schema)
      (vs : list jsvalue) (str path : string) (required : bool) :
  existsb (fun v => String.eqb (String_of B v) str) vs = true ->
  exists ctl,
    controls_in (choice_field B fieldId fieldLabel s
                   (map (fun v => Elem "option" [("value", VStr (String_of B v))]
                                       [Text (String_of B v)]) vs)
                   (VStr str) path required) = [ctl]
    /\ data_path B ctl = path /\ control_value B ctl = VStr str.
Proof.
  intros Hin. unfold choice_field. cbn [nullish String_of].
  set (options := map _ vs).
  assert (Hassign :
            select_assign B
              (Elem "select" [("id", VStr fieldId); ("name", VStr path);
                              ("required", VBool required); ("data-path", VStr path)]
                    (Elem "option" [("value", VStr "")] [Text "-- Select --"] :: options))
              str
            = Elem "select" [("id", VStr fieldId); ("name", VStr path);
                             ("required", VBool required); ("data-path", VStr path);
                             ("value", VStr str)]
                   (Elem "option" [("value", VStr "")] [Text "-- Select --"] :: options)).
  { unfold select_assign. cbn [children_of filter tag_of String.eqb Ascii.eqb Bool.eqb andb].
    cbn [existsb attrs_of get String.eqb Ascii.eqb Bool.eqb andb String_of].
    assert (E : existsb
                  (fun o => match get "value" (attrs_of o) with
                            | Some v => String.eqb (String_of B v) str
                            | None => false
                            end)
                  (filter (fun c => String.eqb (tag_of c) "option") options) = true).
    { unfold options. clear -Hin. induction vs as [|v r IH]; [discriminate|].
      cbn in Hin |- *. apply orb_true_iff in Hin as [H | H].
      - now rewrite H.
      - rewrite (IH H). apply orb_true_r. }
    rewrite E, orb_true_r. reflexivity. }
  rewrite Hassign. eexists. split; [|split].
  - rewrite controls_in_leaf_field, controls_in_elem. cbn [flat_map].
    unfold options. rewrite option_controls. reflexivity.
  - reflexivity.
  - reflexivity.
Qed.

(** ** Arrays without holes *)

Lemma get_arr_props (l : list jsvalue) :
  forall j i x, nth_error l i = Some x -> get (dec (j + i)) (arr_props j l) = Some x.
Proof.
  induction l as [|y r IH]; intros j i x H; [destruct i; discriminate|].
  cbn [arr_props get]. destruct i as [|i'].
  - rewrite Nat.add_0_r, String.eqb_refl. now injection H as ->.
  - assert (E : String.eqb (dec (j + S i')) (dec j) = false).
    { apply String.eqb_neq. intros Heq. apply dec_inj in Heq. lia. }
    rewrite E. replace (j + S i') with (S j + i') by lia. now apply IH.
Qed.

Lemma array_length_arr_props (l : list jsvalue) :
  forall j, array_length (arr_props j l)
            = match l with [] => 0 | _ => j + List.length l end.
Proof.
  induction l as [|y r IH]; intros j; [reflexivity|].
  cbn [arr_props array_length fold_right fst]. rewrite index_of_key_dec.
  fold (array_length (arr_props (S j) r)). rewrite IH.
  destruct r; cbn [List.length]; lia.
Qed.

Lemma entries_of_seq (d : list (string * jsvalue)) (l : list jsvalue) :
  forall j,
    (forall i x, nth_error l i = Some x -> get (dec (j + i)) d = Some x) ->
    flat_map (fun i => match get (dec i) d with
                       | Some v => [(i, v)]
                       | None => []
                       end) (seq j (List.length l))
    = mapi_from pair j l.
Proof.
  induction l as [|y r IH]; intros j H; [reflexivity|].
  cbn [List.length seq flat_map mapi_from].
  rewrite <- (Nat.add_0_r j) at 1. rewrite (H 0 y eq_refl). cbn [app]. f_equal.
  apply IH. intros i x Hi. replace (S j + i) with (j + S i) by lia. now apply H.
Qed.

Lemma array_entries_arr_props (l : list jsvalue) :
  array_entries (arr_props 0 l) = mapi_from pair 0 l.
Proof.
  unfold array_entries. rewrite array_length_arr_props.
  destruct l as [|y r]; [reflexivity|].
  change (0 + List.length (y :: r)) with (List.length (y :: r)).
  apply entries_of_seq. intros i x H. now apply get_arr_props.
Qed.

Lemma items_conform_spec (ok : jsvalue -> bool) (d : list (string * jsvalue)) :
  forall i, items_conform ok i d = true ->
            d = arr_props i (map snd d) /\ Forall (fun x => ok x = true) (map snd d).
Proof.
  induction d as [|[k v] r IH]; intros i H; [split; [reflexivity | constructor]|].
  cbn [items_conform] in H. apply andb_prop in H as [H Hr].
  apply andb_prop in H as [Hk Hv]. apply String.eqb_eq in Hk. subst k.
  destruct (IH (S i) Hr) as [E F]. cbn [map snd arr_props]. split.
  - now rewrite <- E.
  - now constructor.
Qed.

Lemma keys_arr_props (l : list jsvalue) :
  forall i, keys (arr_props i l) = map dec (seq i (List.length l)).
Proof.
  induction l as [|y r IH]; intros i; [reflexivity|].
  cbn [arr_props keys map fst List.length seq]. f_equal. apply IH.
Qed.

Lemma nodupb_dec_seq (n : nat) : forall i, nodupb (map dec (seq i n)) = true.
Proof.
  induction n as [|n IH]; intros i; [reflexivity|].
  cbn [seq map nodupb]. rewrite IH, andb_true_r. apply negb_true_iff.
  assert (H : forall j m, i < j -> existsb (String.eqb (dec i)) (map dec (seq j m)) = false).
  { intros j m. revert j. induction m as [|m IHm]; intros j Hj; [reflexivity|].
    cbn [seq map existsb]. rewrite IHm by lia.
    assert (E : String.eqb (dec i) (dec j) = false).
    { apply String.eqb_neq. intros Heq. apply dec_inj in Heq. lia. }
    now rewrite E. }
  apply H. lia.
Qed.

Lemma map_arr_props (f : jsvalue -> jsvalue) (l : list jsvalue) :
  forall i, map (fun kv => (fst kv, f (snd kv))) (arr_props i l) = arr_props i (map f l).
Proof.
  induction l as [|y r IH]; intros i; [reflexivity|].
  cbn [arr_props map fst snd]. now rewrite IH.
Qed.

(** ** The writes of composite fields *)

Lemma writes_app (B : Builtins) (a b : list node) :
  writes B (a ++ b)%list = (writes B a ++ writes B b)%list.
Proof. apply map_app. Qed.

Lemma safe_key_facts (k : string) :
  safe_key k = true ->
  k <> "" /\ has_char "."%char k = false /\ has_char "["%char k = false
  /\ is_numeric k = false.
Proof.
  unfold safe_key. intros H.
  apply andb_prop in H as [H H4]. apply andb_prop in H as [H H3].
  apply andb_prop in H as [H1 H2].
  apply negb_true_iff in H2, H3, H4.
  repeat split; try assumption.
  - destruct k; [discriminate | discriminate].
  - destruct k; [reflexivity | exact H4].
Qed.

Lemma sapp_nonempty_l (a b : string) : a <> "" -> a ++ b <> "".
Proof. destruct a; [congruence | discriminate]. Qed.

Lemma render_props_writes (B : Builtins) (D : jsvalue) (req : option (list string))
      (ps : list (string * schema)) :
  Forall (fun kp =>
            safe_key (fst kp) = true
            /\ field_writes B (renderField B (snd kp)) (prop D (fst kp))
                            (flatten (canon (snd kp) (prop D (fst kp))))) ps ->
  forall P n,
    P <> "" ->
    exists fields n',
      render_props (map (fun kp => (fst kp, renderField B (snd kp))) ps) (prop D) P req n
      = Ok (fields, n')
      /\ Forall (fun el => data_path B el <> "") (flat_map controls_in fields)
      /\ writes B (flat_map controls_in fields)
         = map (fun w => ((path_parts P ++ fst w)%list, snd w))
               (flatten (VObj false
                              (map (fun kp => (fst kp, canon (snd kp) (prop D (fst kp))))
                                   ps))).
Proof.
  induction 1 as [|[k p] r [Hk Hf] Hr IH]; intros P n HP.
  - exists [], n. repeat split. constructor.
  - cbn [fst snd] in Hk, Hf.
    destruct (safe_key_facts k Hk) as (Hne & Hdot & Hbr & _).
    destruct (Hf k (P ++ "." ++ k) (includes req k) n (sapp_nonempty_l _ _ HP))
      as (x & n1 & Hx & Hxp & Hxw).
    destruct (IH P n1 HP) as (xs & n2 & Hxs & Hxsp & Hxsw).
    exists (x :: xs), n2. split; [|split].
    + cbn [map render_props fst snd]. unfold mbind at 1. rewrite Hx.
      unfold mbind at 1. rewrite Hxs. reflexivity.
    + cbn [flat_map]. apply Forall_app. now split.
    + cbn [flat_map]. rewrite writes_app, Hxw, Hxsw.
      cbn [map flatten flat_map fst snd]. rewrite map_app, map_map. f_equal.
      apply map_ext. intros w. cbn [fst snd].
      rewrite path_parts_app_key by assumption.
      now rewrite <- app_assoc.
Qed.

Lemma renderArrayItem_controls (field : renderer) (itemLabel : string) (x : jsvalue)
      (path : string) (index n n' : nat) (item : node) :
  renderArrayItem field itemLabel x path index None n = Ok (item, n') ->
  exists itemContent,
    field itemLabel x path false n = Ok (itemContent, n')
    /\ controls_in item = controls_in itemContent.
Proof.
  unfold renderArrayItem, mbind, ret. intros H.
  destruct (field itemLabel x path false n) as [[c k]|]; [|discriminate].
  injection H as <- <-. exists c. split; [reflexivity|].
  rewrite controls_in_elem. cbn [flat_map].
  change (controls_in (Elem "button" _ _)) with (@nil node).
  cbn [app]. now rewrite app_nil_r.
Qed.

Lemma render_items_writes (B : Builtins) (field : renderer)
      (canon_item : jsvalue -> jsvalue) (its : list jsvalue) :
  Forall (fun x => field_writes B field x (flatten (canon_item x))) its ->
  forall P i n,
    P <> "" ->
    exists nodes n',
      render_items B field None P (mapi_from pair i its) n = Ok (nodes, n')
      /\ Forall (fun el => data_path B el <> "") (flat_map controls_in nodes)
      /\ writes B (flat_map controls_in nodes)
         = map (fun w => ((path_parts P ++ fst w)%list, snd w))
               (flatten (VObj true (arr_props i (map canon_item its)))).
Proof.
  induction 1 as [|x r Hf Hr IH]; intros P i n HP.
  - exists [], n. repeat split. constructor.
  - destruct (Hf ("Item " ++ dec (i + 1)) (P ++ "[" ++ dec i ++ "]") false n
                 (sapp_nonempty_l _ _ HP))
      as (c & n1 & Hc & Hcp & Hcw).
    destruct (IH P (S i) n1 HP) as (xs & n2 & Hxs & Hxsp & Hxsw).
    eexists (_ :: xs), n2. split; [|split].
    + cbn [mapi_from render_items]. unfold mbind at 1.
      unfold render_item, renderArrayItem. unfold mbind at 1. rewrite Hc.
      unfold ret at 1. unfold mbind at 1. rewrite Hxs. reflexivity.
    + cbn [flat_map]. apply Forall_app. split; [|exact Hxsp].
      rewrite controls_in_elem. cbn [flat_map].
      change (controls_in (Elem "button" _ _)) with (@nil node).
      cbn [app]. now rewrite app_nil_r.
    + cbn [flat_map]. rewrite writes_app, Hxsw.
      rewrite controls_in_elem. cbn [flat_map is_control tag_of String.eqb Ascii.eqb
                                              Bool.eqb orb andb].
      change (controls_in (Elem "button" _ _)) with (@nil node).
      cbn [app]. rewrite app_nil_r, Hcw.
      cbn [map arr_props flatten flat_map fst snd]. rewrite map_app, map_map. f_equal.
      apply map_ext. intros w. cbn [fst snd].
      rewrite path_parts_app_index. now rewrite <- app_assoc.
Qed.

(** ** The writes of a rendered field *)

Lemma schema_induction (P : schema -> Prop) :
  (forall s,
      match properties s with
      | Some ps => Forall (fun kp => P (snd kp)) ps
      | None => True
      end ->
      match items s with Some it => P it | None => True end ->
      P s) ->
  forall s, P s.
Proof.
  intros H. fix IH 1. intros s. apply H.
  - destruct s as [? props ? ? ? ? ? ? ? ? ? ? ? ? ? ? ? ? ?]. cbn [properties].
    destruct props as [ps|]; [|exact I].
    induction ps as [|kp r IHr]; constructor; [apply IH | exact IHr].
  - destruct s as [? ? its ? ? ? ? ? ? ? ? ? ? ? ? ? ? ? ?]. cbn [items].
    destruct its as [it|]; [apply IH | exact I].
Qed.

Lemma conforms_unfold (B : Builtins) (s : schema) (D : jsvalue) :
  conforms B s D
  = match anyOf s, oneOf s with
    | None, None =>
        match enum s with
        | Some vs =>
            match D with
            | VStr str => existsb (fun v => String.eqb (String_of B v) str) vs
            | _ => false
            end
        | None =>
            match schemaType s with
            | Some t =>
                if String.eqb t "string" then
                  match D with VStr _ => true | _ => false end
                else if String.eqb t "number" || String.eqb t "integer" then
                  match D with
                  | VNum n => num_same (Number B (num_to_string B n)) n
                              && nonempty (num_to_string B n)
                  | _ => false
                  end
                else if String.eqb t "boolean" then
                  match D with VBool _ => true | _ => false end
                else if String.eqb t "object" then
                  match properties s, D with
                  | Some ps, VObj false d =>
                      nonnil ps && Nat.eqb (List.length d) (List.length ps)
                      && nodupb (keys ps)
                      && forallb (fun kp =>
                                    safe_key (fst kp)
                                    && match get (fst kp) d with
                                       | Some v => conforms B (snd kp) v
                                       | None => false
                                       end) ps
                  | _, _ => false
                  end
                else if String.eqb t "array" then
                  match D with
                  | VObj true d =>
                      nonnil d
                      && items_conform
                           (fun v => match items s with
                                     | Some it => conforms B it v
                                     | None => match v with VStr _ => true | _ => false end
                                     end) 0 d
                  | _ => false
                  end
                else false
            | None => false
            end
        end
    | _, _ => false
    end.
Proof. destruct s; reflexivity. Qed.

Lemma canon_unfold (s : schema) (D : jsvalue) :
  canon s D
  = match enum s with
    | Some _ => D
    | None =>
        match schemaType s with
        | Some t =>
            if String.eqb t "object" then
              match properties s with
              | Some ps =>
                  VObj false (map (fun kp => (fst kp, canon (snd kp) (prop D (fst kp)))) ps)
              | None => D
              end
            else if String.eqb t "array" then
              match D, items s with
              | VObj true d, Some it =>
                  VObj true (map (fun kv => (fst kv, canon it (snd kv))) d)
              | _, _ => D
              end
            else D
        | None => D
        end
    end.
Proof. destruct s; reflexivity. Qed.

(** What the conformance of an object's children gives for each child. *)
Lemma children_conform (B : Builtins) (Q : schema -> jsvalue -> Prop)
      (d : list (string * jsvalue)) (ps : list (string * schema)) :
  Forall (fun kp => forall D, conforms B (snd kp) D = true -> Q (snd kp) D) ps ->
  forallb (fun kp => safe_key (fst kp)
                     && match get (fst kp) d with
                        | Some v => conforms B (snd kp) v
                        | None => false
                        end) ps = true ->
  Forall (fun kp => safe_key (fst kp) = true
                    /\ (exists v, get (fst kp) d = Some v)
                    /\ Q (snd kp) (prop (VObj false d) (fst kp))) ps.
Proof.
  induction 1 as [|[k p] r Hp Hr IH]; intros H; [constructor|].
  cbn [forallb fst snd] in H. apply andb_prop in H as [Hk Hrest].
  apply andb_prop in Hk as [Hs Hv].
  constructor; [|now apply IH]. cbn [fst snd prop].
  destruct (get k d) as [v|]; [|discriminate].
  split; [exact Hs|]. split; [eauto|]. now apply Hp.
Qed.

Lemma default_item_field_writes (B : Builtins) (str : string) :
  field_writes B (default_item_field B) (VStr str) (flatten (VStr str)).
Proof.
  intros key P required n HP. unfold default_item_field, mbind, uniqueId, ret.
  eexists _, _. split; [reflexivity|].
  destruct (string_control_facts B (P ++ "-" ++ dec (S n)) string_schema str P required)
    as (H1 & H2 & H3).
  eapply single_control; [|exact H2 | exact H3 | exact HP].
  unfold renderStringField. rewrite controls_in_leaf_field. exact H1.
Qed.

Lemma controls_in_array_field (B : Builtins) (fieldLabel : string) (s : schema)
      (path : string) (required : bool) (rendered : list node) :
  controls_in
    (Elem "fieldset" [("class", VStr "schema-array"); ("data-path", VStr path)]
          [legend_of fieldLabel required; description_line s;
           Elem "div" [("class", VStr "schema-array-items"); ("data-path", VStr path)]
                rendered;
           add_controls B None path; array_constraints B s])
  = flat_map controls_in rendered.
Proof.
  rewrite controls_in_elem. cbn [flat_map].
  rewrite controls_in_legend, controls_in_description.
  rewrite (controls_in_elem "div").
  change (controls_in (add_controls B None path)) with (@nil node).
  assert (E : controls_in (array_constraints B s) = []).
  { unfold array_constraints. destruct (minItems s), (maxItems s); reflexivity. }
  rewrite E. cbn. now rewrite !app_nil_r.
Qed.

Lemma string_eqb_true (a b : string) : String.eqb a b = true -> a = b.
Proof. apply String.eqb_eq. Qed.

(** The controls that [renderField] produces for conforming data write the
    leaves of that data, in schema order, below the path of the field. *)
Lemma conforms_field_writes (B : Builtins) (s : schema) :
  forall D, conforms B s D = true ->
            field_writes B (renderField B s) D (flatten (canon s D)).
Proof.
  induction s as [s IHprops IHitems] using schema_induction.
  intros D Hc key P required n HP.
  rewrite conforms_unfold in Hc.
  destruct (anyOf s) eqn:Ha; [discriminate|].
  destruct (oneOf s) eqn:Ho; [discriminate|].
  rewrite (renderField_plain B s key D P required n Ha Ho). cbv zeta.
  rewrite canon_unfold.
  destruct (enum s) as [vs|] eqn:He.
  { (* enum *)
    destruct D as [| | | |str|]; try discriminate.
    destruct (choice_field_facts B (P ++ "-" ++ dec (S n)) (getLabel key s) s vs str P
                                 required Hc) as (ctl & H1 & H2 & H3).
    eexists _, _. split; [reflexivity|].
    eapply single_control; eassumption. }
  destruct (schemaType s) as [t|] eqn:Ht; [|discriminate].
  destruct (String.eqb t "string") eqn:E1.
  { apply string_eqb_true in E1. subst t. cbn [String.eqb Ascii.eqb Bool.eqb andb].
    destruct D as [| | | |str|]; try discriminate.
    destruct (string_control_facts B (P ++ "-" ++ dec (S n)) s str P required)
      as (H1 & H2 & H3).
    eexists _, _. split; [reflexivity|].
    eapply single_control; [|exact H2 | exact H3 | exact HP].
    unfold renderStringField. rewrite controls_in_leaf_field. exact H1. }
  destruct (String.eqb t "number" || String.eqb t "integer") eqn:E2.
  { assert (Ht' : t = "number" \/ t = "integer").
    { apply orb_true_iff in E2 as [E | E]; apply string_eqb_true in E; auto. }
    destruct D as [| | |num| |]; try discriminate.
    apply andb_prop in Hc as [Hs Hn].
    destruct (number_field_facts B (P ++ "-" ++ dec (S n)) (getLabel key s) t s num P
                                 required Ht' Hs Hn) as (ctl & H1 & H2 & H3).
    eexists _, _. split; [reflexivity|].
    assert (Hleaf : (if String.eqb t "object"
                     then match properties s with
                          | Some ps =>
                              VObj false
                                   (map (fun kp => (fst kp, canon (snd kp)
                                                                  (prop (VNum num) (fst kp))))
                                        ps)
                          | None => VNum num
                          end
                     else if String.eqb t "array"
                          then VNum num
                          else VNum num) = VNum num).
    { destruct Ht' as [-> | ->]; reflexivity. }
    rewrite Hleaf. eapply single_control; eassumption. }
  destruct (String.eqb t "boolean") eqn:E3.
  { apply string_eqb_true in E3. subst t. cbn [String.eqb Ascii.eqb Bool.eqb andb].
    destruct D as [| |b| | |]; try discriminate.
    destruct (boolean_field_facts B (P ++ "-" ++ dec (S n)) (getLabel key s) s b P required)
      as (ctl & H1 & H2 & H3).
    eexists _, _. split; [reflexivity|].
    eapply single_control; eassumption. }
  destruct (String.eqb t "object") eqn:E4.
  { (* object *)
    destruct (properties s) as [ps|] eqn:Hps; [|discriminate].
    destruct D as [| | | | |[|] d]; try discriminate.
    apply andb_prop in Hc as [Hc Hall].
    pose proof (children_conform B
                  (fun p v => field_writes B (renderField B p) v (flatten (canon p v)))
                  d ps IHprops Hall) as Hch.
    assert (Hch' : Forall (fun kp =>
                             safe_key (fst kp) = true
                             /\ field_writes B (renderField B (snd kp))
                                             (prop (VObj false d) (fst kp))
                                             (flatten (canon (snd kp)
                                                             (prop (VObj false d) (fst kp)))))
                          ps).
    { eapply Forall_impl; [|exact Hch]. intros kp (H1 & _ & H3). now split. }
    destruct (render_props_writes B (VObj false d) (required_of s) ps Hch' P (S n) HP)
      as (fields & n' & Hr & Hp & Hw).
    exists (Elem "fieldset" [("class", VStr "schema-object"); ("data-path", VStr P)]
                 (legend_of (getLabel key s) required :: description_line s :: fields)),
           n'.
    assert (Hctl : controls_in
                     (Elem "fieldset"
                           [("class", VStr "schema-object"); ("data-path", VStr P)]
                           (legend_of (getLabel key s) required
                                      :: description_line s :: fields))
                   = flat_map controls_in fields).
    { rewrite controls_in_elem. cbn [flat_map].
      now rewrite controls_in_legend, controls_in_description. }
    split; [|split].
    - unfold renderObjectField. cbn [truthy]. unfold mbind. rewrite Hr. reflexivity.
    - now rewrite Hctl.
    - now rewrite Hctl. }
  destruct (String.eqb t "array") eqn:E5; [|discriminate].
  (* array *)
  destruct D as [| | | | |[|] d]; try discriminate.
  apply andb_prop in Hc as [Hnn Hit].
  apply items_conform_spec in Hit as [Hd Hok].
  set (l := map snd d) in *.
  destruct (items s) as [it|] eqn:Hits.
  - (* declared item schema *)
    assert (Hunion : anyOf it = None /\ oneOf it = None).
    { destruct l as [|x r] eqn:El.
      - rewrite Hd in Hnn. discriminate.
      - inversion Hok as [|? ? Hx _]; subst. rewrite conforms_unfold in Hx.
        destruct (anyOf it); [discriminate|]. destruct (oneOf it); [discriminate|].
        now split. }
    destruct Hunion as [Hai Hoi]. rewrite Hai, Hoi.
    assert (HF : Forall (fun x => field_writes B (renderField B it) x (flatten (canon it x))) l).
    { eapply Forall_impl; [|exact Hok]. intros x Hx. now apply IHitems. }
    destruct (render_items_writes B (renderField B it) (canon it) l HF P 0 (S n) HP)
      as (nodes & n' & Hr & Hp & Hw).
    eexists _, n'. split; [|split].
    + unfold renderArrayField, forEach_entries. cbn [truthy].
      rewrite Hd at 1. rewrite array_entries_arr_props.
      unfold mbind. rewrite Hr. reflexivity.
    + now rewrite controls_in_array_field.
    + rewrite controls_in_array_field, Hw. rewrite Hd at 1. now rewrite map_arr_props.
  - (* items absent: strings *)
    assert (HF : Forall (fun x => field_writes B (default_item_field B) x
                                               (flatten ((fun v => v) x))) l).
    { eapply Forall_impl; [|exact Hok]. intros x Hx. destruct x; try discriminate.
      apply default_item_field_writes. }
    destruct (render_items_writes B (default_item_field B) (fun v => v) l HF P 0 (S n) HP)
      as (nodes & n' & Hr & Hp & Hw).
    eexists _, n'. split; [|split].
    + unfold renderArrayField, forEach_entries. cbn [truthy].
      rewrite Hd at 1. rewrite array_entries_arr_props.
      unfold mbind. rewrite Hr. reflexivity.
    + now rewrite controls_in_array_field.
    + rewrite controls_in_array_field, Hw. rewrite map_id. now rewrite <- Hd.
Qed.

(** ** Conforming data is well formed and deep-equal to its schema order *)

Lemma keys_map_fst {A C : Type} (f : string * A -> C) (ps : list (string * A)) :
  keys (map (fun kp => (fst kp, f kp)) ps) = keys ps.
Proof. unfold keys. rewrite map_map. now apply map_ext. Qed.

Lemma deep_equal_obj (ia ib : bool) (da db : list (string * jsvalue)) :
  deep_equal (VObj ia da) (VObj ib db)
  = Bool.eqb ia ib && Nat.eqb (List.length da) (List.length db) && nodupb (keys da)
    && forallb (fun kx => match get (fst kx) db with
                          | Some y => deep_equal (snd kx) y
                          | None => false
                          end) da.
Proof.
  cbn [deep_equal]. f_equal.
  induction da as [|[k x] r IH]; [reflexivity|].
  cbn [forallb fst snd]. now rewrite IH.
Qed.

Lemma in_arr_props (l : list jsvalue) :
  forall j kx, In kx (arr_props j l) ->
               exists i x, nth_error l i = Some x /\ kx = (dec (j + i), x).
Proof.
  induction l as [|y r IH]; intros j kx H; [contradiction|].
  cbn [arr_props] in H. destruct H as [<- | H].
  - exists 0, y. split; [reflexivity|]. now rewrite Nat.add_0_r.
  - destruct (IH (S j) kx H) as (i & x & Hn & ->).
    exists (S i), x. split; [exact Hn|]. f_equal. f_equal. lia.
Qed.

Lemma length_arr_props (l : list jsvalue) :
  forall j, List.length (arr_props j l) = List.length l.
Proof. induction l; intros j; cbn; [reflexivity | now rewrite IHl]. Qed.

Lemma deep_equal_array (f : jsvalue -> jsvalue) (l : list jsvalue) :
  Forall (fun x => deep_equal (f x) x = true) l ->
  deep_equal (VObj true (arr_props 0 (map f l))) (VObj true (arr_props 0 l)) = true.
Proof.
  intros H. rewrite deep_equal_obj.
  rewrite !length_arr_props, length_map, Nat.eqb_refl.
  rewrite keys_arr_props, nodupb_dec_seq. cbn [Bool.eqb andb].
  apply forallb_forall. intros kx Hin.
  apply in_arr_props in Hin as (i & y & Hn & ->). cbn [fst snd].
  destruct (nth_error l i) as [x|] eqn:Hx.
  - rewrite (map_nth_error f i l Hx) in Hn. injection Hn as <-.
    rewrite (get_arr_props l 0 i x Hx).
    rewrite Forall_forall in H. apply H. eapply nth_error_In; eassumption.
  - apply nth_error_None in Hx.
    assert (Hlt : i < List.length (map f l))
      by (apply nth_error_Some; congruence).
    rewrite length_map in Hlt. lia.
Qed.

Lemma deep_equal_object (B : Builtins) (Q : schema -> jsvalue -> Prop)
      (c : schema -> jsvalue -> jsvalue) (d : list (string * jsvalue))
      (ps : list (string * schema)) :
  Nat.eqb (List.length d) (List.length ps) = true ->
  nodupb (keys ps) = true ->
  Forall (fun kp => safe_key (fst kp) = true
                    /\ (exists v, get (fst kp) d = Some v)
                    /\ deep_equal (c (snd kp) (prop (VObj false d) (fst kp)))
                                  (prop (VObj false d) (fst kp)) = true) ps ->
  deep_equal (VObj false (map (fun kp => (fst kp, c (snd kp) (prop (VObj false d) (fst kp))))
                              ps))
             (VObj false d) = true.
Proof.
  intros Hlen Hnd Hall. rewrite deep_equal_obj.
  rewrite length_map. apply Nat.eqb_eq in Hlen. rewrite <- Hlen, Nat.eqb_refl.
  rewrite (keys_map_fst (fun kp => c (snd kp) (prop (VObj false d) (fst kp)))), Hnd.
  cbn [Bool.eqb andb]. apply forallb_forall. intros kx Hin.
  apply in_map_iff in Hin as ([k p] & <- & Hin). cbn [fst snd].
  rewrite Forall_forall in Hall. destruct (Hall _ Hin) as (_ & [v Hv] & Hde).
  cbn [fst snd prop] in Hv, Hde |- *. rewrite Hv in Hde |- *. exact Hde.
Qed.

Lemma num_eqb_refl (q : Q) : num_eqb (Num q) (Num q) = true.
Proof. cbn. apply Qeq_bool_iff. reflexivity. Qed.

Lemma conforms_deep_equal (B : Builtins) (s : schema) :
  forall D, conforms B s D = true -> deep_equal (canon s D) D = true.
Proof.
  induction s as [s IHprops IHitems] using schema_induction.
  intros D Hc. rewrite conforms_unfold in Hc. rewrite canon_unfold.
  destruct (anyOf s); [discriminate|]. destruct (oneOf s); [discriminate|].
  destruct (enum s).
  { destruct D; try discriminate. apply String.eqb_refl. }
  destruct (schemaType s) as [t|]; [|discriminate].
  destruct (String.eqb t "string") eqn:E1.
  { apply string_eqb_true in E1. subst t. cbn [String.eqb Ascii.eqb Bool.eqb andb].
    destruct D; try discriminate. apply String.eqb_refl. }
  destruct (String.eqb t "number" || String.eqb t "integer") eqn:E2.
  { assert (E : (String.eqb t "object" = false) /\ (String.eqb t "array" = false)).
    { apply orb_true_iff in E2 as [E | E]; apply string_eqb_true in E; subst t;
        split; reflexivity. }
    destruct E as [-> ->]. destruct D as [| | |[|q]| |]; try discriminate;
      [reflexivity | apply num_eqb_refl]. }
  destruct (String.eqb t "boolean") eqn:E3.
  { apply string_eqb_true in E3. subst t. cbn [String.eqb Ascii.eqb Bool.eqb andb].
    destruct D as [| |[|]| | |]; try discriminate; reflexivity. }
  destruct (String.eqb t "object") eqn:E4.
  { destruct (properties s) as [ps|]; [|discriminate].
    destruct D as [| | | | |[|] d]; try discriminate.
    apply andb_prop in Hc as [Hc Hall]. apply andb_prop in Hc as [Hc Hnd].
    apply andb_prop in Hc as [_ Hlen].
    apply (deep_equal_object B (fun _ _ => True)); try assumption.
    pose proof (children_conform B (fun p v => deep_equal (canon p v) v = true)
                                 d ps IHprops Hall) as Hch.
    exact Hch. }
  destruct (String.eqb t "array") eqn:E5; [|discriminate].
  destruct D as [| | | | |[|] d]; try discriminate.
  apply andb_prop in Hc as [_ Hit].
  apply items_conform_spec in Hit as [Hd Hok].
  destruct (items s) as [it|].
  - rewrite Hd at 1 2. rewrite map_arr_props. apply deep_equal_array.
    eapply Forall_impl; [|exact Hok]. intros x Hx. now apply IHitems.
  - rewrite Hd. rewrite <- (map_id (map snd d)) at 1.
    apply deep_equal_array.
    eapply Forall_impl; [|exact Hok]. intros x Hx.
    destruct x; try discriminate. apply String.eqb_refl.
Qed.

Lemma safe_key_not_numeric (k : string) : safe_key k = true -> is_numeric k = false.
Proof. intros H. now destruct (safe_key_facts k H) as (_ & _ & _ & ?). Qed.

Lemma well_formed_array (f : jsvalue -> jsvalue) (l : list jsvalue) :
  l <> [] ->
  Forall (fun x => well_formed (f x) = true) l ->
  well_formed (VObj true (arr_props 0 (map f l))) = true.
Proof.
  intros Hne H. cbn [well_formed].
  rewrite keys_arr_props, nodupb_dec_seq.
  assert (Hnn : nonnil (arr_props 0 (map f l)) = true)
    by (destruct l; [congruence | reflexivity]).
  rewrite Hnn. cbn [andb]. apply forallb_forall. intros kx Hin.
  apply in_arr_props in Hin as (i & y & Hn & ->). cbn [fst snd].
  rewrite dec_numeric. cbn [Bool.eqb andb].
  destruct (nth_error l i) as [x|] eqn:Hx.
  - rewrite (map_nth_error f i l Hx) in Hn. injection Hn as <-.
    rewrite Forall_forall in H. apply H. eapply nth_error_In; eassumption.
  - apply nth_error_None in Hx.
    assert (Hlt : i < List.length (map f l))
      by (apply nth_error_Some; congruence).
    rewrite length_map in Hlt. lia.
Qed.

Lemma well_formed_object (c : schema -> jsvalue -> jsvalue) (D : jsvalue)
      (ps : list (string * schema)) :
  nonnil ps = true -> nodupb (keys ps) = true ->
  Forall (fun kp => safe_key (fst kp) = true
                    /\ well_formed (c (snd kp) (prop D (fst kp))) = true) ps ->
  well_formed (VObj false (map (fun kp => (fst kp, c (snd kp) (prop D (fst kp)))) ps)) = true.
Proof.
  intros Hnn Hnd Hall. cbn [well_formed].
  rewrite (keys_map_fst (fun kp => c (snd kp) (prop D (fst kp)))), Hnd.
  assert (Hn : nonnil (map (fun kp => (fst kp, c (snd kp) (prop D (fst kp)))) ps) = true)
    by (destruct ps; [discriminate | reflexivity]).
  rewrite Hn. cbn [andb]. apply forallb_forall. intros kx Hin.
  apply in_map_iff in Hin as ([k p] & <- & Hin). cbn [fst snd].
  rewrite Forall_forall in Hall. destruct (Hall _ Hin) as (Hs & Hw).
  cbn [fst snd] in Hs, Hw. rewrite (safe_key_not_numeric k Hs), Hw. reflexivity.
Qed.

Lemma conforms_well_formed (B : Builtins) (s : schema) :
  forall D, conforms B s D = true -> well_formed (canon s D) = true.
Proof.
  induction s as [s IHprops IHitems] using schema_induction.
  intros D Hc. rewrite conforms_unfold in Hc. rewrite canon_unfold.
  destruct (anyOf s); [discriminate|]. destruct (oneOf s); [discriminate|].
  destruct (enum s).
  { destruct D; try discriminate. reflexivity. }
  destruct (schemaType s) as [t|]; [|discriminate].
  destruct (String.eqb t "string") eqn:E1.
  { apply string_eqb_true in E1. subst t. cbn [String.eqb Ascii.eqb Bool.eqb andb].
    destruct D; try discriminate. reflexivity. }
  destruct (String.eqb t "number" || String.eqb t "integer") eqn:E2.
  { assert (E : (String.eqb t "object" = false) /\ (String.eqb t "array" = false)).
    { apply orb_true_iff in E2 as [E | E]; apply string_eqb_true in E; subst t;
        split; reflexivity. }
    destruct E as [-> ->]. destruct D; try discriminate. reflexivity. }
  destruct (String.eqb t "boolean") eqn:E3.
  { apply string_eqb_true in E3. subst t. cbn [String.eqb Ascii.eqb Bool.eqb andb].
    destruct D; try discriminate; reflexivity. }
  destruct (String.eqb t "object") eqn:E4.
  { destruct (properties s) as [ps|]; [|discriminate].
    destruct D as [| | | | |[|] d]; try discriminate.
    apply andb_prop in Hc as [Hc Hall]. apply andb_prop in Hc as [Hc Hnd].
    apply andb_prop in Hc as [Hnn _].
    apply well_formed_object; try assumption.
    pose proof (children_conform B (fun p v => well_formed (canon p v) = true)
                                 d ps IHprops Hall) as Hch.
    eapply Forall_impl; [|exact Hch]. intros kp (H1 & _ & H3). now split. }
  destruct (String.eqb t "array") eqn:E5; [|discriminate].
  destruct D as [| | | | |[|] d]; try discriminate.
  apply andb_prop in Hc as [Hnn Hit].
  apply items_conform_spec in Hit as [Hd Hok].
  assert (Hne : map snd d <> []) by (destruct d; [discriminate | discriminate]).
  destruct (items s) as [it|].
  - rewrite Hd at 1. rewrite map_arr_props. apply well_formed_array; [exact Hne|].
    eapply Forall_impl; [|exact Hok]. intros x Hx. now apply IHitems.
  - rewrite Hd. rewrite <- (map_id (map snd d)).
    apply well_formed_array; [exact Hne|].
    eapply Forall_impl; [|exact Hok]. intros x Hx.
    destruct x; try discriminate. reflexivity.
Qed.

(** *** The root of the form *)

Lemma run_flatten_top (a : bool) (d : list (string * jsvalue)) :
  well_formed (VObj a d) = true ->
  run (VObj a []) (flatten (VObj a d)) = Ok (VObj a d).
Proof.
  intros Hw.
  pose proof (run_flatten (VObj a d) Hw false [] "k" eq_refl) as Hrun.
  pose proof (flatten_nonnil _ Hw) as Hne.
  pose proof (flatten_container_paths a d) as Hpaths.
  cbn [well_formed] in Hw.
  apply andb_prop in Hw as [_ Hall].
  destruct d as [|[k1 x1] r]; [now contradiction Hne|].
  destruct (flatten (VObj a ((k1, x1) :: r))) as [|[p v] ws] eqn:Efl; [congruence|].
  assert (Hhead : exists prest, p = k1 :: prest).
  { cbn [flatten flat_map fst snd] in Efl.
    cbn [forallb fst snd] in Hall. apply andb_prop in Hall as [Hx1 _].
    apply andb_prop in Hx1 as [_ Hx1].
    pose proof (flatten_nonnil x1 Hx1) as Hn1.
    destruct (flatten x1) as [|w1 ws1]; [congruence|].
    cbn in Efl. injection Efl as <- _ _. eauto. }
  destruct Hhead as [prest ->].
  inversion Hpaths as [|? ? _ Hws]; subst.
  rewrite (run_under_fresh "k" k1 prest v ws Hws false [] eq_refl) in Hrun.
  assert (Hkind : is_numeric k1 = a).
  { cbn [forallb fst snd] in Hall. apply andb_prop in Hall as [Hx1 _].
    apply andb_prop in Hx1 as [Hk _]. now apply Bool.eqb_prop in Hk. }
  rewrite Hkind in Hrun.
  destruct (run (VObj a []) ((k1 :: prest, v) :: ws)) as [c'|]; [|discriminate].
  cbn [bind set app] in Hrun. now injection Hrun as ->.
Qed.

Lemma root_props_writes (B : Builtins) (D : jsvalue) (req : option (list string))
      (ps : list (string * schema)) :
  nullish D = false ->
  Forall (fun kp =>
            safe_key (fst kp) = true
            /\ field_writes B (renderField B (snd kp)) (prop D (fst kp))
                            (flatten (canon (snd kp) (prop D (fst kp))))) ps ->
  forall n,
    exists fields n',
      render_root_props B req D ps n = Ok (fields, n')
      /\ Forall (fun el => data_path B el <> "") (flat_map controls_in fields)
      /\ writes B (flat_map controls_in fields)
         = flatten (VObj false
                         (map (fun kp => (fst kp, canon (snd kp) (prop D (fst kp)))) ps)).
Proof.
  intros HD. induction 1 as [|[k p] r [Hk Hf] Hr IH]; intros n.
  - exists [], n. repeat split. constructor.
  - cbn [fst snd] in Hk, Hf.
    destruct (safe_key_facts k Hk) as (Hne & Hdot & Hbr & _).
    destruct (Hf k k (includes req k) n Hne) as (x & n1 & Hx & Hxp & Hxw).
    destruct (IH n1) as (xs & n2 & Hxs & Hxsp & Hxsw).
    exists (x :: xs), n2. split; [|split].
    + cbn [render_root_props]. rewrite HD. unfold mbind at 1. rewrite Hx.
      unfold mbind at 1. rewrite Hxs. reflexivity.
    + cbn [flat_map]. apply Forall_app. now split.
    + cbn [flat_map]. rewrite writes_app, Hxw, Hxsw.
      cbn [map flatten flat_map fst snd]. f_equal.
      apply map_ext. intros w. cbn [fst snd].
      now rewrite path_parts_key by assumption.
Qed.

Lemma conforms_root_children (B : Builtins) (Q : schema -> jsvalue -> Prop)
      (HQ : forall p v, conforms B p v = true -> Q p v)
      (d : list (string * jsvalue)) (ps : list (string * schema)) :
  forallb (fun kp => safe_key (fst kp)
                     && match get (fst kp) d with
                        | Some v => conforms B (snd kp) v
                        | None => false
                        end) ps = true ->
  Forall (fun kp => safe_key (fst kp) = true
                    /\ (exists v, get (fst kp) d = Some v)
                    /\ Q (snd kp) (prop (VObj false d) (fst kp))) ps.
Proof.
  apply children_conform. apply Forall_forall. intros kp _ v. apply HQ.
Qed.

Lemma bound_controls_form (a : list (string * jsvalue)) (fields : list node) :
  bound_controls (Elem "form" a fields) = flat_map controls_in fields.
Proof.
  unfold bound_controls. now rewrite descendants_elem, filter_flat_map.
Qed.

Lemma mounted_content (B : Builtins) (s : schema) (D : jsvalue)
      (ps : list (string * schema)) (fields : list node) (n : nat) :
  properties s = Some ps ->
  render_root_props B (required s) D ps 0 = Ok (fields, n) ->
  getData_value B (mounted B s D) = collectFormData B (Elem "form" [("class", VStr "schema-form")] fields).
Proof.
  intros Hps Hr.
  unfold getData_value, mounted, flush_render, set_data, set_schema, new_form.
  cbn [renderQueued _schema _data heap idCounter List.length deref nth app].
  unfold render_content. rewrite Hps. rewrite andb_false_r.
  unfold mbind at 1. rewrite Hr. unfold ret.
  unfold getData, query_form.
  cbn [content flat_map find app tag_of String.eqb Ascii.eqb Bool.eqb andb].
  destruct (collectFormData B _) as [v|]; reflexivity.
Qed.

(** C1 (counterexample to the claim as worded).  An empty array conforms to
    [array of string], yet the form holds no control for it: for the schema
    [{list: array of string}] and the data [{list: []}], [getData()] returns
    [{}], which is not deep-equal to the data. *)
Lemma C1_empty_array_is_lost :
  getData_value DecimalHost (mounted DecimalHost list_schema (obj [("list", arr [])]))
  = Ok (obj [])
  /\ deep_equal (obj []) (obj [("list", arr [])]) = false.
Proof. split; vm_compute; reflexivity. Qed.

(** An optional property that the data leaves out comes back as the empty
    string of its control. *)
Lemma absent_property_example :
  getData_value DecimalHost (mounted DecimalHost (object_of [("name", typed "string")])
                                     (obj []))
  = Ok (obj [("name", VStr "")]).
Proof. vm_compute. reflexivity. Qed.

(** Until the render that an assignment queues has run, [getData()] still
    reads the form of the previous data. *)
Lemma stale_before_render_example :
  getData_value DecimalHost
                (set_data (obj [("name", VStr "new")])
                          (mounted DecimalHost (object_of [("name", typed "string")])
                                   (obj [("name", VStr "old")])))
  = Ok (obj [("name", VStr "old")]).
Proof. vm_compute. reflexivity. Qed.

(** C1 (amended).  For a union-free schema whose root declares children, and
    data that [conforms_root] accepts -- every declared key present and no
    other, property names safe for the path encoding, strings, booleans,
    numbers that the host prints and reads back unchanged, enum strings,
    non-empty objects and non-empty arrays without holes, nested to any
    depth -- when no declared name is one that objects inherit
    ([plain_names]) and every control of the rendered form keeps the text it
    is given ([form_keeps]: no line break in a one-line input, no text for a
    date or time input, the text of a number in a number input, an integer
    within bounds and on a step in a slider), assigning the data and calling
    [getData()] once the queued render has run returns a value that is
    deep-equal to the data. *)
Theorem C1_round_trip (B : Builtins) (s : schema) (D : jsvalue) :
  conforms_root B s D = true ->
  plain_names s = true ->
  form_keeps B (mounted B s D) = true ->
  exists v, getData_value B (mounted B s D) = Ok v /\ deep_equal v D = true.
Proof.
  unfold conforms_root. intros Hc _ _.
  destruct (properties s) as [ps|] eqn:Hps; [|discriminate].
  destruct D as [| | | | |[|] d]; try discriminate.
  apply andb_prop in Hc as [Hc Hall]. apply andb_prop in Hc as [Hc Hnd].
  apply andb_prop in Hc as [Hnn Hlen].
  set (D := VObj false d) in *.
  pose proof (conforms_root_children B
                (fun p v => field_writes B (renderField B p) v (flatten (canon p v)))
                (conforms_field_writes B) d ps Hall) as Hfw.
  pose proof (conforms_root_children B (fun p v => deep_equal (canon p v) v = true)
                (conforms_deep_equal B) d ps Hall) as Hde.
  pose proof (conforms_root_children B (fun p v => well_formed (canon p v) = true)
                (conforms_well_formed B) d ps Hall) as Hwf.
  destruct (root_props_writes B D (required s) ps eq_refl
              (Forall_impl _ (fun kp H => conj (proj1 H) (proj2 (proj2 H))) Hfw) 0)
    as (fields & n & Hr & Hpaths & Hw).
  exists (VObj false (map (fun kp => (fst kp, canon (snd kp) (prop D (fst kp)))) ps)).
  split.
  - rewrite (mounted_content B s D ps fields n Hps Hr).
    unfold collectFormData. rewrite bound_controls_form.
    rewrite (collect_all_run B _ Hpaths), Hw.
    apply run_flatten_top. apply well_formed_object; try assumption.
    eapply Forall_impl; [|exact Hwf]. intros kp (H1 & _ & H3). now split.
  - apply (deep_equal_object B (fun _ _ => True)); assumption.
Qed.

Lemma C1_witness :
  conforms_root DecimalHost customer_schema customer = true
  /\ plain_names customer_schema = true
  /\ form_keeps DecimalHost (mounted DecimalHost customer_schema customer) = true
  /\ exists v, getData_value DecimalHost (mounted DecimalHost customer_schema customer) = Ok v
               /\ deep_equal v customer = true.
Proof.
  split; [vm_compute; reflexivity|]. split; [vm_compute; reflexivity|].
  split; [vm_compute; reflexivity|].
  apply (C1_round_trip DecimalHost customer_schema customer); vm_compute; reflexivity.
Defined.

(** The customer record, collected by evaluation. *)
Lemma round_trip_example :
  getData_value DecimalHost (mounted DecimalHost customer_schema customer) = Ok customer.
Proof. vm_compute. reflexivity. Qed.

(** * Further properties of the code *)

(** ** The variant detector *)

Lemma first_index_spec (test : schema -> bool) (variants : list schema) :
  forall i,
    match first_index test i variants with
    | Some j =>
        i <= j
        /\ (exists v, nth_error variants (j - i) = Some v /\ test v = true)
        /\ (forall k w, k < j - i -> nth_error variants k = Some w -> test w = false)
    | None => forallb (fun v => negb (test v)) variants = true
    end.
Proof.
  induction variants as [|v r IH]; intros i; cbn [first_index].
  - reflexivity.
  - destruct (test v) eqn:E.
    + split; [lia|]. rewrite Nat.sub_diag. split; [exists v; now split|].
      intros k w Hk. lia.
    + specialize (IH (S i)). destruct (first_index test (S i) r) as [j|].
      * destruct IH as (Hle & (w & Hw & Ht) & Hbefore).
        split; [lia|]. split.
        -- exists w. split; [|exact Ht].
           replace (j - i) with (S (j - S i)) by lia. exact Hw.
        -- intros k x Hk Hx. destruct k as [|k].
           ++ cbn in Hx. injection Hx as <-. exact E.
           ++ cbn in Hx. apply (Hbefore k x); [lia | exact Hx].
      * cbn [forallb]. now rewrite E, IH.
Qed.

(** X1.  The index that [detectVariant] returns always names one of the
    candidates when there is at least one: [variants[detectVariant(value,
    variants)]] is never out of range. *)
Theorem detectVariant_index_is_valid (value : jsvalue) (variants : list schema) :
  nonnil variants = true ->
  exists v, nth_error variants (detectVariant value variants) = Some v.
Proof.
  intros Hnn. destruct variants as [|v0 r]; [discriminate|].
  unfold detectVariant. destruct (nullish value); [now exists v0|].
  pose proof (first_index_spec (fun v => const_match value v || type_match value v)
                               (v0 :: r) 0) as H.
  destruct (first_index _ 0 (v0 :: r)) as [j|]; [|now exists v0].
  destruct H as (_ & (v & Hv & _) & _). rewrite Nat.sub_0_r in Hv. now exists v.
Qed.

Lemma detectVariant_index_is_valid_witness :
  nonnil [typed "string"; typed "number"] = true
  /\ exists v, nth_error [typed "string"; typed "number"]
                         (detectVariant (VNum (num_of_Z 3))
                                        [typed "string"; typed "number"]) = Some v.
Proof.
  split; [reflexivity|].
  apply (detectVariant_index_is_valid (VNum (num_of_Z 3))
                                      [typed "string"; typed "number"]).
  reflexivity.
Defined.

(** X2.  For a value that is neither [null] nor [undefined], the detected
    index is that of the first variant that the value matches (by [const]
    or by type and shape), and no earlier variant matches; when no variant
    matches at all the index is 0. *)
Theorem detectVariant_first_match (value : jsvalue) (variants : list schema) :
  nullish value = false ->
  let i := detectVariant value variants in
  (exists v, nth_error variants i = Some v
             /\ variant_matches value v = true
             /\ forall k w, k < i -> nth_error variants k = Some w ->
                            variant_matches value w = false)
  \/ (i = 0 /\ forallb (fun v => negb (variant_matches value v)) variants = true).
Proof.
  intros Hn. cbv zeta. unfold detectVariant. rewrite Hn.
  pose proof (first_index_spec (fun v => const_match value v || type_match value v)
                               variants 0) as H.
  destruct (first_index _ 0 variants) as [j|].
  - left. destruct H as (_ & (v & Hv & Ht) & Hbefore). rewrite Nat.sub_0_r in *.
    exists v. split; [exact Hv|]. split; [exact Ht|]. exact Hbefore.
  - right. split; [reflexivity | exact H].
Qed.

Lemma detectVariant_first_match_witness :
  nullish (VNum (num_of_Z 3)) = false
  /\ detectVariant (VNum (num_of_Z 3)) [typed "string"; typed "number"] = 1
  /\ ((exists v, nth_error [typed "string"; typed "number"]
                           (detectVariant (VNum (num_of_Z 3))
                                          [typed "string"; typed "number"]) = Some v
                 /\ variant_matches (VNum (num_of_Z 3)) v = true
                 /\ forall k w,
                      k < detectVariant (VNum (num_of_Z 3))
                                        [typed "string"; typed "number"] ->
                      nth_error [typed "string"; typed "number"] k = Some w ->
                      variant_matches (VNum (num_of_Z 3)) w = false)
      \/ (detectVariant (VNum (num_of_Z 3)) [typed "string"; typed "number"] = 0
          /\ forallb (fun v => negb (variant_matches (VNum (num_of_Z 3)) v))
                     [typed "string"; typed "number"] = true)).
Proof.
  split; [reflexivity|]. split; [reflexivity|].
  apply (detectVariant_first_match (VNum (num_of_Z 3)) [typed "string"; typed "number"]).
  reflexivity.
Defined.

(** X3.  In the blueprint copy of the detector a variant whose [const]
    equals the value wins over every variant before it that has no such
    [const], whatever the types of those earlier variants. *)
Theorem blueprint_detectVariant_const_first (value : jsvalue) (earlier : list schema)
        (v : schema) (rest : list schema) :
  nullish value = false ->
  forallb (fun e => negb (const_match value e)) earlier = true ->
  const_match value v = true ->
  Blueprint.detectVariant value (earlier ++ v :: rest)%list = List.length earlier.
Proof.
  intros Hn He Hv. unfold Blueprint.detectVariant. rewrite Hn.
  pose proof (first_index_spec (const_match value) (earlier ++ v :: rest)%list 0) as H.
  destruct (first_index (const_match value) 0 (earlier ++ v :: rest)%list) as [j|].
  - destruct H as (_ & (w & Hw & Ht) & Hbefore). rewrite Nat.sub_0_r in *.
    destruct (Nat.lt_trichotomy j (List.length earlier)) as [Hlt | [Heq | Hgt]].
    + exfalso. rewrite nth_error_app1 in Hw by exact Hlt.
      rewrite forallb_forall in He. apply nth_error_In in Hw.
      specialize (He w Hw). rewrite Ht in He. discriminate.
    + exact Heq.
    + exfalso. specialize (Hbefore (List.length earlier) v Hgt).
      rewrite nth_error_app2, Nat.sub_diag in Hbefore by lia.
      specialize (Hbefore eq_refl). congruence.
  - exfalso. rewrite forallb_app in H. apply andb_prop in H as [_ H].
    cbn [forallb] in H. rewrite Hv in H. discriminate.
Qed.

Lemma blueprint_detectVariant_const_first_witness :
  Blueprint.detectVariant (VStr "a") ([typed "string"] ++ const_of None (VStr "a") :: [])%list
  = 1.
Proof.
  apply (blueprint_detectVariant_const_first (VStr "a") [typed "string"]
                                             (const_of None (VStr "a")) []);
    reflexivity.
Defined.

(** ** Default values *)


Lemma get_existsb_keys {A : Type} (k : string) (d : list (string * A)) :
  get k d = None -> existsb (String.eqb k) (keys d) = false.
Proof.
  induction d as [|[k' v] r IH]; [reflexivity|].
  cbn [get keys map fst existsb]. destruct (String.eqb k k'); [discriminate|].
  exact IH.
Qed.






Lemma filter_all {A : Type} (p : A -> bool) (l : list A) :
  (forall x, In x l -> p x = true) -> filter p l = l.
Proof.
  induction l as [|x r IH]; intros H; [reflexivity|].
  cbn [filter]. rewrite (H x (or_introl eq_refl)). f_equal. apply IH.
  intros y Hy. apply H. now right.
Qed.

Lemma existsb_eqb_in (k : string) (l : list string) :
  In k l -> existsb (String.eqb k) l = true.
Proof.
  intros H. apply existsb_exists. exists k. split; [exact H | apply String.eqb_refl].
Qed.




(** ** Labels *)

Lemma underscores_space_before_upper (r : string) :
  all_chars is_alnum r = true ->
  underscores_to_spaces (space_before_upper r) = space_before_upper r.
Proof.
  induction r as [|c r IH]; [reflexivity|].
  cbn [all_chars]. intros H. apply andb_prop in H as [Hc Hr].
  assert (Hu : (Ascii.eqb c "_" || Ascii.eqb c "-")%bool%char = false).
  { destruct (Ascii.eqb c "_"%char) eqn:E1.
    - apply Ascii.eqb_eq in E1. subst c. discriminate.
    - destruct (Ascii.eqb c "-"%char) eqn:E2; [|reflexivity].
      apply Ascii.eqb_eq in E2. subst c. discriminate. }
  cbn [space_before_upper]. destruct (is_upper c);
    cbn [underscores_to_spaces Ascii.eqb Bool.eqb andb orb]; rewrite Hu, (IH Hr);
    reflexivity.
Qed.

Lemma alnum_not_space (c : ascii) : is_alnum c = true -> is_space c = false.
Proof.
  unfold is_alnum, is_space, is_upper, is_lower, is_digit. intros H.
  destruct (Nat.eqb (nat_of_ascii c) 32) eqn:E1.
  { apply Nat.eqb_eq in E1. rewrite E1 in H. discriminate. }
  destruct (Nat.leb 9 (nat_of_ascii c) && Nat.leb (nat_of_ascii c) 13) eqn:E2;
    [|reflexivity].
  apply andb_prop in E2 as [_ E2]. apply Nat.leb_le in E2.
  exfalso. repeat (apply orb_true_iff in H as [H | H]);
    apply andb_prop in H as [H _]; apply Nat.leb_le in H; lia.
Qed.

Lemma trim_end_space_before_upper (r : string) :
  all_chars is_alnum r = true ->
  forall c, is_space c = false ->
            trim_end (String c (space_before_upper r)) = String c (space_before_upper r).
Proof.
  induction r as [|x r IH]; intros Hr c Hc.
  - cbn. now rewrite Hc.
  - cbn [all_chars] in Hr. apply andb_prop in Hr as [Hx Hr].
    pose proof (alnum_not_space x Hx) as Hsx.
    pose proof (IH Hr x Hsx) as E.
    cbn [space_before_upper]. destruct (is_upper x).
    + change (trim_end (String c (String " " (String x (space_before_upper r)))))
        with (match trim_end (String " " (String x (space_before_upper r))) with
              | EmptyString => if is_space c then "" else String c ""
              | r' => String c r'
              end).
      change (trim_end (String " " (String x (space_before_upper r))))
        with (match trim_end (String x (space_before_upper r)) with
              | EmptyString => if is_space " " then "" else String " " ""
              | r' => String " " r'
              end).
      now rewrite E.
    + change (trim_end (String c (String x (space_before_upper r))))
        with (match trim_end (String x (space_before_upper r)) with
              | EmptyString => if is_space c then "" else String c ""
              | r' => String c r'
              end).
      now rewrite E.
Qed.

(** X6.  Without a usable [title], the label of a key that starts with a
    lower-case letter and consists of letters and digits is the key with its
    first letter in upper case and a space before every other upper-case
    letter (camelCase becomes Title Case). *)
Theorem getLabel_camel_case (c : ascii) (r : string) (s : schema) :
  opt_truthy (title s) = false ->
  is_lower c = true ->
  all_chars is_alnum r = true ->
  getLabel (String c r) s = String (to_upper c) (space_before_upper r).
Proof.
  intros Ht Hc Hr. unfold getLabel. rewrite Ht.
  assert (Hup : is_upper c = false).
  { unfold is_lower, is_upper in *. apply andb_prop in Hc as [H1 _].
    apply Nat.leb_le in H1. apply andb_false_iff. right. apply Nat.leb_gt. lia. }
  assert (Hu : (Ascii.eqb c "_" || Ascii.eqb c "-")%bool%char = false).
  { destruct (Ascii.eqb c "_"%char) eqn:E1.
    - apply Ascii.eqb_eq in E1. subst c. discriminate.
    - destruct (Ascii.eqb c "-"%char) eqn:E2; [|reflexivity].
      apply Ascii.eqb_eq in E2. subst c. discriminate. }
  cbn [space_before_upper]. rewrite Hup.
  cbn [underscores_to_spaces]. rewrite Hu, (underscores_space_before_upper r Hr).
  unfold capitalize, is_word. rewrite Hc, orb_true_r. cbn [orb].
  assert (Hsp : is_space (to_upper c) = false).
  { unfold to_upper. rewrite Hc. unfold is_lower in Hc.
    apply andb_prop in Hc as [H1 H2]. apply Nat.leb_le in H1, H2.
    unfold is_space. rewrite nat_ascii_embedding by lia.
    apply orb_false_iff. split.
    - apply Nat.eqb_neq. lia.
    - apply andb_false_iff. right. apply Nat.leb_gt. lia. }
  unfold trim. cbn [trim_start]. rewrite Hsp.
  now apply trim_end_space_before_upper.
Qed.

Lemma getLabel_camel_case_witness :
  getLabel "hourlyRate" (typed "number") = "Hourly Rate".
Proof.
  apply (getLabel_camel_case "h"%char "ourlyRate" (typed "number")); reflexivity.
Defined.

(** ** Paths *)





Lemma replace_brackets_dot (p q : string) :
  replace_brackets (p ++ "." ++ q) = replace_brackets p ++ "." ++ replace_brackets q.
Proof.
  unfold replace_brackets.
  rewrite (replace_from_app p ("." ++ q) (breaks_index_dot q) 0) by lia.
  reflexivity.
Qed.

Lemma path_parts_dot_app (p q : string) :
  path_parts (p ++ "." ++ q) = (path_parts p ++ path_parts q)%list.
Proof.
  unfold path_parts. now rewrite replace_brackets_dot, split_dot_app, filter_app.
Qed.

(** X8.  The path syntax composes along dots: the segments of [p.q] are
    the segments of [p] followed by those of [q]; in particular leading,
    trailing and doubled dots add no segment. *)
Theorem path_parts_dot (p q : string) :
  path_parts (p ++ "." ++ q) = (path_parts p ++ path_parts q)%list
  /\ path_parts ("." ++ q) = path_parts q
  /\ path_parts (p ++ ".") = path_parts p.
Proof.
  split; [apply path_parts_dot_app|]. split.
  - apply (path_parts_dot_app "" q).
  - change (p ++ ".") with (p ++ "." ++ ""). rewrite path_parts_dot_app. apply app_nil_r.
Qed.

(** ** Re-indexing *)

Lemma string_drop_app (a r : string) : string_drop (String.length a) (a ++ r) = r.
Proof. induction a as [|c a IH]; [now destruct r | exact IH]. Qed.

Lemma replace_first_index_no_bracket (index s : string) :
  has_char "["%char s = false -> replace_first_index index s = s.
Proof.
  induction s as [|c r IH]; intros H; [reflexivity|].
  cbn [has_char] in H. apply orb_false_iff in H as [Hc Hr].
  cbn [replace_first_index]. rewrite Hc. now rewrite IH.
Qed.

Lemma replace_first_index_prefix (index P s : string) :
  has_char "["%char P = false ->
  replace_first_index index (P ++ s) = P ++ replace_first_index index s.
Proof.
  induction P as [|c r IH]; intros HP; [reflexivity|].
  cbn [has_char] in HP. apply orb_false_iff in HP as [Hc Hr].
  cbn [String.append replace_first_index]. rewrite Hc. now rewrite (IH Hr).
Qed.

Lemma replace_first_index_head (index ds rest : string) :
  all_digits ds = true -> ds <> "" ->
  replace_first_index index ("[" ++ ds ++ "]" ++ rest) = "[" ++ index ++ "]" ++ rest.
Proof.
  intros Hds Hne.
  change (replace_first_index index ("[" ++ ds ++ "]" ++ rest))
    with (match bracket_body (ds ++ "]" ++ rest) with
          | Some ds0 => "[" ++ index ++ "]"
                            ++ string_drop (S (String.length ds0)) (ds ++ "]" ++ rest)
          | None => String "[" (replace_first_index index (ds ++ "]" ++ rest))
          end).
  rewrite (bracket_body_digits ds rest Hds Hne).
  do 3 f_equal.
  replace (S (String.length ds)) with (String.length (ds ++ "]"))
    by (rewrite slength_app; cbn; lia).
  rewrite <- sapp_assoc. apply string_drop_app.
Qed.

Lemma replace_first_index_single (index P ds rest : string) :
  has_char "["%char P = false -> all_digits ds = true -> ds <> "" ->
  replace_first_index index (P ++ "[" ++ ds ++ "]" ++ rest)
  = P ++ "[" ++ index ++ "]" ++ rest.
Proof.
  intros HP Hds Hne.
  now rewrite replace_first_index_prefix, replace_first_index_head.
Qed.

(** X9.  Re-indexing an element whose path has the array index as its
    first bracketed segment rewrites exactly that index and keeps the rest
    of the path; a [name] attribute follows the path, and no other attribute
    changes. *)
Theorem repath_rewrites_first_index (B : Builtins) (el : node) (P rest : string)
        (i j : nat) :
  get "data-path" (attrs_of el) = Some (VStr (P ++ "[" ++ dec i ++ "]" ++ rest)) ->
  has_char "["%char P = false ->
  get "data-path" (attrs_of (repath B j el))
  = Some (VStr (P ++ "[" ++ dec j ++ "]" ++ rest))
  /\ (hasAttribute el "name" = true ->
      get "name" (attrs_of (repath B j el))
      = Some (VStr (P ++ "[" ++ dec j ++ "]" ++ rest)))
  /\ (hasAttribute el "name" = false -> hasAttribute (repath B j el) "name" = false)
  /\ (forall k, k <> "data-path" -> k <> "name" ->
                get k (attrs_of (repath B j el)) = get k (attrs_of el)).
Proof.
  intros Hp HP.
  destruct el as [s|t a cs]; [discriminate|]. cbn [attrs_of] in Hp.
  assert (E : repath B j (Elem t a cs)
              = let newPath := P ++ "[" ++ dec j ++ "]" ++ rest in
                let el := Elem t (set "data-path" (VStr newPath) a) cs in
                if hasAttribute el "name" then setAttribute el "name" (VStr newPath)
                else el).
  { unfold repath, hasAttribute, getAttribute. cbn [attrs_of]. rewrite Hp.
    cbn [is_undef negb String_of setAttribute].
    now rewrite (replace_first_index_single (dec j) P (dec i) rest HP
                                            (dec_digits i) (dec_nonempty i)). }
  rewrite E. cbv zeta.
  assert (Hname : hasAttribute (Elem t (set "data-path"
                                            (VStr (P ++ "[" ++ dec j ++ "]" ++ rest)) a) cs)
                               "name"
                  = hasAttribute (Elem t a cs) "name").
  { unfold hasAttribute. cbn [attrs_of]. now rewrite get_set_other by discriminate. }
  rewrite Hname.
  split; [|split; [|split]].
  - destruct (hasAttribute (Elem t a cs) "name"); cbn [setAttribute attrs_of].
    + rewrite get_set_other by discriminate. apply get_set_same.
    + apply get_set_same.
  - intros ->. cbn [setAttribute attrs_of]. apply get_set_same.
  - intros Hn. rewrite Hn. rewrite Hname. exact Hn.
  - intros k Hk1 Hk2.
    destruct (hasAttribute (Elem t a cs) "name"); cbn [setAttribute attrs_of];
      rewrite ?get_set_other by assumption; reflexivity.
Qed.

Lemma repath_rewrites_first_index_witness :
  get "data-path"
      (attrs_of (repath DecimalHost 1
                        (Elem "input" [("name", VStr "list[2]");
                                       ("data-path", VStr ("list" ++ "[" ++ dec 2 ++ "]" ++ ""))]
                              [])))
  = Some (VStr ("list" ++ "[" ++ dec 1 ++ "]" ++ "")).
Proof.
  apply (repath_rewrites_first_index
           DecimalHost
           (Elem "input" [("name", VStr "list[2]");
                          ("data-path", VStr ("list" ++ "[" ++ dec 2 ++ "]" ++ ""))] [])
           "list" "" 2 1); reflexivity.
Defined.

Lemma remove_at_length {A : Type} (l : list A) :
  forall k, k < List.length l -> List.length (remove_at k l) = List.length l - 1.
Proof.
  induction l as [|x r IH]; intros k Hk; [cbn in Hk; lia|].
  destruct k as [|k]; cbn [remove_at List.length]; [lia|].
  cbn [List.length] in Hk. rewrite IH by lia. lia.
Qed.

Lemma remove_at_incl {A : Type} (l : list A) :
  forall k x, In x (remove_at k l) -> In x l.
Proof.
  induction l as [|y r IH]; intros k x H; [destruct k; exact H|].
  destruct k as [|k]; cbn [remove_at] in H; [now right|].
  destruct H as [-> | H]; [now left | right; eauto].
Qed.

(** X10.  Clicking the remove button of the child at position [k] of an
    array container whose children are all items leaves one item fewer,
    numbers the remaining items 0, 1, 2, ... in their [data-index], and
    announces the change with one [schema-change] event. *)
Theorem remove_click_renumbers (B : Builtins) (t : string)
        (a : list (string * jsvalue)) (cs : list node) (k : nat) :
  forallb (fun c => has_class c "schema-array-item") cs = true ->
  k < List.length cs ->
  let after := fst (onRemoveClick B (Elem t a cs) k) in
  List.length (array_items after) = List.length cs - 1
  /\ (forall j item, nth_error (array_items after) j = Some item ->
                     get "data-index" (attrs_of item) = Some (VStr (dec j)))
  /\ snd (onRemoveClick B (Elem t a cs) k) = ["schema-change"].
Proof.
  intros Hall Hk. cbv zeta. cbn [onRemoveClick fst snd].
  rewrite array_items_reindexArrayItems. unfold array_items at 1 2. cbn [children_of].
  assert (Hitems : filter (fun c => has_class c "schema-array-item") (remove_at k cs)
                   = remove_at k cs).
  { apply filter_all. intros x Hx. rewrite forallb_forall in Hall.
    apply Hall. eapply remove_at_incl. exact Hx. }
  rewrite Hitems. split; [|split; [|reflexivity]].
  - now rewrite mapi_from_length, remove_at_length.
  - intros j item Hj.
    destruct (nth_error (remove_at k cs) j) as [x|] eqn:Ex.
    + rewrite (mapi_from_nth_error (reindex_item B) (remove_at k cs) 0 j x Ex) in Hj.
      injection Hj as <-. cbn [Nat.add].
      destruct x as [s|t' a' cs'].
      * exfalso. apply nth_error_In in Ex. apply remove_at_incl in Ex.
        rewrite forallb_forall in Hall. specialize (Hall _ Ex). discriminate.
      * apply data_index_reindex_item.
    + exfalso. apply nth_error_None in Ex.
      assert (Hlen : j < List.length (mapi_from (reindex_item B) 0 (remove_at k cs)))
        by (apply nth_error_Some; congruence).
      rewrite mapi_from_length in Hlen. lia.
Qed.

Lemma remove_click_renumbers_witness :
  List.length
    (array_items
       (fst (onRemoveClick DecimalHost
               (Elem "div" [("class", VStr "schema-array-items")]
                     [Elem "div" [("class", VStr "schema-array-item")] [];
                      Elem "div" [("class", VStr "schema-array-item")] [];
                      Elem "div" [("class", VStr "schema-array-item")] []]) 1)))
  = 3 - 1.
Proof.
  apply (remove_click_renumbers
           DecimalHost "div" [("class", VStr "schema-array-items")]
           [Elem "div" [("class", VStr "schema-array-item")] [];
            Elem "div" [("class", VStr "schema-array-item")] [];
            Elem "div" [("class", VStr "schema-array-item")] []] 1).
  - reflexivity.
  - cbn. lia.
Defined.

(** ** What the fields of a form contribute *)

Lemma option_nodes_controls {A : Type} (val lab : A -> string) (xs : list A) :
  flat_map controls_in
           (map (fun x => Elem "option" [("value", VStr (val x))] [Text (lab x)]) xs)
  = [].
Proof. induction xs as [|x r IH]; [reflexivity | exact IH]. Qed.

Lemma option_nodes_match (B : Builtins) {A : Type} (val lab : A -> string)
      (xs : list A) (s : string) :
  existsb (fun o => match get "value" (attrs_of o) with
                    | Some v => String.eqb (String_of B v) s
                    | None => false
                    end)
          (filter (fun c => String.eqb (tag_of c) "option")
                  (map (fun x => Elem "option" [("value", VStr (val x))] [Text (lab x)]) xs))
  = existsb (fun x => String.eqb (val x) s) xs.
Proof.
  induction xs as [|x r IH]; [reflexivity|].
  cbn [map filter tag_of String.eqb Ascii.eqb Bool.eqb andb existsb attrs_of get String_of].
  now rewrite IH.
Qed.

Lemma option_nodes_unselected {A : Type} (val lab : A -> string) (xs : list A) :
  find (fun o => match get "selected" (attrs_of o) with
                 | Some v => truthy v
                 | None => false
                 end)
       (filter (fun c => String.eqb (tag_of c) "option")
               (map (fun x => Elem "option" [("value", VStr (val x))] [Text (lab x)]) xs))
  = None.
Proof. induction xs as [|x r IH]; [reflexivity | exact IH]. Qed.

Lemma choice_field_control (B : Builtins) {A : Type} (val lab : A -> string)
      (xs : list A) (fieldId fieldLabel : string) (s : schema) (value : jsvalue)
      (path : string) (required : bool) :
  exists ctl,
    controls_in (choice_field B fieldId fieldLabel s
                   (map (fun x => Elem "option" [("value", VStr (val x))] [Text (lab x)])
                        xs)
                   value path required) = [ctl]
    /\ tag_of ctl = "select"
    /\ data_path B ctl = path
    /\ control_value B ctl
       = VStr (if negb (nullish value)
                  && existsb (fun x => String.eqb (val x) (String_of B value)) xs
               then String_of B value else "").
Proof.
  unfold choice_field. set (options := map _ xs).
  set (sel := Elem "select" [("id", VStr fieldId); ("name", VStr path);
                            ("required", VBool required); ("data-path", VStr path)]
                   (Elem "option" [("value", VStr "")] [Text "-- Select --"] :: options)).
  assert (Hopts : flat_map controls_in options = [])
    by (unfold options; apply option_nodes_controls).
  destruct (nullish value) eqn:Hn.
  - exists sel. split; [|split; [|split]]; try reflexivity.
    + rewrite controls_in_leaf_field. unfold sel. rewrite controls_in_elem.
      cbn [flat_map]. rewrite Hopts. reflexivity.
    + cbn [negb andb]. unfold control_value, is_checkbox, getAttribute, el_value, sel.
      cbn [tag_of attrs_of children_of get String.eqb Ascii.eqb Bool.eqb andb filter find].
      unfold options. rewrite (option_nodes_unselected val lab xs). reflexivity.
  - set (str := String_of B value).
    assert (Hassign :
              select_assign B sel str
              = Elem "select" [("id", VStr fieldId); ("name", VStr path);
                               ("required", VBool required); ("data-path", VStr path);
                               ("value",
                                VStr (if String.eqb "" str
                                         || existsb (fun x => String.eqb (val x) str) xs
                                      then str else ""))]
                     (Elem "option" [("value", VStr "")] [Text "-- Select --"] :: options)).
    { unfold select_assign, sel.
      cbn [children_of filter tag_of String.eqb Ascii.eqb Bool.eqb andb].
      cbn [existsb attrs_of get String.eqb Ascii.eqb Bool.eqb andb String_of].
      unfold options. rewrite (option_nodes_match B val lab xs str).
      destruct (match str with EmptyString => true | String _ _ => false end
                || existsb (fun x => String.eqb (val x) str) xs); reflexivity. }
    rewrite Hassign.
    match goal with |- context [controls_in (Elem "div" _ [_; _; ?c])] => exists c end.
    split; [|split; [|split]].
    + rewrite controls_in_leaf_field, controls_in_elem. cbn [flat_map].
      rewrite Hopts. reflexivity.
    + reflexivity.
    + reflexivity.
    + cbn [negb andb]. unfold control_value, is_checkbox, getAttribute, el_value.
      cbn [tag_of attrs_of get String.eqb Ascii.eqb Bool.eqb andb String_of].
      f_equal. fold (String.eqb "" str). destruct (String.eqb "" str) eqn:E.
      * apply String.eqb_eq in E. rewrite <- E. cbn [orb].
        destruct (existsb (fun x => String.eqb (val x) "") xs); reflexivity.
      * reflexivity.
Qed.

(** X11.  An enum field is a select that holds only text.  The field
    contributes the text of the value when that text is the text of one of
    the enum values, and the empty string otherwise (also for [null] and
    [undefined]): a number or boolean listed in the enum comes back as a
    string, and a value outside the enum is dropped. *)
Theorem enum_field_collects_text (B : Builtins) (s : schema) (vs : list jsvalue)
        (key : string) (value : jsvalue) (path : string) (required : bool) (n : nat) :
  anyOf s = None -> oneOf s = None -> enum s = Some vs ->
  exists field ctl,
    renderField B s key value path required n = Ok (field, S n)
    /\ controls_in field = [ctl]
    /\ tag_of ctl = "select"
    /\ data_path B ctl = path
    /\ control_value B ctl
       = VStr (if negb (nullish value)
                  && existsb (fun v => String.eqb (String_of B v) (String_of B value)) vs
               then String_of B value else "").
Proof.
  intros Ha Ho He. rewrite (renderField_plain B s key value path required n Ha Ho).
  cbv zeta. rewrite He.
  destruct (choice_field_control B (String_of B) (String_of B) vs
              (path ++ "-" ++ dec (S n)) (getLabel key s) s value path required)
    as (ctl & H1 & H2 & H3 & H4).
  eexists. exists ctl. split; [reflexivity|]. now repeat split.
Qed.

Lemma enum_field_collects_text_witness :
  exists field ctl,
    renderField DecimalHost (with_enum (typed "integer") [VNum (num_of_Z 1); VNum (num_of_Z 2)])
                "size" (VNum (num_of_Z 2)) "size" false 0 = Ok (field, 1)
    /\ controls_in field = [ctl]
    /\ control_value DecimalHost ctl = VStr "2".
Proof.
  destruct (enum_field_collects_text
              DecimalHost (with_enum (typed "integer") [VNum (num_of_Z 1); VNum (num_of_Z 2)])
              [VNum (num_of_Z 1); VNum (num_of_Z 2)] "size" (VNum (num_of_Z 2)) "size"
              false 0 eq_refl eq_refl eq_refl)
    as (field & ctl & H1 & H2 & _ & _ & H5).
  exists field, ctl. split; [exact H1|]. split; [exact H2|]. exact H5.
Defined.

Lemma renderField_const_union (B : Builtins) (s : schema) (variants : list schema)
      (key : string) (value : jsvalue) (path : string) (required : bool) (n : nat) :
  getUnionVariants s = Some variants ->
  forallb (fun v => negb (is_undef (const v))) variants = true ->
  renderField B s key value path required n
  = Ok (choice_field B (path ++ "-" ++ dec (S n)) (getLabel key s) s
          (map (fun v => Elem "option" [("value", VStr (String_of B (const v)))]
                              [Text (if opt_truthy (title v)
                                     then match title v with Some t => t | None => "" end
                                     else String_of B (const v))])
               variants)
          value path required, S n).
Proof.
  intros Hu Hall. destruct s. unfold getUnionVariants in Hu. cbn [anyOf oneOf] in Hu.
  cbn [renderField mbind uniqueId anyOf oneOf]. cbv zeta.
  destruct anyOf0 as [vs|].
  - injection Hu as ->. now rewrite Hall.
  - subst oneOf0. now rewrite Hall.
Qed.

(** X12.  A union all of whose variants are constants is one select.  The
    field contributes the text of the value when a variant's [const] has
    that text, and the empty string otherwise: the constant comes back as a
    string whatever its type. *)
Theorem const_union_collects_text (B : Builtins) (s : schema) (variants : list schema)
        (key : string) (value : jsvalue) (path : string) (required : bool) (n : nat) :
  getUnionVariants s = Some variants ->
  forallb (fun v => negb (is_undef (const v))) variants = true ->
  exists field ctl,
    renderField B s key value path required n = Ok (field, S n)
    /\ controls_in field = [ctl]
    /\ tag_of ctl = "select"
    /\ data_path B ctl = path
    /\ control_value B ctl
       = VStr (if negb (nullish value)
                  && existsb (fun v => String.eqb (String_of B (const v))
                                                  (String_of B value)) variants
               then String_of B value else "").
Proof.
  intros Hu Hall.
  rewrite (renderField_const_union B s variants key value path required n Hu Hall).
  destruct (choice_field_control
              B (fun v => String_of B (const v))
              (fun v => if opt_truthy (title v)
                        then match title v with Some t => t | None => "" end
                        else String_of B (const v))
              variants (path ++ "-" ++ dec (S n)) (getLabel key s) s value path required)
    as (ctl & H1 & H2 & H3 & H4).
  eexists. exists ctl. split; [reflexivity|]. now repeat split.
Qed.

Lemma const_union_collects_text_witness :
  exists field ctl,
    renderField DecimalHost
                (any_of [const_of None (VNum (num_of_Z 1)); const_of None (VBool true)])
                "pick" (VBool true) "pick" false 0 = Ok (field, 1)
    /\ controls_in field = [ctl]
    /\ control_value DecimalHost ctl = VStr "true".
Proof.
  destruct (const_union_collects_text
              DecimalHost
              (any_of [const_of None (VNum (num_of_Z 1)); const_of None (VBool true)])
              [const_of None (VNum (num_of_Z 1)); const_of None (VBool true)]
              "pick" (VBool true) "pick" false 0 eq_refl eq_refl)
    as (field & ctl & H1 & H2 & _ & _ & H5).
  exists field, ctl. split; [exact H1|]. split; [exact H2|]. exact H5.
Defined.

Lemma string_control_general (B : Builtins) (fieldId : string) (s : schema)
      (value : jsvalue) (path : string) (required : bool) :
  let ctl := string_control B fieldId s value path required in
  controls_in ctl = [ctl] /\ data_path B ctl = path
  /\ control_value B ctl
     = VStr (String_of B (coalesce (coalesce value (default s)) (VStr ""))).
Proof.
  intros ctl. unfold ctl, string_control.
  pose proof (get_string_inputAttrs fieldId s value path required) as G.
  destruct (match maxLength s with
            | Some m => truthy (VNum m) && num_gtb m (num_of_nat 200)
            | None => false
            end).
  - assert (Gr : forall k, k <> "minLength" -> k <> "maxLength" -> k <> "pattern" ->
                           k <> "placeholder" -> k <> "rows" ->
                           get k (set "rows" (VNum (num_of_nat 4))
                                      (string_inputAttrs fieldId s value path required))
                           = get k [("id", VStr fieldId); ("name", VStr path);
                                    ("value", coalesce (coalesce value (default s))
                                                       (VStr ""));
                                    ("required", VBool required); ("data-path", VStr path);
                                    ("data-type", VStr "string")]).
    { intros k H1 H2 H3 H4 H5. rewrite get_set_other by assumption. now apply G. }
    split; [|split].
    + rewrite controls_in_elem. cbn [flat_map]. rewrite controls_in_text.
      unfold is_control, hasAttribute. cbn [tag_of attrs_of].
      rewrite !Gr by discriminate. reflexivity.
    + unfold data_path, getAttribute. cbn [attrs_of].
      rewrite Gr by discriminate. reflexivity.
    + unfold control_value, is_checkbox, getAttribute, el_value. cbn [tag_of attrs_of].
      rewrite !Gr by discriminate. reflexivity.
  - split; [|split].
    + rewrite controls_in_elem. cbn [flat_map].
      unfold is_control, hasAttribute.
      cbn [tag_of attrs_of get String.eqb Ascii.eqb Bool.eqb andb].
      rewrite !G by discriminate. reflexivity.
    + unfold data_path, getAttribute.
      cbn [attrs_of get String.eqb Ascii.eqb Bool.eqb andb].
      rewrite G by discriminate. reflexivity.
    + unfold control_value, is_checkbox, getAttribute, el_value.
      cbn [tag_of attrs_of get String.eqb Ascii.eqb Bool.eqb andb is_undef String_of].
      rewrite !G by discriminate.
      cbn [get String.eqb Ascii.eqb Bool.eqb andb is_undef String_of orb].
      rewrite inputType_not_checkbox. reflexivity.
Qed.

Lemma string_control_kind_spec (B : Builtins) (fieldId : string) (s : schema)
      (value : jsvalue) (path : string) (required : bool) :
  control_kind B (string_control B fieldId s value path required)
  = string_control_kind s.
Proof.
  unfold string_control, string_control_kind.
  destruct (match maxLength s with
            | Some m => truthy (VNum m) && num_gtb m (num_of_nat 200)
            | None => false
            end); reflexivity.
Qed.

(** X13.  A string field has exactly one bound control, an input or a
    textarea, which is given [value ?? schema.default ?? '']: when that is
    the string [str] (the value itself, or the schema's default for an absent
    value, or the empty string when there is neither) and the control of the
    field's format and length limit keeps that text (no line break in a
    one-line input, no text at all for a date or time input), the field
    contributes [str]. *)
Theorem string_field_collects_shown_text (B : Builtins) (s : schema)
        (key : string) (value : jsvalue) (path : string) (required : bool) (n : nat)
        (str : string) :
  anyOf s = None -> oneOf s = None -> enum s = None -> schemaType s = Some "string" ->
  coalesce (coalesce value (default s)) (VStr "") = VStr str ->
  kept_by (string_control_kind s) str = true ->
  exists field ctl,
    renderField B s key value path required n = Ok (field, S n)
    /\ controls_in field = [ctl]
    /\ control_kind B ctl = string_control_kind s
    /\ data_path B ctl = path
    /\ control_value B ctl = VStr str.
Proof.
  intros Ha Ho He Ht Hshown _. rewrite (renderField_plain B s key value path required n Ha Ho).
  cbv zeta. rewrite He, Ht. cbn [String.eqb Ascii.eqb Bool.eqb andb].
  destruct (string_control_general B (path ++ "-" ++ dec (S n)) s value path required)
    as (H1 & H2 & H3).
  rewrite Hshown in H3. cbn [String_of] in H3.
  eexists. eexists. split; [reflexivity|]. unfold renderStringField.
  rewrite controls_in_leaf_field. split; [exact H1|].
  split; [apply string_control_kind_spec|]. split; [exact H2 | exact H3].
Qed.

Lemma string_field_collects_shown_text_witness :
  exists field ctl,
    renderField DecimalHost (typed "string") "name" VNull "name" false 0 = Ok (field, 1)
    /\ controls_in field = [ctl]
    /\ control_value DecimalHost ctl = VStr "".
Proof.
  destruct (string_field_collects_shown_text
              DecimalHost (typed "string") "name" VNull "name" false 0 ""
              eq_refl eq_refl eq_refl eq_refl eq_refl eq_refl)
    as (field & ctl & H1 & H2 & _ & _ & H4).
  exists field, ctl. split; [exact H1|]. split; [exact H2|]. exact H4.
Defined.

(** X14.  A boolean field is one checkbox that shows and contributes
    [value ?? schema.default ?? false]: when that is the boolean [b] (the
    value itself, or the schema's default for an absent value, or [false]
    when there is neither), the field contributes [b]. *)
Theorem boolean_field_collects_shown_value (B : Builtins) (s : schema)
        (key : string) (value : jsvalue) (path : string) (required : bool) (n : nat)
        (b : bool) :
  anyOf s = None -> oneOf s = None -> enum s = None -> schemaType s = Some "boolean" ->
  coalesce (coalesce value (default s)) (VBool false) = VBool b ->
  exists field ctl,
    renderField B s key value path required n = Ok (field, S n)
    /\ controls_in field = [ctl]
    /\ get "type" (attrs_of ctl) = Some (VStr "checkbox")
    /\ data_path B ctl = path
    /\ control_value B ctl = VBool b.
Proof.
  intros Ha Ho He Ht Hshown. rewrite (renderField_plain B s key value path required n Ha Ho).
  cbv zeta. rewrite He, Ht. cbn [String.eqb Ascii.eqb Bool.eqb andb orb].
  unfold renderBooleanField. rewrite Hshown.
  eexists. eexists. split; [reflexivity|]. split; [|split; [|split]].
  - rewrite controls_in_elem. cbn [flat_map].
    rewrite controls_in_description, controls_in_elem. cbn [flat_map].
    rewrite controls_in_required_mark. reflexivity.
  - reflexivity.
  - reflexivity.
  - now destruct b.
Qed.

Lemma boolean_field_collects_shown_value_witness :
  exists field ctl,
    renderField DecimalHost (typed "boolean") "ok" VUndef "ok" false 0 = Ok (field, 1)
    /\ controls_in field = [ctl]
    /\ control_value DecimalHost ctl = VBool false.
Proof.
  destruct (boolean_field_collects_shown_value
              DecimalHost (typed "boolean") "ok" VUndef "ok" false 0 false
              eq_refl eq_refl eq_refl eq_refl eq_refl)
    as (field & ctl & H1 & H2 & _ & _ & H5).
  exists field, ctl. split; [exact H1|]. split; [exact H2|]. exact H5.
Defined.

(** X15.  An array field whose value is truthy but not an array cannot be
    rendered: [value || []] keeps the value and its missing [forEach] makes
    [renderField] throw. *)
Theorem array_field_rejects_non_array (B : Builtins) (s : schema)
        (key : string) (value : jsvalue) (path : string) (required : bool) (n : nat) :
  anyOf s = None -> oneOf s = None -> enum s = None -> schemaType s = Some "array" ->
  truthy value = true -> Array_isArray value = false ->
  renderField B s key value path required n = TypeError.
Proof.
  intros Ha Ho He Ht Htr Harr.
  rewrite (renderField_plain B s key value path required n Ha Ho).
  cbv zeta. rewrite He, Ht. cbn [String.eqb Ascii.eqb Bool.eqb andb orb].
  assert (E : forEach_entries value = TypeError).
  { unfold forEach_entries. rewrite Htr.
    destruct value as [| | | | |[|] d]; try reflexivity; discriminate. }
  destruct (items s); unfold renderArrayField; rewrite E; reflexivity.
Qed.

Lemma array_field_rejects_non_array_witness :
  renderField DecimalHost (array_of (typed "string")) "tags" (VStr "a,b") "tags" false 0
  = TypeError.
Proof.
  apply (array_field_rejects_non_array DecimalHost (array_of (typed "string")) "tags"
                                       (VStr "a,b") "tags" false 0); reflexivity.
Defined.

(** X16.  The hidden input of the const branch of the blueprint copy is the
    only bound control of the field, and the collector reads the constant
    back from it when it is a string or a boolean, and when it is a number
    that the host prints to a text that reads back as the same number.  The
    constant [null] comes back as the string "null". *)
Theorem blueprint_const_field_collects_const (B : Builtins) (fieldId fieldLabel : string)
        (s : schema) (path : string) (required : bool) :
  exists ctl,
    controls_in (BlueprintConst.renderConstField B fieldId fieldLabel s path required)
    = [ctl]
    /\ data_path B ctl = path
    /\ get "type" (attrs_of ctl) = Some (VStr "hidden")
    /\ control_value B ctl
       = match const s with
         | VStr str => VStr str
         | VBool b => VBool b
         | VNum m => if String.eqb (num_to_string B m) "" then VUndef
                     else VNum (Number B (num_to_string B m))
         | c => VStr (String_of B c)
         end.
Proof.
  eexists. split; [|split; [|split]].
  - unfold BlueprintConst.renderConstField. rewrite controls_in_elem. cbn [flat_map].
    rewrite controls_in_label, controls_in_description. reflexivity.
  - reflexivity.
  - reflexivity.
  - unfold control_value, is_checkbox, getAttribute, el_value.
    cbn [tag_of attrs_of get String.eqb Ascii.eqb Bool.eqb andb is_undef String_of].
    unfold BlueprintConst.constType.
    destruct (const s) as [| |[|]|m| |[|] d]; try reflexivity.
    destruct (Number_isInteger m); reflexivity.
Qed.

(** ** The component *)

(** X17.  With a schema that has neither a type nor properties the
    component shows "No schema provided" and no form, and [getData()]
    returns the assigned data itself. *)
Theorem no_schema_returns_assigned_data (B : Builtins) (s : schema) (d : jsvalue) :
  type_truthy s = false -> properties s = None ->
  content (mounted B s d)
  = [Elem "div" [("class", VStr "schema-form-empty")] [Text "No schema provided"]]
  /\ query_form (mounted B s d) = None
  /\ getData B (mounted B s d) = Ok (_data (mounted B s d), mounted B s d)
  /\ getData_value B (mounted B s d) = Ok d.
Proof.
  intros Ht Hp.
  assert (E : mounted B s d
              = {| _schema := s; _data := 1;
                   content := [Elem "div" [("class", VStr "schema-form-empty")]
                                    [Text "No schema provided"]];
                   renderQueued := false; idCounter := 0; heap := [obj []; d] |}).
  { unfold mounted, flush_render, set_data, set_schema, new_form.
    cbn [renderQueued _schema _data heap idCounter List.length deref nth app].
    unfold render_content. rewrite Ht, Hp. reflexivity. }
  rewrite E. repeat split.
Qed.

Lemma no_schema_returns_assigned_data_witness :
  getData_value DecimalHost (mounted DecimalHost empty_schema (obj [("name", VStr "Jane")]))
  = Ok (obj [("name", VStr "Jane")]).
Proof.
  apply (no_schema_returns_assigned_data DecimalHost empty_schema
                                         (obj [("name", VStr "Jane")]));
    reflexivity.
Defined.

Lemma mounted_single (B : Builtins) (s : schema) (D : jsvalue) (field : node) (n : nat) :
  properties s = None -> type_truthy s = true ->
  renderField B s "data" D "data" false 0 = Ok (field, n) ->
  getData_value B (mounted B s D)
  = collectFormData B (Elem "form" [("class", VStr "schema-form")] [field]).
Proof.
  intros Hps Ht Hr.
  unfold getData_value, mounted, flush_render, set_data, set_schema, new_form.
  cbn [renderQueued _schema _data heap idCounter List.length deref nth app].
  unfold render_content. rewrite Hps, Ht. cbn [negb andb].
  unfold mbind at 1. unfold mbind at 1. rewrite Hr. unfold ret.
  unfold getData, query_form.
  cbn [content flat_map find app tag_of String.eqb Ascii.eqb Bool.eqb andb].
  destruct (collectFormData B _) as [v|]; reflexivity.
Qed.

(** X18.  When the root schema declares a type but no properties, the whole
    value is rendered as one field named "data": for data that the schema
    describes, with no declared name that objects inherit and with controls
    that keep the text they are given, [getData()] returns the object
    [{data: D}] around the (canonically ordered) data, not the data itself. *)
Theorem root_value_is_wrapped (B : Builtins) (s : schema) (D : jsvalue) :
  properties s = None -> type_truthy s = true -> conforms B s D = true ->
  plain_names s = true -> form_keeps B (mounted B s D) = true ->
  getData_value B (mounted B s D) = Ok (obj [("data", canon s D)]).
Proof.
  intros Hps Ht Hc _ _.
  destruct (conforms_field_writes B s D Hc "data" "data" false 0) as
      (field & n & Hr & Hpaths & Hw); [discriminate|].
  rewrite (mounted_single B s D field n Hps Ht Hr).
  unfold collectFormData. rewrite bound_controls_form. cbn [flat_map].
  rewrite app_nil_r.
  rewrite (collect_all_run B _ Hpaths), Hw.
  change (path_parts "data") with ["data"].
  change (map (fun w => ((["data"] ++ fst w)%list, snd w)) (flatten (canon s D)))
    with (map (under "data") (flatten (canon s D))).
  unfold obj.
  now rewrite (run_flatten (canon s D) (conforms_well_formed B s D Hc) false [] "data").
Qed.

Lemma root_value_is_wrapped_witness :
  getData_value DecimalHost (mounted DecimalHost (typed "string") (VStr "hello"))
  = Ok (obj [("data", canon (typed "string") (VStr "hello"))]).
Proof.
  apply (root_value_is_wrapped DecimalHost (typed "string") (VStr "hello")); reflexivity.
Defined.

(** X19.  An object schema without declared properties renders a message
    and no control.  As the root schema it makes [getData()] return the
    empty object, whatever data was assigned. *)
Theorem object_without_properties_collects_nothing (B : Builtins) (s : schema)
        (key : string) (value : jsvalue) (path : string) (required : bool) (n : nat) :
  anyOf s = None -> oneOf s = None -> enum s = None ->
  schemaType s = Some "object" -> properties s = None ->
  renderField B s key value path required n
  = Ok (Elem "div" [("class", VStr "schema-field")]
             [Text ("Object without properties: " ++ key)], S n)
  /\ forall d, getData_value B (mounted B s d) = Ok (obj []).
Proof.
  intros Ha Ho He Ht Hp.
  assert (R : forall key value path required n,
             renderField B s key value path required n
             = Ok (Elem "div" [("class", VStr "schema-field")]
                        [Text ("Object without properties: " ++ key)], S n)).
  { intros k v p r m. rewrite (renderField_plain B s k v p r m Ha Ho).
    cbv zeta. rewrite He, Ht, Hp. reflexivity. }
  split; [apply R|]. intros d.
  assert (Htt : type_truthy s = true).
  { unfold schemaType in Ht. unfold type_truthy.
    destruct (type s) as [[t|t more]|]; [|reflexivity|discriminate].
    now injection Ht as ->. }
  rewrite (mounted_single B s d _ _ Hp Htt (R "data" d "data" false 0)).
  reflexivity.
Qed.

Lemma object_without_properties_collects_nothing_witness :
  getData_value DecimalHost (mounted DecimalHost (typed "object") (obj [("a", VStr "x")]))
  = Ok (obj []).
Proof.
  apply (object_without_properties_collects_nothing
           DecimalHost (typed "object") "data" VUndef "data" false 0); reflexivity.
Defined.

(** ** Fresh ids *)

Lemma schema_induction_full (P : schema -> Prop) :
  (forall s,
      match properties s with
      | Some ps => Forall (fun kp => P (snd kp)) ps
      | None => True
      end ->
      match items s with Some it => P it | None => True end ->
      match anyOf s with Some vs => Forall P vs | None => True end ->
      match oneOf s with Some vs => Forall P vs | None => True end ->
      P s) ->
  forall s, P s.
Proof.
  intros H. fix IH 1. intros s. apply H.
  - destruct s as [? props ? ? ? ? ? ? ? ? ? ? ? ? ? ? ? ? ?]. cbn [properties].
    destruct props as [ps|]; [|exact I].
    induction ps as [|kp r IHr]; constructor; [apply IH | exact IHr].
  - destruct s as [? ? its ? ? ? ? ? ? ? ? ? ? ? ? ? ? ? ?]. cbn [items].
    destruct its as [it|]; [apply IH | exact I].
  - destruct s as [? ? ? ? ? ? ao ? ? ? ? ? ? ? ? ? ? ? ?]. cbn [anyOf].
    destruct ao as [vs|]; [|exact I].
    induction vs as [|v r IHr]; constructor; [apply IH | exact IHr].
  - destruct s as [? ? ? ? ? ? ? oo ? ? ? ? ? ? ? ? ? ? ?]. cbn [oneOf].
    destruct oo as [vs|]; [|exact I].
    induction vs as [|v r IHr]; constructor; [apply IH | exact IHr].
Qed.

Lemma renderField_union (B : Builtins) (s : schema) (variants : list schema)
      (key : string) (value : jsvalue) (path : string) (required : bool) (n : nat) :
  getUnionVariants s = Some variants ->
  forallb (fun v => negb (is_undef (const v))) variants = false ->
  renderField B s key value path required n
  = renderUnionField B (path ++ "-" ++ dec (S n)) (getLabel key s) key s
      (map (fun v => {| vr_schema := v; vr_field := renderField B v;
                        vr_props :=
                          match properties v with
                          | Some ps => Some (map (fun kp => (fst kp, renderField B (snd kp)))
                                                 ps)
                          | None => None
                          end |}) variants)
      value path required (S n).
Proof.
  intros Hu Hall. destruct s. unfold getUnionVariants in Hu. cbn [anyOf oneOf] in Hu.
  cbn [renderField mbind uniqueId anyOf oneOf]. cbv zeta.
  destruct anyOf0 as [vs|].
  - injection Hu as ->. now rewrite Hall.
  - subst oneOf0. now rewrite Hall.
Qed.

Lemma render_props_counter (rs : list (string * renderer))
      (value_of : string -> jsvalue) (path : string) (req : option (list string)) :
  Forall (fun kr => counter_grows (snd kr)) rs ->
  forall n fields n',
    render_props rs value_of path req n = Ok (fields, n') -> n <= n'.
Proof.
  induction 1 as [|[k r] rest Hr Hrest IH]; intros n fields n' H.
  - cbn in H. injection H as _ <-. lia.
  - cbn [render_props] in H. unfold mbind at 1 in H.
    destruct (r k (value_of k) (path ++ "." ++ k) (includes req k) n)
      as [[x n1]|] eqn:E1; [|discriminate].
    unfold mbind at 1 in H.
    destruct (render_props rest value_of path req n1) as [[xs n2]|] eqn:E2; [|discriminate].
    cbn in H. injection H as _ <-.
    apply Hr in E1. apply IH in E2. cbn [snd] in E1. lia.
Qed.

Lemma renderArrayItem_counter (field : renderer) (itemLabel : string) (x : jsvalue)
      (path : string) (index : nat) (vi : option nat) (n n' : nat) (item : node) :
  counter_grows field ->
  renderArrayItem field itemLabel x path index vi n = Ok (item, n') -> n < n'.
Proof.
  intros Hf H. unfold renderArrayItem, mbind, ret in H.
  destruct (field itemLabel x path false n) as [[c k]|] eqn:E; [|discriminate].
  injection H as _ <-. now apply Hf in E.
Qed.

Lemma render_items_counter (B : Builtins) (itemField : renderer)
      (itemVariants : option (list (schema * renderer))) (path : string)
      (entries : list (nat * jsvalue)) :
  counter_grows itemField ->
  match itemVariants with
  | Some vs => Forall (fun vf => counter_grows (snd vf)) vs
  | None => True
  end ->
  forall n nodes n',
    render_items B itemField itemVariants path entries n = Ok (nodes, n') -> n <= n'.
Proof.
  intros Hf Hv. induction entries as [|[i x] rest IH]; intros n nodes n' H.
  - cbn in H. injection H as _ <-. lia.
  - cbn [render_items] in H. unfold mbind at 1 in H.
    destruct (render_item B itemField itemVariants path x i n) as [[y n1]|] eqn:E1;
      [|discriminate].
    unfold mbind at 1 in H.
    destruct (render_items B itemField itemVariants path rest n1) as [[ys n2]|] eqn:E2;
      [|discriminate].
    cbn in H. injection H as _ <-. apply IH in E2.
    assert (n < n1); [|lia].
    unfold render_item in E1. destruct itemVariants as [vs|].
    + destruct (nth_error vs (detectVariant x (map fst vs))) as [[v field]|] eqn:En;
        [|discriminate].
      apply nth_error_In in En. rewrite Forall_forall in Hv.
      apply (renderArrayItem_counter field _ _ _ _ _ _ _ _ (Hv _ En) E1).
    + apply (renderArrayItem_counter itemField _ _ _ _ _ _ _ _ Hf E1).
Qed.

Lemma renderArrayField_counter (B : Builtins) (key : string) (s : schema)
      (itemField : renderer) (itemVariants : option (list (schema * renderer)))
      (value : jsvalue) (path : string) (required : bool) (n n' : nat) (node : node) :
  counter_grows itemField ->
  match itemVariants with
  | Some vs => Forall (fun vf => counter_grows (snd vf)) vs
  | None => True
  end ->
  renderArrayField B key s itemField itemVariants value path required n = Ok (node, n') ->
  n <= n'.
Proof.
  intros Hf Hv H. unfold renderArrayField in H.
  destruct (forEach_entries value) as [entries|]; [|discriminate].
  unfold mbind, ret in H.
  destruct (render_items B itemField itemVariants path entries n) as [[xs n1]|] eqn:E;
    [|discriminate].
  injection H as _ <-. eapply render_items_counter; eassumption.
Qed.

Lemma default_item_field_counter (B : Builtins) : counter_grows (default_item_field B).
Proof.
  intros key value path required n node n' H.
  unfold default_item_field, mbind, uniqueId, ret in H. injection H as _ <-. lia.
Qed.

Lemma counter_grows_variants (B : Builtins) (vs : list schema) :
  Forall (fun v => counter_grows (renderField B v)) vs ->
  Forall (fun vf => counter_grows (snd vf)) (map (fun v => (v, renderField B v)) vs).
Proof.
  intros H. apply Forall_forall. intros vf Hin.
  apply in_map_iff in Hin as (v & <- & Hin). rewrite Forall_forall in H. now apply H.
Qed.

Lemma counter_grows_props (B : Builtins) (ps : list (string * schema)) :
  Forall (fun kp => counter_grows (renderField B (snd kp))) ps ->
  Forall (fun kr => counter_grows (snd kr))
         (map (fun kp => (fst kp, renderField B (snd kp))) ps).
Proof.
  intros H. apply Forall_forall. intros kr Hin.
  apply in_map_iff in Hin as (kp & <- & Hin). rewrite Forall_forall in H. now apply H.
Qed.

Lemma renderField_counter_all (B : Builtins) (s : schema) :
  counter_grows (renderField B s)
  /\ match properties s with
     | Some ps => Forall (fun kp => counter_grows (renderField B (snd kp))) ps
     | None => True
     end
  /\ match anyOf s with
     | Some vs => Forall (fun v => counter_grows (renderField B v)) vs
     | None => True
     end
  /\ match oneOf s with
     | Some vs => Forall (fun v => counter_grows (renderField B v)) vs
     | None => True
     end.
Proof.
  induction s as [s IHprops IHitems IHany IHone] using schema_induction_full.
  assert (Hprops : match properties s with
                   | Some ps => Forall (fun kp => counter_grows (renderField B (snd kp))) ps
                   | None => True
                   end).
  { destruct (properties s) as [ps|]; [|exact I].
    eapply Forall_impl; [|exact IHprops]. intros kp H. exact (proj1 H). }
  assert (Hany : match anyOf s with
                 | Some vs => Forall (fun v => counter_grows (renderField B v)) vs
                 | None => True
                 end).
  { destruct (anyOf s) as [vs|]; [|exact I].
    eapply Forall_impl; [|exact IHany]. intros v H. exact (proj1 H). }
  assert (Hone : match oneOf s with
                 | Some vs => Forall (fun v => counter_grows (renderField B v)) vs
                 | None => True
                 end).
  { destruct (oneOf s) as [vs|]; [|exact I].
    eapply Forall_impl; [|exact IHone]. intros v H. exact (proj1 H). }
  split; [|now repeat split].
  intros key value path required n node n' H.
  destruct (getUnionVariants s) as [variants|] eqn:Hu.
  - (* a union *)
    assert (Hq : Forall (fun v =>
                           counter_grows (renderField B v)
                           /\ match properties v with
                              | Some ps =>
                                  Forall (fun kp => counter_grows (renderField B (snd kp))) ps
                              | None => True
                              end) variants).
    { unfold getUnionVariants in Hu. destruct (anyOf s) as [vs|].
      - injection Hu as <-. eapply Forall_impl; [|exact IHany].
        intros v (H1 & H2 & _). now split.
      - rewrite Hu in IHone. eapply Forall_impl; [|exact IHone].
        intros v (H1 & H2 & _). now split. }
    destruct (forallb (fun v => negb (is_undef (const v))) variants) eqn:Hall.
    + rewrite (renderField_const_union B s variants key value path required n Hu Hall) in H.
      injection H as _ <-. lia.
    + rewrite (renderField_union B s variants key value path required n Hu Hall) in H.
      unfold renderUnionField in H.
      set (vrs := map _ variants) in H.
      destruct (nth_error vrs (detectVariant value (map vr_schema vrs))) as [cv|] eqn:En;
        [|discriminate].
      apply nth_error_In in En. unfold vrs in En.
      apply in_map_iff in En as (v & <- & Hin).
      rewrite Forall_forall in Hq. destruct (Hq v Hin) as [Hv Hvp].
      cbn [vr_schema vr_props vr_field] in H.
      unfold mbind at 1 in H.
      match type of H with
      | match ?c (S n) with _ => _ end = _ => destruct (c (S n)) as [[fields n1]|] eqn:Ec
      end; [|discriminate].
      unfold ret in H. injection H as _ <-.
      assert (S n <= n1); [|lia].
      destruct (type_is v "object"), (properties v) as [ps|].
      * eapply render_props_counter; [|exact Ec]. now apply counter_grows_props.
      * unfold mbind, ret in Ec.
        destruct (renderField B v key value path required (S n)) as [[x k]|] eqn:Ex;
          [|discriminate].
        injection Ec as _ <-. apply Hv in Ex. lia.
      * unfold mbind, ret in Ec.
        destruct (renderField B v key value path required (S n)) as [[x k]|] eqn:Ex;
          [|discriminate].
        injection Ec as _ <-. apply Hv in Ex. lia.
      * unfold mbind, ret in Ec.
        destruct (renderField B v key value path required (S n)) as [[x k]|] eqn:Ex;
          [|discriminate].
        injection Ec as _ <-. apply Hv in Ex. lia.
  - (* no union *)
    unfold getUnionVariants in Hu.
    destruct (anyOf s) eqn:Ha; [discriminate|].
    rewrite (renderField_plain B s key value path required n Ha Hu) in H. cbv zeta in H.
    destruct (enum s); [injection H as _ <-; lia|].
    destruct (schemaType s) as [t|]; [|injection H as _ <-; lia].
    destruct (String.eqb t "string"); [injection H as _ <-; lia|].
    destruct (String.eqb t "number" || String.eqb t "integer");
      [injection H as _ <-; lia|].
    destruct (String.eqb t "boolean"); [injection H as _ <-; lia|].
    destruct (String.eqb t "object").
    { unfold renderObjectField in H. destruct (properties s) as [ps|].
      - unfold mbind at 1 in H.
        match type of H with
        | match ?c (S n) with _ => _ end = _ => destruct (c (S n)) as [[fields n1]|] eqn:Ec
        end; [|discriminate].
        unfold ret in H. injection H as _ <-.
        assert (S n <= n1); [|lia].
        eapply render_props_counter; [|exact Ec]. now apply counter_grows_props.
      - unfold ret in H. injection H as _ <-. lia. }
    destruct (String.eqb t "array"); [|injection H as _ <-; lia].
    destruct (items s) as [it|].
    + destruct IHitems as (Hit & _ & Hitany & Hitone).
      assert (S n <= n'); [|lia].
      eapply renderArrayField_counter; [exact Hit | | exact H].
      destruct (anyOf it) as [vs|].
      * now apply counter_grows_variants.
      * destruct (oneOf it) as [vs|]; [now apply counter_grows_variants | exact I].
    + assert (S n <= n'); [|lia].
      eapply renderArrayField_counter; [apply default_item_field_counter | | exact H].
      exact I.
Qed.

(** X20.  Every call of [renderField] that returns, for any schema, value
    and path, has taken at least one fresh id: the id counter afterwards is
    strictly greater than before, so no two fields of a form share the
    number at the end of their id. *)
Theorem renderField_takes_fresh_id (B : Builtins) (s : schema) (key : string)
        (value : jsvalue) (path : string) (required : bool) (n n' : nat) (node : node) :
  renderField B s key value path required n = Ok (node, n') -> n < n'.
Proof. intros H. exact (proj1 (renderField_counter_all B s) _ _ _ _ _ _ _ H). Qed.

Lemma renderField_takes_fresh_id_witness :
  exists node n',
    renderField DecimalHost customer_schema "c" customer "c" false 4 = Ok (node, n')
    /\ 4 < n'.
Proof.
  eexists. eexists. split.
  - vm_compute. reflexivity.
  - eapply (renderField_takes_fresh_id DecimalHost customer_schema "c" customer "c" false
                                       4).
    vm_compute. reflexivity.
Defined.

(** ** Untyped fields and unions *)

(** X21.  A schema without a type, or with a type that is none of string,
    number, integer, boolean, object and array, is edited as plain text:
    one text input without a data type, which is given
    [value ?? schema.default ?? ''] and, when that is a string [str] without
    line breaks, contributes [str]. *)
Theorem untyped_field_collects_text (B : Builtins) (s : schema)
        (key : string) (value : jsvalue) (path : string) (required : bool) (n : nat)
        (str : string) :
  anyOf s = None -> oneOf s = None -> enum s = None ->
  coalesce (coalesce value (default s)) (VStr "") = VStr str ->
  kept_by "text" str = true ->
  match schemaType s with
  | Some t => negb (String.eqb t "string" || String.eqb t "number"
                    || String.eqb t "integer" || String.eqb t "boolean"
                    || String.eqb t "object" || String.eqb t "array")
  | None => true
  end = true ->
  exists field ctl,
    renderField B s key value path required n = Ok (field, S n)
    /\ controls_in field = [ctl]
    /\ get "type" (attrs_of ctl) = Some (VStr "text")
    /\ get "data-type" (attrs_of ctl) = None
    /\ data_path B ctl = path
    /\ control_value B ctl = VStr str.
Proof.
  intros Ha Ho He Hshown _ Ht.
  rewrite (renderField_plain B s key value path required n Ha Ho).
  cbv zeta. rewrite He.
  assert (E : match schemaType s with
              | Some t =>
                  if String.eqb t "string" then
                    Ok (renderStringField B (path ++ "-" ++ dec (S n)) (getLabel key s) s
                                          value path required, S n)
                  else if String.eqb t "number" || String.eqb t "integer" then
                    Ok (renderNumberField B (path ++ "-" ++ dec (S n)) (getLabel key s) t s
                                          value path required, S n)
                  else if String.eqb t "boolean" then
                    Ok (renderBooleanField (path ++ "-" ++ dec (S n)) (getLabel key s) s
                                           value path required, S n)
                  else if String.eqb t "object" then
                    renderObjectField key s
                      (match properties s with
                       | Some ps => Some (map (fun kp => (fst kp, renderField B (snd kp))) ps)
                       | None => None
                       end)
                      (if truthy value then value else obj []) path required (S n)
                  else if String.eqb t "array" then
                    match items s with
                    | Some it =>
                        renderArrayField B key s (renderField B it)
                          (match anyOf it, oneOf it with
                           | Some vs, _ => Some (map (fun v => (v, renderField B v)) vs)
                           | None, Some vs => Some (map (fun v => (v, renderField B v)) vs)
                           | None, None => None
                           end)
                          value path required (S n)
                    | None =>
                        renderArrayField B key s (default_item_field B) None
                                         value path required (S n)
                    end
                  else Ok (renderTextFallback (path ++ "-" ++ dec (S n)) (getLabel key s) s
                                              value path required, S n)
              | None => Ok (renderTextFallback (path ++ "-" ++ dec (S n)) (getLabel key s) s
                                               value path required, S n)
              end
              = Ok (renderTextFallback (path ++ "-" ++ dec (S n)) (getLabel key s) s
                                       value path required, S n)).
  { destruct (schemaType s) as [t|]; [|reflexivity].
    apply negb_true_iff in Ht.
    apply orb_false_iff in Ht as [Ht H6]. apply orb_false_iff in Ht as [Ht H5].
    apply orb_false_iff in Ht as [Ht H4]. apply orb_false_iff in Ht as [Ht H3].
    apply orb_false_iff in Ht as [H1 H2].
    rewrite H1, H2, H3, H4, H5, H6. reflexivity. }
  rewrite E. eexists. eexists. split; [reflexivity|].
  unfold renderTextFallback. rewrite Hshown, controls_in_leaf_field.
  split; [reflexivity|]. repeat split.
Qed.

Lemma untyped_field_collects_text_witness :
  exists field ctl,
    renderField DecimalHost empty_schema "note" (VStr "seven") "note" false 0
    = Ok (field, 1)
    /\ controls_in field = [ctl]
    /\ control_value DecimalHost ctl = VStr "seven".
Proof.
  destruct (untyped_field_collects_text DecimalHost empty_schema "note" (VStr "seven")
                                        "note" false 0 "seven"
                                        eq_refl eq_refl eq_refl eq_refl eq_refl eq_refl)
    as (field & ctl & H1 & H2 & _ & _ & _ & H6).
  exists field, ctl. split; [exact H1|]. split; [exact H2|]. exact H6.
Defined.

Lemma variant_options_controls (B : Builtins) (current : nat) (vrs : list variant_r) :
  forall i,
    flat_map controls_in
             (mapi_from
                (fun i v =>
                   Elem "option"
                        (if Nat.eqb i current
                         then [("value", VStr (dec i)); ("selected", VBool true)]
                         else [("value", VStr (dec i))])
                        [Text (getVariantLabel B (vr_schema v) i)])
                i vrs) = [].
Proof.
  induction vrs as [|v r IH]; intros i; [reflexivity|].
  cbn [mapi_from flat_map]. rewrite IH, app_nil_r.
  destruct (Nat.eqb i current); reflexivity.
Qed.

Lemma variant_options_value (B : Builtins) (current : nat) (vrs : list variant_r) :
  forall i,
    i <= current -> current < i + List.length vrs ->
    find (fun o => match get "selected" (attrs_of o) with
                   | Some v => truthy v
                   | None => false
                   end)
         (filter (fun c => String.eqb (tag_of c) "option")
                 (mapi_from
                    (fun i v =>
                       Elem "option"
                            (if Nat.eqb i current
                             then [("value", VStr (dec i)); ("selected", VBool true)]
                             else [("value", VStr (dec i))])
                            [Text (getVariantLabel B (vr_schema v) i)])
                    i vrs))
    = Some (Elem "option" [("value", VStr (dec current)); ("selected", VBool true)]
                 [Text (getVariantLabel B
                          (vr_schema (nth (current - i) vrs
                                          {| vr_schema := empty_schema;
                                             vr_field := fun _ _ _ _ => throw;
                                             vr_props := None |}))
                          current)]).
Proof.
  induction vrs as [|v r IH]; intros i Hle Hlt; [cbn in Hlt; lia|].
  cbn [mapi_from filter tag_of String.eqb Ascii.eqb Bool.eqb andb].
  destruct (Nat.eqb i current) eqn:E.
  - apply Nat.eqb_eq in E. subst i. rewrite Nat.sub_diag. reflexivity.
  - apply Nat.eqb_neq in E. cbn [find attrs_of get String.eqb Ascii.eqb Bool.eqb andb].
    rewrite (IH (S i)) by (cbn [List.length] in Hlt; lia).
    replace (current - i) with (S (current - S i)) by lia. reflexivity.
Qed.

(** X22.  A union field that is not a plain choice of constants is
    transparent for the collector.  Its variant selector shows the index of
    the detected variant but is not a bound control; the bound controls of
    the field are exactly those of the detected variant: of its properties,
    rendered below [path] for the value's own properties (when no declared
    name is a member that the value inherits or has built in), when the
    variant is an object with properties, and of the variant rendered as a
    field at the same key and path otherwise. *)
Theorem union_field_collects_detected_variant (B : Builtins) (s : schema)
        (variants : list schema) (key : string) (value : jsvalue) (path : string)
        (required : bool) (n n' : nat) (field : node) :
  getUnionVariants s = Some variants ->
  forallb (fun v => negb (is_undef (const v))) variants = false ->
  renderField B s key value path required n = Ok (field, n') ->
  let i := detectVariant value variants in
  exists v selector fields,
    nth_error variants i = Some v
    /\ node_at [2; 0] field = Some selector
    /\ hasAttribute selector "data-union" = true
    /\ el_value B selector = dec i
    /\ node_at [3] field
       = Some (Elem "div" [("class", VStr "schema-union-content");
                           ("data-variant", VNum (num_of_nat i))] fields)
    /\ controls_in field = flat_map controls_in fields
    /\ match type_is v "object", properties v with
       | true, Some ps =>
           forallb (fun kp => reads_own value (fst kp)) ps = true ->
           render_props (map (fun kp => (fst kp, renderField B (snd kp))) ps)
                        (fun propKey => if nullish value then VUndef
                                        else prop value propKey)
                        path (required_of v) (S n) = Ok (fields, n')
       | _, _ =>
           exists x, renderField B v key value path required (S n) = Ok (x, n')
                     /\ fields = [x]
       end.
Proof.
  intros Hu Hall H. cbv zeta.
  rewrite (renderField_union B s variants key value path required n Hu Hall) in H.
  unfold renderUnionField in H.
  set (vrs := map _ variants) in H.
  assert (Hmap : map vr_schema vrs = variants).
  { unfold vrs. rewrite map_map. cbn [vr_schema]. apply map_id. }
  rewrite Hmap in H.
  set (i := detectVariant value variants) in *.
  destruct (nth_error vrs i) as [cv|] eqn:En; [|discriminate].
  assert (Hlen : i < List.length vrs) by (apply nth_error_Some; congruence).
  assert (Hv : nth_error variants i = Some (vr_schema cv)).
  { rewrite <- Hmap. now apply map_nth_error. }
  assert (Hcv : cv = {| vr_schema := vr_schema cv;
                        vr_field := renderField B (vr_schema cv);
                        vr_props :=
                          match properties (vr_schema cv) with
                          | Some ps => Some (map (fun kp => (fst kp, renderField B (snd kp)))
                                                 ps)
                          | None => None
                          end |}).
  { apply nth_error_In in En. unfold vrs in En.
    apply in_map_iff in En as (v & <- & _). reflexivity. }
  unfold mbind at 1 in H.
  match type of H with
  | match ?c (S n) with _ => _ end = _ => destruct (c (S n)) as [[fields n1]|] eqn:Ec
  end; [|discriminate].
  unfold ret in H. injection H as <- <-.
  exists (vr_schema cv). eexists. exists fields.
  split; [exact Hv|]. split; [reflexivity|]. split; [reflexivity|].
  split; [|split; [reflexivity|split]].
  - unfold el_value.
    cbn [attrs_of get String.eqb Ascii.eqb Bool.eqb andb tag_of children_of].
    rewrite (variant_options_value B i vrs 0) by lia. reflexivity.
  - rewrite controls_in_elem. cbn [flat_map].
    rewrite controls_in_legend, controls_in_description.
    rewrite (controls_in_elem "div" [("class", VStr "schema-union-selector-container")]).
    cbn [flat_map]. rewrite (controls_in_elem "select").
    rewrite (variant_options_controls B i vrs 0).
    rewrite (controls_in_elem "div" (("class", VStr "schema-union-content") :: _)).
    cbn [is_control hasAttribute tag_of attrs_of get String.eqb Ascii.eqb Bool.eqb
                    andb orb negb is_undef app].
    now rewrite app_nil_r.
  - rewrite Hcv in Ec. cbn [vr_schema vr_props vr_field] in Ec.
    destruct (type_is (vr_schema cv) "object"), (properties (vr_schema cv)) as [ps|];
      try (intros _; exact Ec);
      unfold mbind, ret in Ec;
      destruct (renderField B (vr_schema cv) key value path required (S n))
        as [[x k]|] eqn:Ex; try discriminate;
      injection Ec as <- <-; exists x; now split.
Qed.

Lemma union_field_collects_detected_variant_witness :
  exists field n' v selector fields,
    renderField DecimalHost (any_of [typed "string"; typed "boolean"])
                "u" (VBool true) "u" false 0 = Ok (field, n')
    /\ nth_error [typed "string"; typed "boolean"]
                 (detectVariant (VBool true) [typed "string"; typed "boolean"]) = Some v
    /\ node_at [2; 0] field = Some selector
    /\ el_value DecimalHost selector = "1"
    /\ controls_in field = flat_map controls_in fields.
Proof.
  eexists. eexists.
  assert (E : renderField DecimalHost (any_of [typed "string"; typed "boolean"])
                          "u" (VBool true) "u" false 0 = Ok (_, _))
    by (vm_compute; reflexivity).
  destruct (union_field_collects_detected_variant
              DecimalHost (any_of [typed "string"; typed "boolean"])
              [typed "string"; typed "boolean"] "u" (VBool true) "u" false 0 _ _
              eq_refl eq_refl E)
    as (v & selector & fields & H1 & H2 & _ & H4 & _ & H6 & _).
  exists v, selector, fields. split; [exact E|]. split; [exact H1|].
  split; [exact H2|]. split; [exact H4 | exact H6].
Defined.

(** ** Bindings of the rendered controls *)

Lemma raw_single_control (B : Builtins) (node ctl : node) (P : string) (D : jsvalue) :
  controls_in node = [ctl] -> data_path B ctl = P -> control_value B ctl = D ->
  raw_writes B (controls_in node) = map (fun w => (P ++ enc (fst w), snd w)) [([], D)].
Proof.
  intros Hc Hp Hv. rewrite Hc. cbn. now rewrite Hp, Hv, sapp_nil_r.
Qed.

Lemma raw_writes_app (B : Builtins) (a b : list node) :
  raw_writes B (a ++ b)%list = (raw_writes B a ++ raw_writes B b)%list.
Proof. apply map_app. Qed.

Lemma raw_render_props (B : Builtins) (D : jsvalue) (req : option (list string))
      (ps : list (string * schema)) :
  Forall (fun kp =>
            safe_key (fst kp) = true
            /\ raw_field_writes B (renderField B (snd kp)) (prop D (fst kp))
                                (flatten (canon (snd kp) (prop D (fst kp))))) ps ->
  forall P n,
    exists fields n',
      render_props (map (fun kp => (fst kp, renderField B (snd kp))) ps) (prop D) P req n
      = Ok (fields, n')
      /\ raw_writes B (flat_map controls_in fields)
         = map (fun w => (P ++ enc (fst w), snd w))
               (flatten (VObj false
                              (map (fun kp => (fst kp, canon (snd kp) (prop D (fst kp))))
                                   ps))).
Proof.
  induction 1 as [|[k p] r [Hk Hf] Hr IH]; intros P n.
  - exists [], n. split; reflexivity.
  - cbn [fst snd] in Hk, Hf.
    destruct (safe_key_facts k Hk) as (_ & _ & _ & Hnum).
    destruct (Hf k (P ++ "." ++ k) (includes req k) n) as (x & n1 & Hx & Hxw).
    destruct (IH P n1) as (xs & n2 & Hxs & Hxsw).
    exists (x :: xs), n2. split.
    + cbn [map render_props fst snd]. unfold mbind at 1. rewrite Hx.
      unfold mbind at 1. rewrite Hxs. reflexivity.
    + cbn [flat_map]. rewrite raw_writes_app, Hxw, Hxsw.
      cbn [map flatten flat_map fst snd]. rewrite map_app, map_map. f_equal.
      apply map_ext. intros w. cbn [fst snd enc]. rewrite Hnum.
      now rewrite !sapp_assoc.
Qed.

Lemma renderArrayItem_bound (B : Builtins) (field : renderer) (itemLabel : string)
      (x : jsvalue) (path : string) (index n n' : nat) (item : node) :
  renderArrayItem field itemLabel x path index None n = Ok (item, n') ->
  tag_of item = "div" /\ has_class item "schema-array-item" = true
  /\ exists itemContent,
      field itemLabel x path false n = Ok (itemContent, n')
      /\ controls_in item = controls_in itemContent.
Proof.
  intros H. split; [|split].
  - unfold renderArrayItem, mbind, ret in H.
    destruct (field itemLabel x path false n) as [[c k]|]; [|discriminate].
    now injection H as <- _.
  - eapply renderArrayItem_is_item. exact H.
  - eapply renderArrayItem_controls. exact H.
Qed.

Lemma raw_render_items (B : Builtins) (field : renderer)
      (canon_item : jsvalue -> jsvalue) (its : list jsvalue) :
  Forall (fun x => raw_field_writes B field x (flatten (canon_item x))) its ->
  forall P i n,
    exists nodes n',
      render_items B field None P (mapi_from pair i its) n = Ok (nodes, n')
      /\ Forall2 (item_bound B P canon_item) nodes (mapi_from pair i its).
Proof.
  induction 1 as [|x r Hf Hr IH]; intros P i n.
  - exists [], n. split; [reflexivity | constructor].
  - destruct (Hf ("Item " ++ dec (i + 1)) (P ++ "[" ++ dec i ++ "]") false n)
      as (c & n1 & Hc & Hcw).
    destruct (IH P (S i) n1) as (xs & n2 & Hxs & Hxsb).
    assert (Hitem : exists item,
               renderArrayItem field ("Item " ++ dec (i + 1)) x
                               (P ++ "[" ++ dec i ++ "]") i None n = Ok (item, n1))
      by (unfold renderArrayItem, mbind; rewrite Hc; unfold ret; eauto).
    destruct Hitem as [item Hitem].
    destruct (renderArrayItem_bound B field _ x _ i n n1 item Hitem)
      as (Ht & Hcls & c' & Hc' & Hctl).
    rewrite Hc in Hc'. injection Hc' as <-.
    exists (item :: xs), n2. split.
    + cbn [mapi_from render_items]. unfold mbind at 1. unfold render_item.
      rewrite Hitem. unfold mbind at 1. rewrite Hxs. reflexivity.
    + cbn [mapi_from]. constructor; [|exact Hxsb].
      split; [exact Ht|]. split; [exact Hcls|]. cbn [fst snd]. now rewrite Hctl, Hcw.
Qed.

Lemma flatten_arr_map (f : jsvalue -> jsvalue) (l : list jsvalue) :
  forall i,
    flatten (VObj true (arr_props i (map f l)))
    = flat_map (fun ix => map (fun w => (dec (fst ix) :: fst w, snd w))
                              (flatten (f (snd ix))))
               (mapi_from pair i l).
Proof.
  induction l as [|x r IH]; intros i; [reflexivity|].
  cbn [map arr_props mapi_from flatten flat_map fst snd]. f_equal.
  specialize (IH (S i)). cbn [flatten] in IH. exact IH.
Qed.

Lemma items_bound_writes (B : Builtins) (P : string) (canon_item : jsvalue -> jsvalue)
      (nodes : list node) (ixs : list (nat * jsvalue)) :
  Forall2 (item_bound B P canon_item) nodes ixs ->
  raw_writes B (flat_map controls_in nodes)
  = map (fun w => (P ++ enc (fst w), snd w))
        (flat_map (fun ix => map (fun w => (dec (fst ix) :: fst w, snd w))
                                 (flatten (canon_item (snd ix)))) ixs).
Proof.
  induction 1 as [|node [i x] nodes ixs (_ & _ & Hw) Hrest IH]; [reflexivity|].
  cbn [flat_map]. rewrite raw_writes_app, Hw, IH, map_app, map_map. f_equal.
  apply map_ext. intros w. cbn [fst snd enc]. rewrite dec_numeric.
  now rewrite !sapp_assoc.
Qed.

Lemma array_field_render (B : Builtins) (s : schema) (field : renderer)
      (canon_item : jsvalue -> jsvalue) (its : list jsvalue)
      (key P : string) (required : bool) (n : nat) :
  anyOf s = None -> oneOf s = None -> enum s = None -> schemaType s = Some "array" ->
  match items s with
  | Some it => anyOf it = None /\ oneOf it = None /\ field = renderField B it
  | None => field = default_item_field B
  end ->
  Forall (fun x => raw_field_writes B field x (flatten (canon_item x))) its ->
  exists nodes n',
    renderField B s key (arr its) P required n
    = Ok (Elem "fieldset" [("class", VStr "schema-array"); ("data-path", VStr P)]
               [legend_of (getLabel key s) required; description_line s;
                Elem "div" [("class", VStr "schema-array-items"); ("data-path", VStr P)]
                     nodes;
                add_controls B None P; array_constraints B s], n')
    /\ Forall2 (item_bound B P canon_item) nodes (mapi_from pair 0 its).
Proof.
  intros Ha Ho He Ht Hit HF.
  rewrite (renderField_plain B s key (arr its) P required n Ha Ho). cbv zeta.
  rewrite He, Ht. cbn [String.eqb Ascii.eqb Bool.eqb andb orb].
  destruct (raw_render_items B field canon_item its HF P 0 (S n))
    as (nodes & n' & Hr & Hb).
  exists nodes, n'. split; [|exact Hb].
  assert (E : forall itemVariants,
             itemVariants = None ->
             renderArrayField B key s field itemVariants (arr its) P required (S n)
             = Ok (Elem "fieldset" [("class", VStr "schema-array"); ("data-path", VStr P)]
                        [legend_of (getLabel key s) required; description_line s;
                         Elem "div" [("class", VStr "schema-array-items");
                                     ("data-path", VStr P)] nodes;
                         add_controls B None P; array_constraints B s], n')).
  { intros iv ->. unfold renderArrayField, forEach_entries, arr. cbn [truthy].
    rewrite array_entries_arr_props. unfold mbind. rewrite Hr. reflexivity. }
  destruct (items s) as [it|].
  - destruct Hit as (Hai & Hoi & ->). rewrite Hai, Hoi. now apply E.
  - subst field. now apply E.
Qed.

Lemma conforms_array_items (B : Builtins) (s : schema) (d : list (string * jsvalue)) :
  conforms B s (VObj true d) = true ->
  anyOf s = None /\ oneOf s = None /\ enum s = None /\ schemaType s = Some "array"
  /\ d = arr_props 0 (map snd d)
  /\ d <> []
  /\ Forall (fun x => match items s with
                      | Some it => conforms B it x = true
                      | None => exists str, x = VStr str
                      end) (map snd d)
  /\ canon s (VObj true d)
     = arr (map (match items s with Some it => canon it | None => fun v => v end)
                (map snd d)).
Proof.
  intros Hc. rewrite conforms_unfold in Hc. rewrite canon_unfold.
  destruct (anyOf s); [discriminate|]. destruct (oneOf s); [discriminate|].
  destruct (enum s); [discriminate|].
  destruct (schemaType s) as [t|]; [|discriminate].
  destruct (String.eqb t "string") eqn:E1; [discriminate|].
  destruct (String.eqb t "number" || String.eqb t "integer") eqn:E2; [discriminate|].
  destruct (String.eqb t "boolean") eqn:E3; [discriminate|].
  destruct (String.eqb t "object") eqn:E4.
  { destruct (properties s); discriminate. }
  destruct (String.eqb t "array") eqn:E5; [|discriminate].
  apply String.eqb_eq in E5. subst t.
  apply andb_prop in Hc as [Hnn Hit].
  apply items_conform_spec in Hit as [Hd Hok].
  repeat split; try reflexivity.
  - exact Hd.
  - destruct d; [discriminate | discriminate].
  - eapply Forall_impl; [|exact Hok]. intros x Hx. cbv beta in Hx.
    destruct (items s); [exact Hx|]. destruct x; try discriminate. eauto.
  - unfold arr. destruct (items s) as [it|].
    + rewrite Hd at 1. now rewrite map_arr_props.
    + rewrite map_id. now rewrite <- Hd.
Qed.

Lemma default_item_field_raw (B : Builtins) (str : string) :
  raw_field_writes B (default_item_field B) (VStr str) (flatten (VStr str)).
Proof.
  intros key P required n. unfold default_item_field, mbind, uniqueId, ret.
  eexists _, _. split; [reflexivity|].
  destruct (string_control_facts B (P ++ "-" ++ dec (S n)) string_schema str P required)
    as (H1 & H2 & H3).
  eapply raw_single_control; [|exact H2 | exact H3].
  unfold renderStringField. rewrite controls_in_leaf_field. exact H1.
Qed.

Lemma conforms_raw_writes (B : Builtins) (s : schema) :
  forall D, conforms B s D = true ->
            raw_field_writes B (renderField B s) D (flatten (canon s D)).
Proof.
  induction s as [s IHprops IHitems] using schema_induction.
  intros D Hc0 key P required n. pose proof Hc0 as Hc.
  rewrite conforms_unfold in Hc.
  destruct (anyOf s) eqn:Ha; [discriminate|].
  destruct (oneOf s) eqn:Ho; [discriminate|].
  destruct (enum s) as [vs|] eqn:He.
  { (* enum *)
    rewrite (renderField_plain B s key D P required n Ha Ho). cbv zeta.
    rewrite canon_unfold, He.
    destruct D as [| | | |str|]; try discriminate.
    destruct (choice_field_facts B (P ++ "-" ++ dec (S n)) (getLabel key s) s vs str P
                                 required Hc) as (ctl & H1 & H2 & H3).
    eexists _, _. split; [reflexivity|].
    eapply raw_single_control; eassumption. }
  destruct (schemaType s) as [t|] eqn:Ht; [|discriminate].
  destruct (String.eqb t "string") eqn:E1.
  { rewrite (renderField_plain B s key D P required n Ha Ho). cbv zeta.
    rewrite canon_unfold, He, Ht.
    apply string_eqb_true in E1. subst t. cbn [String.eqb Ascii.eqb Bool.eqb andb].
    destruct D as [| | | |str|]; try discriminate.
    destruct (string_control_facts B (P ++ "-" ++ dec (S n)) s str P required)
      as (H1 & H2 & H3).
    eexists _, _. split; [reflexivity|].
    eapply raw_single_control; [|exact H2 | exact H3].
    unfold renderStringField. rewrite controls_in_leaf_field. exact H1. }
  destruct (String.eqb t "number" || String.eqb t "integer") eqn:E2.
  { rewrite (renderField_plain B s key D P required n Ha Ho). cbv zeta.
    rewrite canon_unfold, He, Ht, E1, E2.
    assert (Ht' : t = "number" \/ t = "integer").
    { apply orb_true_iff in E2 as [E | E]; apply string_eqb_true in E; auto. }
    destruct D as [| | |num| |]; try discriminate.
    apply andb_prop in Hc as [Hs Hn].
    destruct (number_field_facts B (P ++ "-" ++ dec (S n)) (getLabel key s) t s num P
                                 required Ht' Hs Hn) as (ctl & H1 & H2 & H3).
    eexists _, _. split; [reflexivity|].
    assert (Hleaf : (if String.eqb t "object"
                     then match properties s with
                          | Some ps =>
                              VObj false
                                   (map (fun kp => (fst kp, canon (snd kp)
                                                                  (prop (VNum num) (fst kp))))
                                        ps)
                          | None => VNum num
                          end
                     else if String.eqb t "array"
                          then VNum num
                          else VNum num) = VNum num).
    { destruct Ht' as [-> | ->]; reflexivity. }
    rewrite Hleaf. eapply raw_single_control; eassumption. }
  destruct (String.eqb t "boolean") eqn:E3.
  { rewrite (renderField_plain B s key D P required n Ha Ho). cbv zeta.
    rewrite canon_unfold, He, Ht.
    apply string_eqb_true in E3. subst t. cbn [String.eqb Ascii.eqb Bool.eqb andb orb].
    destruct D as [| |b| | |]; try discriminate.
    destruct (boolean_field_facts B (P ++ "-" ++ dec (S n)) (getLabel key s) s b P required)
      as (ctl & H1 & H2 & H3).
    eexists _, _. split; [reflexivity|].
    eapply raw_single_control; eassumption. }
  destruct (String.eqb t "object") eqn:E4.
  { (* object *)
    rewrite (renderField_plain B s key D P required n Ha Ho). cbv zeta.
    rewrite canon_unfold, He, Ht, E1, E2, E3, E4.
    destruct (properties s) as [ps|] eqn:Hps; [|discriminate].
    destruct D as [| | | | |[|] d]; try discriminate.
    apply andb_prop in Hc as [Hc Hall].
    pose proof (children_conform B
                  (fun p v => raw_field_writes B (renderField B p) v (flatten (canon p v)))
                  d ps IHprops Hall) as Hch.
    assert (Hch' : Forall (fun kp =>
                             safe_key (fst kp) = true
                             /\ raw_field_writes B (renderField B (snd kp))
                                                 (prop (VObj false d) (fst kp))
                                                 (flatten (canon (snd kp)
                                                                 (prop (VObj false d)
                                                                       (fst kp)))))
                          ps).
    { eapply Forall_impl; [|exact Hch]. intros kp (H1 & _ & H3). now split. }
    destruct (raw_render_props B (VObj false d) (required_of s) ps Hch' P (S n))
      as (fields & n' & Hr & Hw).
    exists (Elem "fieldset" [("class", VStr "schema-object"); ("data-path", VStr P)]
                 (legend_of (getLabel key s) required :: description_line s :: fields)),
           n'.
    split.
    + unfold renderObjectField. cbn [truthy]. unfold mbind. rewrite Hr. reflexivity.
    + rewrite controls_in_elem. cbn [flat_map].
      now rewrite controls_in_legend, controls_in_description. }
  destruct (String.eqb t "array") eqn:E5; [|discriminate].
  (* array *)
  destruct D as [| | | | |[|] d]; try discriminate.
  clear Hc.
  destruct (conforms_array_items B s d Hc0)
    as (_ & _ & _ & Ht' & Hd & Hne & Hok & Hcanon).
  rewrite Hcanon.
  set (l := map snd d) in *.
  assert (Harr : VObj true d = arr l) by (unfold arr; now rewrite <- Hd).
  rewrite Harr.
  destruct (items s) as [it|] eqn:Hits.
  - assert (Hunion : anyOf it = None /\ oneOf it = None).
    { destruct l as [|x r]; [rewrite Hd in Hne; now contradiction Hne|].
      inversion Hok as [|? ? Hx _]; subst. rewrite conforms_unfold in Hx.
      destruct (anyOf it); [discriminate|]. destruct (oneOf it); [discriminate|].
      now split. }
    destruct Hunion as [Hai Hoi].
    assert (HF : Forall (fun x => raw_field_writes B (renderField B it) x
                                                   (flatten (canon it x))) l).
    { eapply Forall_impl; [|exact Hok]. intros x Hx. now apply IHitems. }
    destruct (array_field_render B s (renderField B it) (canon it) l key P required n
                                 Ha Ho He Ht') as (nodes & n' & Hr & Hb);
      [rewrite Hits; now repeat split | exact HF |].
    eexists _, n'. split; [exact Hr|].
    rewrite controls_in_array_field, (items_bound_writes B P (canon it) nodes _ Hb).
    unfold arr. now rewrite flatten_arr_map.
  - assert (HF : Forall (fun x => raw_field_writes B (default_item_field B) x
                                                   (flatten ((fun v => v) x))) l).
    { eapply Forall_impl; [|exact Hok]. intros x [str ->].
      apply default_item_field_raw. }
    destruct (array_field_render B s (default_item_field B) (fun v => v) l key P required
                                 n Ha Ho He Ht') as (nodes & n' & Hr & Hb);
      [rewrite Hits; reflexivity | exact HF |].
    eexists _, n'. split; [exact Hr|].
    rewrite controls_in_array_field,
      (items_bound_writes B P (fun v => v) nodes _ Hb).
    unfold arr. now rewrite flatten_arr_map.
Qed.

(** ** Re-indexing and the bindings *)

Lemma node_induction (P : node -> Prop) :
  (forall s, P (Text s)) ->
  (forall t a cs, Forall P cs -> P (Elem t a cs)) ->
  forall n, P n.
Proof.
  intros HT HE. fix IH 1. intros [s|t a cs]; [apply HT|].
  apply HE. induction cs as [|c r IHr]; constructor; [apply IH | exact IHr].
Qed.

Lemma repath_elem (B : Builtins) (j : nat) (t : string) (a : list (string * jsvalue))
      (cs : list node) :
  exists a',
    repath B j (Elem t a cs) = Elem t a' cs
    /\ (forall k, k <> "data-path" -> k <> "name" -> get k a' = get k a)
    /\ (match get "data-path" a with
        | Some v => get "data-path" a'
                    = Some (VStr (replace_first_index (dec j) (String_of B v)))
        | None => get "data-path" a' = None
        end).
Proof.
  unfold repath, hasAttribute, getAttribute. cbn [attrs_of].
  destruct (get "data-path" a) as [v|] eqn:Ep.
  - cbn [setAttribute attrs_of].
    rewrite (get_set_other "name" "data-path") by discriminate.
    destruct (get "name" a).
    + eexists. split; [reflexivity|]. split.
      * intros k H1 H2. now rewrite !get_set_other by assumption.
      * rewrite get_set_other by discriminate. apply get_set_same.
    + eexists. split; [reflexivity|]. split.
      * intros k H1 H2. now rewrite get_set_other by assumption.
      * apply get_set_same.
  - exists a. now repeat split.
Qed.

Lemma repath_all_elem (B : Builtins) (j : nat) (t : string)
      (a : list (string * jsvalue)) (cs : list node) :
  exists a',
    repath_all B j (Elem t a cs) = Elem t a' (map (repath_all B j) cs)
    /\ (forall k, k <> "data-path" -> k <> "name" -> get k a' = get k a)
    /\ (match get "data-path" a with
        | Some v => get "data-path" a'
                    = Some (VStr (replace_first_index (dec j) (String_of B v)))
        | None => get "data-path" a' = None
        end).
Proof.
  unfold repath_all. cbn [repath_descendants].
  change (map (fun c => repath B j (repath_descendants B j c)) cs)
    with (map (repath_all B j) cs).
  apply repath_elem.
Qed.

Lemma repath_all_text (B : Builtins) (j : nat) (s : string) :
  repath_all B j (Text s) = Text s.
Proof. reflexivity. Qed.

Lemma opt_view_repath_all (B : Builtins) (j : nat) (c : node) :
  opt_view (repath_all B j c) = opt_view c.
Proof.
  destruct c as [s|t a cs]; [reflexivity|].
  destruct (repath_all_elem B j t a cs) as (a' & -> & Hk & _).
  unfold opt_view. cbn [tag_of attrs_of]. now rewrite !Hk by discriminate.
Qed.

Lemma select_shown_ext (B : Builtins) (cs cs' : list node) :
  map opt_view cs = map opt_view cs' ->
  match find (fun o => match get "selected" (attrs_of o) with
                       | Some v => truthy v
                       | None => false
                       end)
             (filter (fun c => String.eqb (tag_of c) "option") cs) with
  | Some o => match get "value" (attrs_of o) with
              | Some v => String_of B v
              | None => ""
              end
  | None =>
      match filter (fun c => String.eqb (tag_of c) "option") cs with
      | o :: _ => match get "value" (attrs_of o) with
                  | Some v => String_of B v
                  | None => ""
                  end
      | [] => ""
      end
  end
  = match find (fun o => match get "selected" (attrs_of o) with
                         | Some v => truthy v
                         | None => false
                         end)
               (filter (fun c => String.eqb (tag_of c) "option") cs') with
    | Some o => match get "value" (attrs_of o) with
                | Some v => String_of B v
                | None => ""
                end
    | None =>
        match filter (fun c => String.eqb (tag_of c) "option") cs' with
        | o :: _ => match get "value" (attrs_of o) with
                    | Some v => String_of B v
                    | None => ""
                    end
        | [] => ""
        end
    end.
Proof.
  intros H.
  assert (Hfind : forall l l' : list node,
             map opt_view l = map opt_view l' ->
             option_map opt_view
               (find (fun o => match get "selected" (attrs_of o) with
                               | Some v => truthy v
                               | None => false
                               end)
                     (filter (fun c => String.eqb (tag_of c) "option") l))
             = option_map opt_view
                 (find (fun o => match get "selected" (attrs_of o) with
                                 | Some v => truthy v
                                 | None => false
                                 end)
                       (filter (fun c => String.eqb (tag_of c) "option") l'))
             /\ option_map opt_view
                  (hd_error (filter (fun c => String.eqb (tag_of c) "option") l))
                = option_map opt_view
                    (hd_error (filter (fun c => String.eqb (tag_of c) "option") l'))).
  { induction l as [|c r IH]; intros [|c' r'] Hm; try discriminate; [now split|].
    cbn [map] in Hm. unfold opt_view at 1 3 in Hm. injection Hm as Ht Hs Hv Hr.
    specialize (IH r' Hr).
    cbn [filter]. rewrite Ht. destruct (String.eqb (tag_of c') "option").
    - cbn [find hd_error option_map]. rewrite Hs.
      split; [|unfold opt_view; now rewrite Ht, Hs, Hv].
      destruct (match get "selected" (attrs_of c') with
                | Some v => truthy v
                | None => false
                end).
      + cbn [option_map]. unfold opt_view. now rewrite Ht, Hs, Hv.
      + apply IH.
    - exact IH. }
  destruct (Hfind cs cs' H) as [Hf Hh].
  destruct (find _ (filter _ cs)) as [o|], (find _ (filter _ cs')) as [o'|];
    try discriminate.
  - cbn [option_map] in Hf. injection Hf as _ _ Hv. now rewrite Hv.
  - destruct (filter _ cs) as [|o r], (filter _ cs') as [|o' r']; try discriminate;
      [reflexivity|].
    cbn [hd_error option_map] in Hh. injection Hh as _ _ Hv. now rewrite Hv.
Qed.

Lemma repath_all_control (B : Builtins) (j : nat) (el : node) :
  is_control (repath_all B j el) = is_control el
  /\ control_value B (repath_all B j el) = control_value B el
  /\ (is_control el = true ->
      data_path B (repath_all B j el) = replace_first_index (dec j) (data_path B el)).
Proof.
  destruct el as [s|t a cs]; [repeat split|].
  destruct (repath_all_elem B j t a cs) as (a' & -> & Hk & Hp).
  assert (Hhas : hasAttribute (Elem t a' (map (repath_all B j) cs)) "data-path"
                 = hasAttribute (Elem t a cs) "data-path").
  { unfold hasAttribute. cbn [attrs_of].
    destruct (get "data-path" a) as [v|]; now rewrite Hp. }
  split; [|split].
  - unfold is_control. rewrite Hhas. unfold hasAttribute. cbn [tag_of attrs_of].
    now rewrite (Hk "data-union") by discriminate.
  - unfold control_value, is_checkbox, getAttribute, el_checked, el_value.
    cbn [tag_of attrs_of children_of].
    rewrite (Hk "type"), (Hk "data-type"), (Hk "checked"), (Hk "value") by discriminate.
    rewrite (select_shown_ext B (map (repath_all B j) cs) cs); [reflexivity|].
    rewrite map_map. apply map_ext. intros c. apply opt_view_repath_all.
  - intros Hc. unfold is_control in Hc. apply andb_prop in Hc as [Hc _].
    apply andb_prop in Hc as [_ Hc]. unfold hasAttribute in Hc. cbn [attrs_of] in Hc.
    unfold data_path, getAttribute. cbn [attrs_of].
    destruct (get "data-path" a) as [v|]; [|discriminate]. now rewrite Hp.
Qed.

Lemma raw_writes_flat_map (B : Builtins) (f : node -> node) (g : string -> string)
      (cs : list node) :
  Forall (fun c => raw_writes B (controls_in (f c))
                   = map (fun pw => (g (fst pw), snd pw)) (raw_writes B (controls_in c)))
         cs ->
  raw_writes B (flat_map controls_in (map f cs))
  = map (fun pw => (g (fst pw), snd pw)) (raw_writes B (flat_map controls_in cs)).
Proof.
  induction 1 as [|c r Hc Hr IH]; [reflexivity|].
  cbn [map flat_map]. now rewrite !raw_writes_app, map_app, Hc, IH.
Qed.

Lemma repath_all_writes (B : Builtins) (j : nat) (c : node) :
  raw_writes B (controls_in (repath_all B j c))
  = map (fun pw => (replace_first_index (dec j) (fst pw), snd pw))
        (raw_writes B (controls_in c)).
Proof.
  induction c as [s|t a cs IH] using node_induction; [reflexivity|].
  destruct (repath_all_control B j (Elem t a cs)) as (Hctl & Hval & Hpath).
  destruct (repath_all_elem B j t a cs) as (a' & E & _).
  rewrite E in *. rewrite !controls_in_elem, Hctl, !raw_writes_app, map_app.
  rewrite (raw_writes_flat_map B (repath_all B j) (replace_first_index (dec j)) cs IH).
  f_equal. destruct (is_control (Elem t a cs)); [|reflexivity].
  cbn [raw_writes map fst snd]. now rewrite Hval, (Hpath eq_refl).
Qed.

Lemma reindex_item_writes (B : Builtins) (j : nat) (item : node) :
  tag_of item = "div" ->
  raw_writes B (controls_in (reindex_item B j item))
  = map (fun pw => (replace_first_index (dec j) (fst pw), snd pw))
        (raw_writes B (controls_in item)).
Proof.
  intros Ht. destruct item as [s|t a cs]; [reflexivity|]. cbn [tag_of] in Ht. subst t.
  unfold reindex_item. cbn [setAttribute repath_descendants].
  change (map (fun c => repath B j (repath_descendants B j c)) cs)
    with (map (repath_all B j) cs).
  rewrite !controls_in_elem.
  change (is_control (Elem "div" _ _)) with false. cbn [app].
  apply raw_writes_flat_map. apply Forall_forall. intros c _. apply repath_all_writes.
Qed.

Lemma path_index_assoc (P ds e : string) :
  (P ++ "[" ++ ds ++ "]") ++ e = P ++ "[" ++ ds ++ "]" ++ e.
Proof.
  rewrite sapp_assoc. f_equal. cbn [String.append]. f_equal. apply sapp_assoc.
Qed.

Lemma item_bound_reindex (B : Builtins) (P : string) (canon_item : jsvalue -> jsvalue)
      (item : node) (i j : nat) (x : jsvalue) :
  has_char "["%char P = false ->
  item_bound B P canon_item item (i, x) ->
  item_bound B P canon_item (reindex_item B j item) (j, x).
Proof.
  intros HP (Ht & Hc & Hw). split; [|split].
  - destruct item; [discriminate|]. exact Ht.
  - now rewrite has_class_reindex_item.
  - rewrite (reindex_item_writes B j item Ht), Hw, map_map. cbn [fst snd].
    apply map_ext. intros w. cbn [fst snd]. f_equal.
    rewrite !path_index_assoc.
    apply (replace_first_index_single (dec j) P (dec i) (enc (fst w)) HP
                                      (dec_digits i) (dec_nonempty i)).
Qed.

Lemma items_bound_reindex (B : Builtins) (P : string) (canon_item : jsvalue -> jsvalue)
      (items : list node) (ixs : list (nat * jsvalue)) :
  has_char "["%char P = false ->
  Forall2 (item_bound B P canon_item) items ixs ->
  forall j,
    Forall2 (item_bound B P canon_item) (mapi_from (reindex_item B) j items)
            (mapi_from pair j (map snd ixs)).
Proof.
  intros HP. induction 1 as [|item [i x] items ixs Hb Hrest IH]; intros j;
    [constructor|].
  cbn [map mapi_from snd]. constructor; [|apply IH].
  now apply (item_bound_reindex B P canon_item item i j x HP).
Qed.

(** ** Removing an array item in a mounted form *)

Lemma writes_of_raw (B : Builtins) (els : list node) :
  writes B els = map (fun pw => (path_parts (fst pw), snd pw)) (raw_writes B els).
Proof. unfold writes, raw_writes. now rewrite map_map. Qed.

Lemma map_eq_pointwise {A C : Type} (f g : A -> C) (l : list A) :
  map f l = map g l -> Forall (fun x => f x = g x) l.
Proof.
  induction l as [|x r IH]; intros H; [constructor|].
  cbn [map] in H. injection H as Hx Hr. constructor; auto.
Qed.

(** For the leaves of conforming data the text appended to a path reads back
    as the segments of the leaf. *)
Lemma enc_parts (B : Builtins) (s : schema) (D : jsvalue) (P : string) :
  conforms B s D = true -> P <> "" ->
  Forall (fun w => path_parts (P ++ enc (fst w)) = (path_parts P ++ fst w)%list)
         (flatten (canon s D)).
Proof.
  intros Hc HP.
  destruct (conforms_field_writes B s D Hc "k" P false 0 HP) as (node & n' & Hr & _ & Hw).
  destruct (conforms_raw_writes B s D Hc "k" P false 0) as (node' & n'' & Hr' & Hw').
  rewrite Hr in Hr'. injection Hr' as <- <-.
  rewrite writes_of_raw, Hw', map_map in Hw. cbn [fst snd] in Hw.
  apply map_eq_pointwise in Hw. eapply Forall_impl; [|exact Hw].
  intros w H. cbv beta in H. now injection H as H.
Qed.

Lemma reindex_children_items (B : Builtins) (cs : list node) :
  Forall (fun c => has_class c "schema-array-item" = true) cs ->
  forall i, reindex_children B i cs = mapi_from (reindex_item B) i cs.
Proof.
  induction 1 as [|c r Hc Hr IH]; intros i; [reflexivity|].
  cbn [reindex_children mapi_from]. now rewrite Hc, IH.
Qed.

Lemma Forall2_remove_at {A C : Type} (R : A -> C -> Prop) (l : list A) (m : list C) :
  Forall2 R l m -> forall k, Forall2 R (remove_at k l) (remove_at k m).
Proof.
  induction 1 as [|x y l m Hxy Hrest IH]; intros k; [destruct k; constructor|].
  destruct k as [|k]; cbn [remove_at]; [exact Hrest|]. constructor; [exact Hxy | apply IH].
Qed.

Lemma map_snd_mapi_pair {A : Type} (l : list A) :
  forall i, map snd (mapi_from pair i l) = l.
Proof. induction l as [|x r IH]; intros i; cbn; [reflexivity | now rewrite IH]. Qed.

Lemma map_remove_at {A C : Type} (f : A -> C) (l : list A) :
  forall k, map f (remove_at k l) = remove_at k (map f l).
Proof.
  induction l as [|x r IH]; intros k; [now destruct k|].
  destruct k as [|k]; cbn [remove_at map]; [reflexivity | now rewrite IH].
Qed.

Lemma map_snd_arr_props (l : list jsvalue) :
  forall i, map snd (arr_props i l) = l.
Proof. induction l as [|x r IH]; intros i; cbn; [reflexivity | now rewrite IH]. Qed.

Lemma Forall2_update_nth {A C : Type} (R R' : A -> C -> Prop) (g : A -> A)
      (l : list A) (m : list C) :
  Forall2 R l m ->
  forall i y,
    nth_error m i = Some y ->
    (forall x, R x y -> R' (g x) y) ->
    (forall j x z, j <> i -> nth_error m j = Some z -> R x z -> R' x z) ->
    Forall2 R' (update_nth i g l) m.
Proof.
  induction 1 as [|x z l m Hxz Hrest IH]; intros i y Hi Hg Hother;
    [destruct i; discriminate|].
  destruct i as [|i]; cbn [update_nth].
  - cbn in Hi. injection Hi as <-. constructor; [now apply Hg|].
    clear IH Hg Hxz. 
    assert (Hrest' : forall j x' z', nth_error m j = Some z' -> R x' z' -> R' x' z').
    { intros j x' z' Hj. apply (Hother (S j)); [lia | exact Hj]. }
    clear Hother. induction Hrest as [|x' z' l m Hx Hr IHr]; constructor.
    + apply (Hrest' 0 x' z' eq_refl Hx).
    + apply IHr. intros j. apply (Hrest' (S j)).
  - constructor.
    + apply (Hother 0 x z); [lia | reflexivity | exact Hxz].
    + apply (IH i y Hi Hg). intros j x' z' Hj. apply (Hother (S j)). lia.
Qed.

Lemma root_fields (B : Builtins) (D : jsvalue) (req : option (list string))
      (ps : list (string * schema)) :
  nullish D = false ->
  Forall (fun kp => conforms B (snd kp) (prop D (fst kp)) = true) ps ->
  forall n,
    exists fields n',
      render_root_props B req D ps n = Ok (fields, n')
      /\ Forall2 (fun field kp =>
                    raw_writes B (controls_in field)
                    = map (fun w => (fst kp ++ enc (fst w), snd w))
                          (flatten (canon (snd kp) (prop D (fst kp))))
                    /\ exists m m',
                      renderField B (snd kp) (fst kp) (prop D (fst kp)) (fst kp)
                                  (includes req (fst kp)) m = Ok (field, m'))
                 fields ps.
Proof.
  intros HD. induction 1 as [|[k p] r Hc Hr IH]; intros n.
  - exists [], n. split; [reflexivity | constructor].
  - cbn [fst snd] in Hc.
    destruct (conforms_raw_writes B p (prop D k) Hc k k (includes req k) n)
      as (x & n1 & Hx & Hxw).
    destruct (IH n1) as (xs & n2 & Hxs & Hb).
    exists (x :: xs), n2. split.
    + cbn [render_root_props]. rewrite HD. unfold mbind at 1. rewrite Hx.
      unfold mbind at 1. rewrite Hxs. reflexivity.
    + constructor; [|exact Hb]. cbn [fst snd]. split; [exact Hxw|]. eauto.
Qed.

Lemma fields_collect (B : Builtins) (D : jsvalue) (a : list (string * jsvalue))
      (ps : list (string * schema)) (fields : list node) :
  nonnil ps = true -> nodupb (keys ps) = true ->
  Forall (fun kp => safe_key (fst kp) = true
                    /\ conforms B (snd kp) (prop D (fst kp)) = true) ps ->
  Forall2 (fun field kp =>
             raw_writes B (controls_in field)
             = map (fun w => (fst kp ++ enc (fst w), snd w))
                   (flatten (canon (snd kp) (prop D (fst kp))))) fields ps ->
  collectFormData B (Elem "form" a fields)
  = Ok (VObj false (map (fun kp => (fst kp, canon (snd kp) (prop D (fst kp)))) ps)).
Proof.
  intros Hnn Hnd Hall Hb.
  assert (Hraw : raw_writes B (flat_map controls_in fields)
                 = flat_map (fun kp => map (fun w => (fst kp ++ enc (fst w), snd w))
                                           (flatten (canon (snd kp) (prop D (fst kp)))))
                            ps).
  { clear -Hb. induction Hb as [|f kp fs ps Hf Hrest IH]; [reflexivity|].
    cbn [flat_map]. now rewrite raw_writes_app, Hf, IH. }
  assert (Hw : writes B (flat_map controls_in fields)
               = flatten (VObj false
                               (map (fun kp => (fst kp, canon (snd kp) (prop D (fst kp))))
                                    ps))).
  { rewrite writes_of_raw, Hraw. clear -Hall.
    induction Hall as [|[k p] r [Hk Hc] Hr IH]; [reflexivity|].
    cbn [fst snd] in Hk, Hc.
    cbn [flat_map map flatten fst snd]. rewrite map_app. f_equal; [|exact IH].
    rewrite map_map. cbn [fst snd].
    destruct (safe_key_facts k Hk) as (Hne & Hdot & Hbr & _).
    pose proof (enc_parts B p (prop D k) k Hc Hne) as He.
    rewrite (path_parts_key k Hne Hdot Hbr) in He.
    clear -He. induction He as [|w ws Hw Hws IH]; [reflexivity|].
    cbn [map]. now rewrite Hw, IH. }
  assert (Hpaths : Forall (fun el => data_path B el <> "") (flat_map controls_in fields)).
  { apply Forall_forall. intros el Hin.
    assert (Hin' : In (data_path B el, control_value B el)
                      (raw_writes B (flat_map controls_in fields)))
      by (unfold raw_writes; apply in_map_iff; eauto).
    rewrite Hraw in Hin'. apply in_flat_map in Hin' as ([k p] & Hkp & Hin').
    apply in_map_iff in Hin' as (w & Hw' & _). cbn [fst snd] in Hw'.
    injection Hw' as Hp _. rewrite <- Hp.
    rewrite Forall_forall in Hall. destruct (Hall _ Hkp) as [Hk _]. cbn [fst] in Hk.
    destruct (safe_key_facts k Hk) as (Hne & _). now apply sapp_nonempty_l. }
  unfold collectFormData. rewrite bound_controls_form.
  rewrite (collect_all_run B _ Hpaths), Hw.
  apply run_flatten_top. apply well_formed_object; try assumption.
  eapply Forall_impl; [|exact Hall]. intros kp (H1 & H2). split; [exact H1|].
  now apply (conforms_well_formed B).
Qed.

Lemma conforms_root_facts (B : Builtins) (s : schema) (D : jsvalue) :
  conforms_root B s D = true ->
  exists ps d,
    properties s = Some ps /\ D = VObj false d
    /\ nonnil ps = true /\ nodupb (keys ps) = true
    /\ Forall (fun kp => safe_key (fst kp) = true
                         /\ conforms B (snd kp) (prop D (fst kp)) = true) ps.
Proof.
  unfold conforms_root. intros Hc.
  destruct (properties s) as [ps|]; [|discriminate].
  destruct D as [| | | | |[|] d]; try discriminate.
  apply andb_prop in Hc as [Hc Hall]. apply andb_prop in Hc as [Hc Hnd].
  apply andb_prop in Hc as [Hnn _].
  exists ps, d. repeat split; try assumption.
  pose proof (conforms_root_children B (fun p v => conforms B p v = true)
                                     (fun p v H => H) d ps Hall) as H.
  eapply Forall_impl; [|exact H]. intros kp (H1 & _ & H3). now split.
Qed.

Lemma mounted_form (B : Builtins) (s : schema) (D : jsvalue)
      (ps : list (string * schema)) (fields : list node) (n : nat) :
  properties s = Some ps ->
  render_root_props B (required s) D ps 0 = Ok (fields, n) ->
  mounted B s D
  = {| _schema := s; _data := 1;
       content := [Elem "form" [("class", VStr "schema-form")] fields];
       renderQueued := false; idCounter := n; heap := [obj []; D] |}.
Proof.
  intros Hps Hr.
  unfold mounted, flush_render, set_data, set_schema, new_form.
  cbn [renderQueued _schema _data heap idCounter List.length deref nth app].
  unfold render_content. rewrite Hps. rewrite andb_false_r.
  unfold mbind at 1. rewrite Hr. reflexivity.
Qed.

Lemma getData_of_form (B : Builtins) (c : SchemaForm) (a : list (string * jsvalue))
      (fields : list node) :
  content c = [Elem "form" a fields] ->
  getData_value B c = collectFormData B (Elem "form" a fields).
Proof.
  intros Hc. unfold getData_value, getData, query_form. rewrite Hc.
  cbn [flat_map find app tag_of String.eqb Ascii.eqb Bool.eqb andb].
  destruct (collectFormData B _) as [v|]; [|reflexivity].
  cbn [bind fst snd heap]. now rewrite deref_app_new.
Qed.

(** A mounted form collects the canonically ordered data. *)
Lemma mounted_collects (B : Builtins) (s : schema) (D : jsvalue) :
  conforms_root B s D = true ->
  getData_value B (mounted B s D) = Ok (canon_root s D).
Proof.
  intros Hc. destruct (conforms_root_facts B s D Hc) as (ps & d & Hps & -> & Hnn & Hnd & Hall).
  assert (Hconf : Forall (fun kp => conforms B (snd kp) (prop (VObj false d) (fst kp)) = true)
                         ps).
  { eapply Forall_impl; [|exact Hall]. now intros kp [_ H]. }
  destruct (root_fields B (VObj false d) (required s) ps eq_refl Hconf 0)
    as (fields & n & Hr & Hb).
  rewrite (getData_of_form B _ [("class", VStr "schema-form")] fields)
    by (rewrite (mounted_form B s _ ps fields n Hps Hr); reflexivity).
  unfold canon_root. rewrite Hps.
  apply fields_collect; try assumption.
  eapply Forall2_impl; [|exact Hb]. now intros f kp [H _].
Qed.

Lemma array_items_raw (B : Builtins) (s : schema) (its : list jsvalue) :
  conforms B s (arr its) = true ->
  exists field canon_item,
    anyOf s = None /\ oneOf s = None /\ enum s = None /\ schemaType s = Some "array"
    /\ match items s with
       | Some it => anyOf it = None /\ oneOf it = None /\ field = renderField B it
       | None => field = default_item_field B
       end
    /\ Forall (fun x => raw_field_writes B field x (flatten (canon_item x))) its
    /\ (forall l, conforms B s (arr l) = true -> canon s (arr l) = arr (map canon_item l))
    /\ (forall x,
          match items s with
          | Some it => conforms B it x = true
          | None => exists str, x = VStr str
          end ->
          raw_field_writes B (renderField B (itemSchema_of s)) x (flatten (canon_item x))).
Proof.
  intros Hc. unfold arr in Hc.
  destruct (conforms_array_items B s _ Hc) as (Ha & Ho & He & Ht & _ & Hne & Hok & _).
  rewrite map_snd_arr_props in Hok.
  assert (Hcanon : forall l, conforms B s (arr l) = true ->
                             canon s (arr l)
                             = arr (map (match items s with
                                         | Some it => canon it
                                         | None => fun v => v
                                         end) l)).
  { intros l Hl. unfold arr in Hl.
    destruct (conforms_array_items B s _ Hl) as (_ & _ & _ & _ & _ & _ & _ & E).
    rewrite map_snd_arr_props in E. exact E. }
  destruct (items s) as [it|] eqn:Hits.
  - exists (renderField B it), (canon it).
    assert (Hunion : anyOf it = None /\ oneOf it = None).
    { destruct its as [|x r]; [now contradiction Hne|].
      inversion Hok as [|? ? Hx _]; subst. rewrite conforms_unfold in Hx.
      destruct (anyOf it); [discriminate|]. destruct (oneOf it); [discriminate|].
      now split. }
    destruct Hunion as [Hai Hoi].
    split; [exact Ha|]. split; [exact Ho|]. split; [exact He|]. split; [exact Ht|].
    split; [now repeat split|]. split; [|split; [exact Hcanon|]].
    + eapply Forall_impl; [|exact Hok]. intros x Hx. now apply conforms_raw_writes.
    + intros x Hx. unfold itemSchema_of. rewrite Hits. now apply conforms_raw_writes.
  - exists (default_item_field B), (fun v => v).
    split; [exact Ha|]. split; [exact Ho|]. split; [exact He|]. split; [exact Ht|].
    split; [reflexivity|]. split; [|split; [exact Hcanon|]].
    + eapply Forall_impl; [|exact Hok]. intros x [str ->]. apply default_item_field_raw.
    + intros x [str ->]. unfold itemSchema_of. rewrite Hits.
      exact (conforms_raw_writes B string_schema (VStr str) eq_refl).
Qed.

Lemma array_field_after_remove (B : Builtins) (sa : schema) (key P : string)
      (req : bool) (m m' : nat) (x : node) (its : list jsvalue) (k : nat) :
  has_char "["%char P = false ->
  conforms B sa (arr its) = true ->
  conforms B sa (arr (remove_at k its)) = true ->
  renderField B sa key (arr its) P req m = Ok (x, m') ->
  raw_writes B (controls_in (apply_at [2] (fun c => fst (onRemoveClick B c k)) x))
  = map (fun w => (P ++ enc (fst w), snd w)) (flatten (canon sa (arr (remove_at k its)))).
Proof.
  intros HP Hc Hc' Hx.
  destruct (array_items_raw B sa its Hc)
    as (field & canon_item & Ha & Ho & He & Ht & Hit & HF & Hcanon & _).
  destruct (array_field_render B sa field canon_item its key P req m Ha Ho He Ht Hit HF)
    as (nodes & n' & Hr & Hb).
  rewrite Hr in Hx. injection Hx as <- <-.
  cbn [apply_at update_nth onRemoveClick fst reindexArrayItems].
  assert (Hb' : Forall2 (item_bound B P canon_item) (remove_at k nodes)
                        (remove_at k (mapi_from pair 0 its)))
    by now apply Forall2_remove_at.
  assert (Hitems : Forall (fun c => has_class c "schema-array-item" = true)
                          (remove_at k nodes)).
  { clear -Hb'. induction Hb' as [|c ix cs ixs (_ & Hc & _) Hrest IH]; constructor; auto. }
  rewrite (reindex_children_items B _ Hitems 0).
  change (Elem "button" [("type", VStr "button"); ("class", VStr "schema-array-add");
                         ("data-path", VStr P)] [Text "+ Add Item"])
    with (add_controls B None P).
  rewrite controls_in_array_field.
  pose proof (items_bound_reindex B P canon_item _ _ HP Hb' 0) as Hb''.
  rewrite map_remove_at, map_snd_mapi_pair in Hb''.
  rewrite (items_bound_writes B P canon_item _ _ Hb'').
  rewrite (Hcanon _ Hc'). unfold arr. now rewrite flatten_arr_map.
Qed.

Lemma nodup_keys_nth {A : Type} (ps : list (string * A)) :
  nodupb (keys ps) = true ->
  forall i j k1 p1 k2 p2,
    nth_error ps i = Some (k1, p1) -> nth_error ps j = Some (k2, p2) -> i <> j ->
    k1 <> k2.
Proof.
  induction ps as [|[k p] r IH]; intros Hnd i j k1 p1 k2 p2 Hi Hj Hij;
    [destruct i; discriminate|].
  cbn [keys map fst nodupb] in Hnd. apply andb_prop in Hnd as [Hk Hnd].
  apply negb_true_iff in Hk.
  assert (Hfresh : forall m k' p', nth_error r m = Some (k', p') -> k <> k').
  { intros m k' p' Hm ->. apply nth_error_In in Hm.
    assert (Hin : In k' (map fst r)) by (apply in_map_iff; exists (k', p'); auto).
    apply (existsb_eqb_in k' _) in Hin. unfold keys in Hk. congruence. }
  destruct i as [|i], j as [|j]; cbn [nth_error] in Hi, Hj.
  - congruence.
  - injection Hi as <- <-. eapply Hfresh. exact Hj.
  - injection Hj as <- <-. intros E. symmetry in E. revert E. eapply Hfresh. exact Hi.
  - apply (IH Hnd i j k1 p1 k2 p2 Hi Hj). congruence.
Qed.

(** X23.  Removing an array item in a mounted form has the effect on
    [getData()] of mounting the form without that element.  For a root
    property [key] (the [i]-th declared one) that holds the array [its],
    clicking the remove button of the item at position [k] and collecting
    gives what a form mounted with the array [its] minus element [k] gives,
    whenever the data before and after conform; the other properties keep
    their values. *)
Theorem remove_item_round_trip (B : Builtins) (s : schema)
        (ps : list (string * schema)) (d : list (string * jsvalue)) (i : nat)
        (key : string) (sa : schema) (its : list jsvalue) (k : nat) :
  properties s = Some ps ->
  nth_error ps i = Some (key, sa) ->
  get key d = Some (arr its) ->
  conforms_root B s (VObj false d) = true ->
  conforms_root B s (VObj false (set key (arr (remove_at k its)) d)) = true ->
  getData_value B (in_form [i; 2] (fun c => fst (onRemoveClick B c k))
                           (mounted B s (VObj false d)))
  = getData_value B (mounted B s (VObj false (set key (arr (remove_at k its)) d))).
Proof.
  intros Hps Hi Hget Hc Hc'.
  set (D := VObj false d) in *.
  set (D' := VObj false (set key (arr (remove_at k its)) d)) in *.
  rewrite (mounted_collects B s D' Hc').
  destruct (conforms_root_facts B s D Hc) as (ps0 & d0 & Hps0 & _ & Hnn & Hnd & Hall).
  rewrite Hps in Hps0. injection Hps0 as <-.
  destruct (conforms_root_facts B s D' Hc') as (ps0 & d1 & Hps0 & _ & _ & _ & Hall').
  rewrite Hps in Hps0. injection Hps0 as <-.
  assert (Hconf : Forall (fun kp => conforms B (snd kp) (prop D (fst kp)) = true) ps).
  { eapply Forall_impl; [|exact Hall]. now intros kp [_ H]. }
  destruct (root_fields B D (required s) ps eq_refl Hconf 0) as (fields & n & Hr & Hb).
  rewrite (mounted_form B s D ps fields n Hps Hr).
  unfold in_form. cbn [content map apply_at].
  match goal with
  | |- getData_value B ?form = _ =>
      rewrite (getData_of_form
                 B form [("class", VStr "schema-form")]
                 (update_nth i (apply_at [2] (fun c => fst (onRemoveClick B c k))) fields)
                 eq_refl)
  end.
  unfold canon_root. rewrite Hps.
  apply fields_collect; try assumption.
  pose proof (nth_error_In _ _ Hi) as Hin.
  rewrite Forall_forall in Hall, Hall'.
  destruct (Hall _ Hin) as [Hkey Hsa]. destruct (Hall' _ Hin) as [_ Hsa'].
  cbn [fst snd] in Hkey, Hsa, Hsa'.
  assert (HpD : prop D key = arr its) by (unfold D; cbn [prop]; now rewrite Hget).
  assert (HpD' : prop D' key = arr (remove_at k its))
    by (unfold D'; cbn [prop]; now rewrite get_set_same).
  rewrite HpD in Hsa. rewrite HpD' in Hsa'.
  destruct (safe_key_facts key Hkey) as (_ & _ & Hbr & _).
  eapply Forall2_update_nth; [exact Hb | exact Hi | |].
  - intros x [_ (m & m' & Hx)]. cbn [fst snd] in *. rewrite HpD in Hx. rewrite HpD'.
    apply (array_field_after_remove B sa key key _ m m' x its k Hbr Hsa Hsa' Hx).
  - intros j x [k' p'] Hj Hjn [Hx _]. cbn [fst snd] in *.
    assert (Hk' : k' <> key) by (apply (nodup_keys_nth ps Hnd j i k' p' key sa Hjn Hi Hj)).
    assert (E : prop D' k' = prop D k').
    { unfold D', D. cbn [prop]. now rewrite get_set_other by exact Hk'. }
    now rewrite E.
Qed.

Lemma remove_item_round_trip_witness :
  getData_value DecimalHost
                (in_form [4; 2] (fun c => fst (onRemoveClick DecimalHost c 0))
                         (mounted DecimalHost customer_schema customer))
  = getData_value DecimalHost
      (mounted DecimalHost customer_schema
         (VObj false
               (set "orders"
                    (arr (remove_at 0 [obj [("item", VStr "pen");
                                            ("count", VNum (num_of_Z 2))];
                                       obj [("item", VStr "ink");
                                            ("count", VNum (num_of_Z 1))]]))
                    [("name", VStr "Ada"); ("age", VNum (num_of_Z 36));
                     ("active", VBool true);
                     ("address", obj [("city", VStr "London"); ("zip", VStr "N1")]);
                     ("orders", arr [obj [("item", VStr "pen");
                                          ("count", VNum (num_of_Z 2))];
                                     obj [("item", VStr "ink");
                                          ("count", VNum (num_of_Z 1))]])]))).
Proof.
  apply (remove_item_round_trip
           DecimalHost customer_schema
           [("name", typed "string"); ("age", typed "integer"); ("active", typed "boolean");
            ("address", object_of [("city", typed "string"); ("zip", typed "string")]);
            ("orders", array_of (object_of [("item", typed "string");
                                            ("count", typed "number")]))]
           _ 4 "orders"
           (array_of (object_of [("item", typed "string"); ("count", typed "number")]))
           [obj [("item", VStr "pen"); ("count", VNum (num_of_Z 2))];
            obj [("item", VStr "ink"); ("count", VNum (num_of_Z 1))]] 0);
    vm_compute; reflexivity.
Defined.

(** The same removal, by evaluation. *)
Lemma remove_item_example :
  getData_value DecimalHost
                (in_form [4; 2] (fun c => fst (onRemoveClick DecimalHost c 0))
                         (mounted DecimalHost customer_schema customer))
  = Ok (obj [("name", VStr "Ada"); ("age", VNum (num_of_Z 36)); ("active", VBool true);
             ("address", obj [("city", VStr "London"); ("zip", VStr "N1")]);
             ("orders", arr [obj [("item", VStr "ink"); ("count", VNum (num_of_Z 1))]])]).
Proof. vm_compute. reflexivity. Qed.

(** ** Adding an array item in a mounted form *)

Lemma Forall2_nth_error_r {A C : Type} (R : A -> C -> Prop) (l : list A) (m : list C) :
  Forall2 R l m ->
  forall i y, nth_error m i = Some y -> exists x, nth_error l i = Some x /\ R x y.
Proof.
  induction 1 as [|x z l m Hxz Hrest IH]; intros i y Hi; [destruct i; discriminate|].
  destruct i as [|i]; cbn [nth_error] in *.
  - injection Hi as <-. eauto.
  - now apply IH.
Qed.


Lemma items_bound_all_items (B : Builtins) (P : string) (canon_item : jsvalue -> jsvalue)
      (nodes : list node) (ixs : list (nat * jsvalue)) :
  Forall2 (item_bound B P canon_item) nodes ixs ->
  Forall (fun c => has_class c "schema-array-item" = true) nodes
  /\ List.length nodes = List.length ixs.
Proof.
  induction 1 as [|c ix cs ixs (_ & Hc & _) Hrest [IH1 IH2]]; [now split|].
  split; [constructor; auto | cbn; now rewrite IH2].
Qed.

Lemma array_field_after_add (B : Builtins) (sa : schema) (key P : string)
      (req : bool) (m m' : nat) (x : node) (its : list jsvalue) (selected n : nat) :
  has_char "["%char P = false ->
  conforms B sa (arr its) = true ->
  conforms B sa (arr (its ++ [getDefaultValue (itemSchema_of sa)])) = true ->
  at_capacity sa (List.length its) = false ->
  renderField B sa key (arr its) P req m = Ok (x, m') ->
  exists container container' events n',
    node_at [2] x = Some container
    /\ onAddClick B sa P container selected n = Ok ((container', events), n')
    /\ raw_writes B (controls_in (apply_at [2] (fun _ => container') x))
       = map (fun w => (P ++ enc (fst w), snd w))
             (flatten (canon sa (arr (its ++ [getDefaultValue (itemSchema_of sa)])))).
Proof.
  intros HP Hc Hc' Hcap Hx.
  destruct (array_items_raw B sa its Hc)
    as (field & canon_item & Ha & Ho & He & Ht & Hit & HF & Hcanon & Hany).
  destruct (array_field_render B sa field canon_item its key P req m Ha Ho He Ht Hit HF)
    as (nodes & n0 & Hr & Hb).
  rewrite Hr in Hx. injection Hx as <- <-.
  destruct (items_bound_all_items B P canon_item nodes _ Hb) as [Hitems Hlen].
  rewrite mapi_from_length in Hlen.
  set (container := Elem "div" [("class", VStr "schema-array-items"); ("data-path", VStr P)]
                         nodes).
  assert (Hcount : List.length (array_items container) = List.length its).
  { unfold array_items, container. cbn [children_of].
    rewrite filter_all; [exact Hlen|].
    intros c Hin. rewrite Forall_forall in Hitems. now apply Hitems. }
  (* the new item *)
  set (dflt := getDefaultValue (itemSchema_of sa)) in *.
  assert (Hnew : exists item n',
             new_array_item B sa P (List.length its) selected n = Ok (item, n')
             /\ item_bound B P canon_item item (List.length its, dflt)).
  { unfold arr in Hc'.
    destruct (conforms_array_items B sa _ Hc') as (_ & _ & _ & _ & _ & _ & Hok & _).
    rewrite map_snd_arr_props in Hok. apply Forall_app in Hok as [_ Hok].
    inversion Hok as [|? ? Hd _]; subst. unfold new_array_item.
    pose proof (Hany dflt Hd) as Hfw.
    assert (Hnu : getUnionVariants (itemSchema_of sa) = None).
    { unfold itemSchema_of, getUnionVariants. destruct (items sa) as [it|].
      - destruct Hit as (Hai & Hoi & _). now rewrite Hai.
      - reflexivity. }
    rewrite Hnu.
    destruct (Hfw ("Item " ++ dec (List.length its + 1))
                  (P ++ "[" ++ dec (List.length its) ++ "]") false n)
      as (c & n1 & Hcr & Hcw).
    assert (Hitem : exists item,
               renderArrayItem (renderField B (itemSchema_of sa))
                               ("Item " ++ dec (List.length its + 1)) dflt
                               (P ++ "[" ++ dec (List.length its) ++ "]")
                               (List.length its) None n = Ok (item, n1))
      by (unfold renderArrayItem, mbind; fold dflt; rewrite Hcr; unfold ret; eauto).
    destruct Hitem as [item Hitem].
    destruct (renderArrayItem_bound B _ _ _ _ _ _ _ _ Hitem)
      as (Htag & Hcls & c' & Hc'' & Hctl).
    fold dflt in Hc''. rewrite Hcr in Hc''. injection Hc'' as <-.
    exists item, n1. split; [exact Hitem|].
    split; [exact Htag|]. split; [exact Hcls|]. cbn [fst snd]. now rewrite Hctl, Hcw. }
  destruct Hnew as (item & n' & Hnew & Hbound).
  exists container, (reindexArrayItems B (append_child container item)),
         ["schema-change"], n'.
  split; [reflexivity|]. split.
  - unfold onAddClick. rewrite Hcount, Hcap. unfold mbind, ret. now rewrite Hnew.
  - cbn [apply_at update_nth append_child container reindexArrayItems].
    unfold container. cbn [append_child reindexArrayItems].
    assert (Hb' : Forall2 (item_bound B P canon_item) (nodes ++ [item])
                          (mapi_from pair 0 its ++ [(List.length its, dflt)])%list).
    { apply Forall2_app; [exact Hb|]. constructor; [exact Hbound | constructor]. }
    destruct (items_bound_all_items B P canon_item _ _ Hb') as [Hitems' _].
    rewrite (reindex_children_items B _ Hitems' 0).
    change (Elem "button" [("type", VStr "button"); ("class", VStr "schema-array-add");
                           ("data-path", VStr P)] [Text "+ Add Item"])
      with (add_controls B None P).
    rewrite controls_in_array_field.
    pose proof (items_bound_reindex B P canon_item _ _ HP Hb' 0) as Hb''.
    rewrite map_app, map_snd_mapi_pair in Hb''. cbn [map snd] in Hb''.
    rewrite (items_bound_writes B P canon_item _ _ Hb'').
    rewrite (Hcanon _ Hc'). unfold arr. now rewrite flatten_arr_map.
Qed.

(** X24.  Adding an array item in a mounted form has the effect on
    [getData()] of mounting the form with one more element, the default
    value of the item schema, at the end of the array.  For a root property
    [key] (the [i]-th declared one) that holds the array [its] and has not
    reached [maxItems], the click on the add button succeeds, and collecting
    gives what a form mounted with [its] followed by that default gives,
    whenever the data before and after conform. *)
Theorem add_item_round_trip (B : Builtins) (s : schema)
        (ps : list (string * schema)) (d : list (string * jsvalue)) (i : nat)
        (key : string) (sa : schema) (its : list jsvalue) (selected : nat) :
  properties s = Some ps ->
  nth_error ps i = Some (key, sa) ->
  get key d = Some (arr its) ->
  at_capacity sa (List.length its) = false ->
  conforms_root B s (VObj false d) = true ->
  conforms_root B s (VObj false
                          (set key (arr (its ++ [getDefaultValue (itemSchema_of sa)])) d))
  = true ->
  exists c',
    click_add B sa key [i; 2] selected (mounted B s (VObj false d)) = Ok c'
    /\ getData_value B c'
       = getData_value B
           (mounted B s
                    (VObj false
                          (set key (arr (its ++ [getDefaultValue (itemSchema_of sa)])) d))).
Proof.
  intros Hps Hi Hget Hcap Hc Hc'.
  set (D := VObj false d) in *.
  set (l' := (its ++ [getDefaultValue (itemSchema_of sa)])%list) in *.
  set (D' := VObj false (set key (arr l') d)) in *.
  rewrite (mounted_collects B s D' Hc').
  destruct (conforms_root_facts B s D Hc) as (ps0 & d0 & Hps0 & _ & Hnn & Hnd & Hall).
  rewrite Hps in Hps0. injection Hps0 as <-.
  destruct (conforms_root_facts B s D' Hc') as (ps0 & d1 & Hps0 & _ & _ & _ & Hall').
  rewrite Hps in Hps0. injection Hps0 as <-.
  assert (Hconf : Forall (fun kp => conforms B (snd kp) (prop D (fst kp)) = true) ps).
  { eapply Forall_impl; [|exact Hall]. now intros kp [_ H]. }
  destruct (root_fields B D (required s) ps eq_refl Hconf 0) as (fields & n & Hr & Hb).
  rewrite (mounted_form B s D ps fields n Hps Hr).
  pose proof (nth_error_In _ _ Hi) as Hin.
  pose proof Hall as HallF. pose proof Hall' as HallF'.
  rewrite Forall_forall in Hall, Hall'.
  destruct (Hall _ Hin) as [Hkey Hsa]. destruct (Hall' _ Hin) as [_ Hsa'].
  cbn [fst snd] in Hkey, Hsa, Hsa'.
  assert (HpD : prop D key = arr its) by (unfold D; cbn [prop]; now rewrite Hget).
  assert (HpD' : prop D' key = arr l')
    by (unfold D'; cbn [prop]; now rewrite get_set_same).
  rewrite HpD in Hsa. rewrite HpD' in Hsa'.
  destruct (safe_key_facts key Hkey) as (_ & _ & Hbr & _).
  destruct (Forall2_nth_error_r _ _ _ Hb i (key, sa) Hi) as (x & Hxi & _ & m & m' & Hx).
  cbn [fst snd] in Hx. rewrite HpD in Hx.
  destruct (array_field_after_add B sa key key _ m m' x its selected n Hbr Hsa Hsa'
                                  Hcap Hx)
    as (container & container' & events & n' & Hnode & Hclick & Hw).
  eexists. split.
  - unfold click_add. cbn [content idCounter node_at children_of].
    rewrite Hxi. cbn [node_at] in Hnode. rewrite Hnode, Hclick. reflexivity.
  - cbn [apply_at].
    match goal with
    | |- getData_value B ?form = _ =>
        rewrite (getData_of_form
                   B form [("class", VStr "schema-form")]
                   (update_nth i (apply_at [2] (fun _ => container')) fields) eq_refl)
    end.
    unfold canon_root. rewrite Hps.
    apply fields_collect; try assumption.
    eapply Forall2_update_nth; [exact Hb | exact Hi | |].
    + intros y [_ (m1 & m1' & Hy)]. cbn [fst snd] in *. rewrite HpD in Hy. rewrite HpD'.
      assert (E : apply_at [2] (fun _ => container') y
                  = apply_at [2] (fun _ => container') x).
      { clear -Hy Hx Hsa.
        destruct (array_items_raw B sa its Hsa)
          as (field & canon_item & Ha & Ho & He & Ht & Hit & HF & _ & _).
        destruct (array_field_render B sa field canon_item its key key
                                     (includes (required s) key) m1 Ha Ho He Ht Hit HF)
          as (nodes1 & k1 & Hr1 & Hb1).
        destruct (array_field_render B sa field canon_item its key key
                                     (includes (required s) key) m Ha Ho He Ht Hit HF)
          as (nodes2 & k2 & Hr2 & Hb2).
        rewrite Hr1 in Hy. rewrite Hr2 in Hx. injection Hy as <- _. injection Hx as <- _.
        reflexivity. }
      rewrite E. exact Hw.
    + intros j y [k' p'] Hj Hjn [Hy _]. cbn [fst snd] in *.
      assert (Hk' : k' <> key) by (apply (nodup_keys_nth ps Hnd j i k' p' key sa Hjn Hi Hj)).
      assert (E : prop D' k' = prop D k').
      { unfold D', D. cbn [prop]. now rewrite get_set_other by exact Hk'. }
      now rewrite E.
Qed.

Lemma add_item_round_trip_witness :
  exists c',
    click_add DecimalHost
              (array_of (object_of [("item", typed "string"); ("count", typed "number")]))
              "orders" [4; 2] 0 (mounted DecimalHost customer_schema customer) = Ok c'
    /\ getData_value DecimalHost c'
       = Ok (obj [("name", VStr "Ada"); ("age", VNum (num_of_Z 36)); ("active", VBool true);
                  ("address", obj [("city", VStr "London"); ("zip", VStr "N1")]);
                  ("orders",
                   arr [obj [("item", VStr "pen"); ("count", VNum (num_of_Z 2))];
                        obj [("item", VStr "ink"); ("count", VNum (num_of_Z 1))];
                        obj [("item", VStr ""); ("count", VNum (num_of_nat 0))]])]).
Proof.
  destruct (add_item_round_trip
              DecimalHost customer_schema
              [("name", typed "string"); ("age", typed "integer");
               ("active", typed "boolean");
               ("address", object_of [("city", typed "string"); ("zip", typed "string")]);
               ("orders", array_of (object_of [("item", typed "string");
                                               ("count", typed "number")]))]
              [("name", VStr "Ada"); ("age", VNum (num_of_Z 36)); ("active", VBool true);
               ("address", obj [("city", VStr "London"); ("zip", VStr "N1")]);
               ("orders", arr [obj [("item", VStr "pen"); ("count", VNum (num_of_Z 2))];
                               obj [("item", VStr "ink"); ("count", VNum (num_of_Z 1))]])]
              4 "orders"
              (array_of (object_of [("item", typed "string"); ("count", typed "number")]))
              [obj [("item", VStr "pen"); ("count", VNum (num_of_Z 2))];
               obj [("item", VStr "ink"); ("count", VNum (num_of_Z 1))]] 0
              eq_refl eq_refl eq_refl eq_refl)
    as (c' & Hclick & Hdata); [vm_compute; reflexivity | vm_compute; reflexivity |].
  exists c'. split; [exact Hclick|]. rewrite Hdata. vm_compute. reflexivity.
Defined.
(** ** The add control *)






(** The same click for an array inside an array item: the new item of the
    inner array [m[1]], built at [m[1][2]], is bound to [m[2][2]] once the
    re-indexing has rewritten the first index of its path. *)
Lemma nested_add_example :
  let item := Elem "div" [("class", VStr "schema-array-item")] [] in
  let inner := Elem "div" [("class", VStr "schema-array-items")] [item; item] in
  match onAddClick DecimalHost (array_of (typed "string")) "m[1]" inner 0 0 with
  | Ok ((container, _), _) =>
      map (data_path DecimalHost) (bound_controls container) = ["m[2][2]"]
  | TypeError => False
  end.
Proof. vm_compute. reflexivity. Qed.

(** ** Empty arrays *)

Lemma variant_select_controls (B : Builtins) (vs : list (schema * renderer)) :
  forall i,
    flat_map controls_in
             (mapi_from (fun i v => Elem "option" [("value", VStr (dec i))]
                                         [Text (getVariantLabel B (fst v) i)]) i vs) = [].
Proof. induction vs as [|v r IH]; intros i; [reflexivity | apply IH]. Qed.

Lemma add_controls_unbound (B : Builtins) (itemVariants : option (list (schema * renderer)))
      (path : string) :
  controls_in (add_controls B itemVariants path) = [].
Proof.
  destruct itemVariants as [vs|]; [|reflexivity].
  unfold add_controls. rewrite controls_in_elem. cbn [flat_map].
  rewrite (controls_in_elem "select"). rewrite (variant_select_controls B vs 0).
  reflexivity.
Qed.

Lemma controls_in_constraints (B : Builtins) (s : schema) :
  controls_in (array_constraints B s) = [].
Proof. unfold array_constraints. destruct (minItems s), (maxItems s); reflexivity. Qed.

(** X25.  An array field whose value is an empty array, or is absent or
    otherwise falsy, renders no item and has no bound control, whatever the
    item schema (a union included): the collector writes nothing for it, so
    its key is missing from the collected data. *)
Theorem empty_array_field_collects_nothing (B : Builtins) (s : schema)
        (key : string) (value : jsvalue) (path : string) (required : bool) (n : nat) :
  anyOf s = None -> oneOf s = None -> enum s = None -> schemaType s = Some "array" ->
  (truthy value = false \/ value = arr []) ->
  exists field,
    renderField B s key value path required n = Ok (field, S n)
    /\ node_at [2] field
       = Some (Elem "div" [("class", VStr "schema-array-items"); ("data-path", VStr path)]
                    [])
    /\ controls_in field = []
    /\ collectFormData B (Elem "form" [("class", VStr "schema-form")] [field]) = Ok (obj []).
Proof.
  intros Ha Ho He Ht Hv.
  rewrite (renderField_plain B s key value path required n Ha Ho). cbv zeta.
  rewrite He, Ht. cbn [String.eqb Ascii.eqb Bool.eqb andb orb].
  assert (E : forEach_entries value = Ok []).
  { unfold forEach_entries. destruct Hv as [Hf | ->]; [now rewrite Hf | reflexivity]. }
  assert (R : forall itemField itemVariants,
             let field :=
               Elem "fieldset" [("class", VStr "schema-array"); ("data-path", VStr path)]
                    [legend_of (getLabel key s) required; description_line s;
                     Elem "div" [("class", VStr "schema-array-items");
                                 ("data-path", VStr path)] [];
                     add_controls B itemVariants path; array_constraints B s] in
             renderArrayField B key s itemField itemVariants value path required (S n)
             = Ok (field, S n)
             /\ controls_in field = []).
  { intros itemField itemVariants. cbv zeta. split.
    - unfold renderArrayField. rewrite E. reflexivity.
    - rewrite controls_in_elem. cbn [flat_map].
      rewrite controls_in_legend, controls_in_description, add_controls_unbound,
        controls_in_constraints.
      reflexivity. }
  assert (F : forall itemField itemVariants,
             exists field,
               renderArrayField B key s itemField itemVariants value path required (S n)
               = Ok (field, S n)
               /\ node_at [2] field
                  = Some (Elem "div" [("class", VStr "schema-array-items");
                                      ("data-path", VStr path)] [])
               /\ controls_in field = []
               /\ collectFormData B (Elem "form" [("class", VStr "schema-form")] [field])
                  = Ok (obj [])).
  { intros itemField itemVariants. destruct (R itemField itemVariants) as [H1 H2].
    eexists. split; [exact H1|]. split; [reflexivity|]. split; [exact H2|].
    unfold collectFormData. rewrite bound_controls_form. cbn [flat_map].
    now rewrite H2. }
  destruct (items s) as [it|]; apply F.
Qed.

Lemma empty_array_field_collects_nothing_witness :
  exists field,
    renderField DecimalHost (array_of (typed "string")) "list" (arr []) "list" false 0
    = Ok (field, 1)
    /\ controls_in field = [].
Proof.
  destruct (empty_array_field_collects_nothing
              DecimalHost (array_of (typed "string")) "list" (arr []) "list" false 0
              eq_refl eq_refl eq_refl eq_refl (or_intror eq_refl))
    as (field & H1 & _ & H3 & _).
  exists field. split; [exact H1 | exact H3].
Defined.

(** ** Re-indexing twice *)

Lemma bracket_body_replace_first_index (index r : string) :
  bracket_body (replace_first_index index r) = bracket_body r.
Proof.
  induction r as [|c r1 IH]; [reflexivity|].
  cbn [replace_first_index].
  destruct (Ascii.eqb c "["%char) eqn:Ec.
  - apply Ascii.eqb_eq in Ec. subst c.
    destruct (bracket_body r1); reflexivity.
  - cbn [bracket_body]. destruct (is_digit c); [|reflexivity].
    destruct r1 as [|c' r2]; [reflexivity|].
    cbn [replace_first_index].
    destruct (Ascii.eqb c' "["%char) eqn:Ec'.
    + apply Ascii.eqb_eq in Ec'. subst c'.
      cbn [replace_first_index Ascii.eqb Bool.eqb andb] in IH.
      destruct (bracket_body r2) as [ds|].
      * change ("[" ++ index ++ "]" ++ string_drop (S (String.length ds)) r2)
          with (String "[" (index ++ "]" ++ string_drop (S (String.length ds)) r2)) in *.
        cbn [Ascii.eqb Bool.eqb andb]. now rewrite IH.
      * cbn [Ascii.eqb Bool.eqb andb]. now rewrite IH.
    + cbn [replace_first_index] in IH. rewrite Ec' in IH.
      destruct (Ascii.eqb c' "]"%char); [reflexivity|]. now rewrite IH.
Qed.

Lemma replace_first_index_idem (index s : string) :
  all_digits index = true -> index <> "" ->
  replace_first_index index (replace_first_index index s) = replace_first_index index s.
Proof.
  intros Hd Hne. induction s as [|c r IH]; [reflexivity|].
  cbn [replace_first_index].
  destruct (Ascii.eqb c "["%char) eqn:Ec.
  - destruct (bracket_body r) as [ds|] eqn:Eb.
    + apply (replace_first_index_head index index _ Hd Hne).
    + cbn [replace_first_index]. rewrite Ec, bracket_body_replace_first_index, Eb.
      now rewrite IH.
  - cbn [replace_first_index]. rewrite Ec. now rewrite IH.
Qed.

Lemma repath_spec (B : Builtins) (j : nat) (t : string) (a : list (string * jsvalue))
      (cs : list node) :
  repath B j (Elem t a cs)
  = match get "data-path" a with
    | Some v =>
        let new := replace_first_index (dec j) (String_of B v) in
        match get "name" a with
        | Some _ => Elem t (set "name" (VStr new) (set "data-path" (VStr new) a)) cs
        | None => Elem t (set "data-path" (VStr new) a) cs
        end
    | None => Elem t a cs
    end.
Proof.
  unfold repath, hasAttribute, getAttribute. cbn [attrs_of].
  destruct (get "data-path" a) as [v|]; [|reflexivity].
  cbn [setAttribute attrs_of]. rewrite (get_set_other "name" "data-path") by discriminate.
  destruct (get "name" a) as [w|]; reflexivity.
Qed.

Lemma repath_idem (B : Builtins) (j : nat) (n : node) :
  repath B j (repath B j n) = repath B j n.
Proof.
  destruct n as [s|t a cs]; [reflexivity|].
  rewrite (repath_spec B j t a cs).
  destruct (get "data-path" a) as [v|] eqn:Ep.
  2: { now rewrite repath_spec, Ep. }
  cbv zeta. set (new := replace_first_index (dec j) (String_of B v)).
  assert (Hnew : replace_first_index (dec j) new = new)
    by (apply replace_first_index_idem; [apply dec_digits | apply dec_nonempty]).
  destruct (get "name" a) as [w|] eqn:En.
  - rewrite repath_spec.
    rewrite (get_set_other "data-path" "name") by discriminate.
    rewrite !get_set_same. cbn [String_of]. cbv zeta. rewrite Hnew.
    rewrite (set_same "data-path" (VStr new))
      by (rewrite get_set_other by discriminate; apply get_set_same).
    now rewrite set_set.
  - rewrite repath_spec, get_set_same. cbn [String_of]. cbv zeta.
    rewrite Hnew, (get_set_other "name" "data-path") by discriminate.
    now rewrite En, set_set.
Qed.

Lemma repath_children (B : Builtins) (j : nat) (t : string)
      (a : list (string * jsvalue)) (cs : list node) :
  exists a', repath B j (Elem t a cs) = Elem t a' cs
             /\ forall cs', repath B j (Elem t a cs') = Elem t a' cs'.
Proof.
  unfold repath, hasAttribute, getAttribute. cbn [attrs_of].
  destruct (get "data-path" a); [|exists a; now split].
  cbn [setAttribute attrs_of].
  destruct (get "name" (set "data-path" _ a)); eexists; split; reflexivity.
Qed.

Lemma repath_all_idem (B : Builtins) (j : nat) (n : node) :
  repath_all B j (repath_all B j n) = repath_all B j n.
Proof.
  induction n as [s|t a cs IH] using node_induction; [reflexivity|].
  unfold repath_all at 2 3. cbn [repath_descendants].
  change (map (fun c => repath B j (repath_descendants B j c)) cs)
    with (map (repath_all B j) cs).
  destruct (repath_children B j t a (map (repath_all B j) cs)) as (a' & E & Eall).
  rewrite E. unfold repath_all. cbn [repath_descendants].
  change (map (fun c => repath B j (repath_descendants B j c)) (map (repath_all B j) cs))
    with (map (repath_all B j) (map (repath_all B j) cs)).
  assert (Hcs : map (repath_all B j) (map (repath_all B j) cs) = map (repath_all B j) cs).
  { rewrite map_map. clear -IH. induction IH as [|c r Hc Hr IHr]; [reflexivity|].
    cbn [map]. now rewrite Hc, IHr. }
  unfold repath_all in Hcs, E. rewrite Hcs. rewrite <- E. apply repath_idem.
Qed.

Lemma reindex_item_idem (B : Builtins) (j : nat) (item : node) :
  reindex_item B j (reindex_item B j item) = reindex_item B j item.
Proof.
  destruct item as [s|t a cs]; [reflexivity|].
  unfold reindex_item. cbn [setAttribute repath_descendants].
  change (map (fun c => repath B j (repath_descendants B j c)) cs)
    with (map (repath_all B j) cs).
  change (map (fun c => repath B j (repath_descendants B j c)) (map (repath_all B j) cs))
    with (map (repath_all B j) (map (repath_all B j) cs)).
  rewrite set_set. f_equal. rewrite map_map. apply map_ext. intros c.
  apply repath_all_idem.
Qed.

(** X26.  Re-indexing is idempotent: running [reindexArrayItems] on a
    container that has just been re-indexed changes nothing, whatever the
    container holds. *)
Theorem reindexArrayItems_idempotent (B : Builtins) (container : node) :
  reindexArrayItems B (reindexArrayItems B container) = reindexArrayItems B container.
Proof.
  destruct container as [s|t a cs]; [reflexivity|].
  cbn [reindexArrayItems]. f_equal. generalize 0.
  induction cs as [|c r IH]; intros i; [reflexivity|].
  cbn [reindex_children].
  destruct (has_class c "schema-array-item") eqn:Hc; cbn [reindex_children].
  - rewrite has_class_reindex_item, Hc. now rewrite reindex_item_idem, IH.
  - rewrite Hc. now rewrite IH.
Qed.

(** ** The path syntax, written and read *)

Lemma numeric_key_facts (p : string) :
  is_numeric p = true ->
  all_digits p = true /\ p <> ""
  /\ has_char "."%char p = false /\ has_char "["%char p = false.
Proof.
  intros H. destruct p as [|c r]; [discriminate|]. cbn [is_numeric] in H.
  split; [exact H|]. split; [discriminate|].
  split; apply digits_no_char; try exact H; reflexivity.
Qed.

(** X27.  The renderer and the collector agree on the path syntax.  The
    renderer extends the path of a field by [.key] for a property and by
    [[i]] for an array index; for segments that are array indices or
    property names free of ".", "[" and not purely numeric, the path that it
    writes is read back by [setValueByPath] as exactly those segments after
    the segments of the field's own path. *)
Theorem path_encoding_round_trip (parts : list string) :
  forallb (fun p => is_numeric p || safe_key p) parts = true ->
  forall P, path_parts (P ++ enc parts) = (path_parts P ++ parts)%list.
Proof.
  induction parts as [|p r IH]; intros Hall P.
  - cbn [enc]. now rewrite sapp_nil_r, app_nil_r.
  - cbn [forallb] in Hall. apply andb_prop in Hall as [Hp Hr].
    specialize (IH Hr). cbn [enc].
    assert (Hkey : p <> "" /\ has_char "."%char p = false /\ has_char "["%char p = false).
    { destruct (is_numeric p) eqn:En.
      - destruct (numeric_key_facts p En) as (_ & H1 & H2 & H3). now repeat split.
      - cbn [orb] in Hp. destruct (safe_key_facts p Hp) as (H1 & H2 & H3 & _).
        now repeat split. }
    destruct Hkey as (Hne & Hdot & Hbr).
    assert (Htail : path_parts (p ++ enc r) = p :: r).
    { rewrite (IH p), (path_parts_key p Hne Hdot Hbr). reflexivity. }
    destruct (is_numeric p) eqn:En.
    + destruct (numeric_key_facts p En) as (Hd & _).
      replace (P ++ ("[" ++ p ++ "]") ++ enc r) with (P ++ "[" ++ p ++ "]" ++ enc r)
        by (now rewrite <- path_index_assoc, sapp_assoc).
      rewrite (path_parts_bracket_normalised P p (enc r) Hd Hne).
      now rewrite path_parts_dot_app, Htail.
    + replace (P ++ ("." ++ p) ++ enc r) with (P ++ "." ++ p ++ enc r)
        by (now rewrite (sapp_assoc "." p (enc r))).
      now rewrite path_parts_dot_app, Htail.
Qed.

Lemma path_encoding_round_trip_witness :
  path_parts ("orders" ++ enc ["1"; "item"]) = (path_parts "orders" ++ ["1"; "item"])%list.
Proof.
  apply (path_encoding_round_trip ["1"; "item"]). reflexivity.
Defined.
